(** * Calorie estimator: a shallow embedding of [app.py]

    The development follows the script top-down in reverse: first the
    pieces of Python the script leans on ([str], [int()], [json]), then the
    search adapter, the tool-call loop, the result extractor and the
    Streamlit session driven by [main]. *)

From Stdlib Require Import ZArith NArith List Ascii String Bool Lia.
From Stdlib Require Import DecimalN DecimalPos DecimalFacts.
From stdpp Require Import gmap strings.
Import ListNotations.

Set Warnings "-register-all".
Local Open Scope Z_scope.

(** ** Python strings

    A Python [str] is a sequence of Unicode code points. *)

Module PyStr.

Definition pystr : Type := list N.

(** Literals of the script are ASCII; [str] reads them off a Rocq string. *)
Definition str (s : string) : pystr := map N_of_ascii (list_ascii_of_string s).

Definition ch (a : ascii) : N := N_of_ascii a.

(** The double quote and the line feed, which a literal cannot hold. *)
Definition DQUOTE : N := 34%N.
Definition LF : N := 10%N.

(** [quoted s] is [s] between double quotes. *)
Definition quoted (s : string) : pystr := DQUOTE :: str s ++ [DQUOTE].

Definition pystr_eqb (a b : pystr) : bool := bool_decide (a = b).

(** [s.find(c)] for a one-character needle: index of the first
    occurrence, or -1. *)
Fixpoint find (c : N) (s : pystr) : Z :=
  match s with
  | [] => -1
  | x :: r =>
      if N.eqb x c then 0
      else let i := find c r in if i <? 0 then -1 else i + 1
  end.

(** [s.rfind(c)]: index of the last occurrence, or -1. *)
Fixpoint rfind (c : N) (s : pystr) : Z :=
  match s with
  | [] => -1
  | x :: r =>
      let i := rfind c r in
      if 0 <=? i then i + 1
      else if N.eqb x c then 0 else -1
  end.

(** [s[a:b]] with Python's treatment of negative and oversized bounds. *)
Definition clamp_index (len i : Z) : Z :=
  if i <? 0 then Z.max 0 (i + len) else Z.min i len.

Definition slice (s : pystr) (a b : Z) : pystr :=
  let len := Z.of_nat (length s) in
  let a' := clamp_index len a in
  let b' := clamp_index len b in
  take (Z.to_nat (b' - a')) (drop (Z.to_nat a') s).

(** Decimal digits of a natural number, most significant first. *)
Fixpoint uint_digits (u : Decimal.uint) : pystr :=
  match u with
  | Decimal.Nil => []
  | Decimal.D0 r => 48%N :: uint_digits r
  | Decimal.D1 r => 49%N :: uint_digits r
  | Decimal.D2 r => 50%N :: uint_digits r
  | Decimal.D3 r => 51%N :: uint_digits r
  | Decimal.D4 r => 52%N :: uint_digits r
  | Decimal.D5 r => 53%N :: uint_digits r
  | Decimal.D6 r => 54%N :: uint_digits r
  | Decimal.D7 r => 55%N :: uint_digits r
  | Decimal.D8 r => 56%N :: uint_digits r
  | Decimal.D9 r => 57%N :: uint_digits r
  end.

Definition N_digits (n : N) : pystr := uint_digits (N.to_uint n).

End PyStr.
Export PyStr.

(** ** Exceptions and the result of an evaluation *)

Module PyExc.

(** The exception classes the script can meet.  [JSONDecodeError] is a
    subclass of [ValueError] and every class is a subclass of [Exception],
    which also stands for the classes an external library raises.
    [RecursionError] is what the interpreter raises when calls nest deeper
    than its recursion limit allows. *)
Inductive exc_class : Type :=
| Exception | ValueError | JSONDecodeError | TypeError | AttributeError
| OverflowError | KeyError | IndexError | RecursionError.

(** An exception instance.  [exn_msg] is the message when the script gives
    one itself; the interpreter's own wording is left out ([None]). *)
Record exn : Type := Exn { exn_class : exc_class; exn_msg : option pystr }.

Definition exc_class_eqb (a b : exc_class) : bool :=
  match a, b with
  | Exception, Exception
  | ValueError, ValueError | JSONDecodeError, JSONDecodeError
  | TypeError, TypeError | AttributeError, AttributeError
  | OverflowError, OverflowError | KeyError, KeyError
  | IndexError, IndexError | RecursionError, RecursionError => true
  | _, _ => false
  end.

(** [issubclass a b]. *)
Definition subclass (a b : exc_class) : bool :=
  exc_class_eqb a b ||
  match a, b with
  | JSONDecodeError, ValueError => true
  | _, Exception => true
  | _, _ => false
  end.

(** [except (c1, c2, ...)] matches [e]. *)
Definition caught_by (classes : list exc_class) (e : exn) : bool :=
  existsb (subclass (exn_class e)) classes.

Inductive Result (A : Type) : Type :=
| Ok (a : A)
| Raise (e : exn).
Arguments Ok {A} a.
Arguments Raise {A} e.

Definition bind {A B} (m : Result A) (k : A -> Result B) : Result B :=
  match m with
  | Ok a => k a
  | Raise e => Raise e
  end.

Definition raise {A} (c : exc_class) : Result A := Raise (Exn c None).

(** [try: body  except classes: handler]. *)
Definition try_except {A} (body : Result A) (classes : list exc_class)
    (handler : exn -> Result A) : Result A :=
  match body with
  | Ok a => Ok a
  | Raise e => if caught_by classes e then handler e else Raise e
  end.

Fixpoint mapM {A B} (f : A -> Result B) (l : list A) : Result (list B) :=
  match l with
  | [] => Ok []
  | x :: r => bind (f x) (fun y => bind (mapM f r) (fun ys => Ok (y :: ys)))
  end.

End PyExc.
Export PyExc.

Declare Scope py_scope.
Delimit Scope py_scope with py.
Notation "'let*' x ':=' m 'in' k" := (bind m (fun x => k))
  (at level 10, x name, m at level 100, k at level 200, only parsing) : py_scope.
Notation "'let*' ' pat ':=' m 'in' k" :=
  (bind m (fun x => match x with pat => k end))
  (at level 10, pat pattern, m at level 100, k at level 200, only parsing)
  : py_scope.
Local Open Scope py_scope.

(** ** Python values and the [int()] builtin *)

Module PyVal.

(** A Python [float]: a binary64 value [(-1)^neg * m * 2^e], an infinity
    or a NaN. *)
Inductive pyfloat : Type :=
| FFinite (neg : bool) (m : N) (e : Z)
| FInf (neg : bool)
| FNaN.

(** The values [json.loads] produces and the script handles.  A [dict] is
    the list of its items in insertion order, keys pairwise distinct. *)
Inductive pyobj : Type :=
| PNone
| PBool (b : bool)
| PInt (z : Z)
| PFloat (f : pyfloat)
| PStr (s : pystr)
| PList (l : list pyobj)
| PDict (d : list (pystr * pyobj)).

Definition dict : Type := list (pystr * pyobj).

Fixpoint dict_get (d : dict) (k : pystr) : option pyobj :=
  match d with
  | [] => None
  | (k', v) :: r => if pystr_eqb k' k then Some v else dict_get r k
  end.

(** [d[k] = v]: a present key keeps its position. *)
Fixpoint dict_set (d : dict) (k : pystr) (v : pyobj) : dict :=
  match d with
  | [] => [(k, v)]
  | (k', v') :: r =>
      if pystr_eqb k' k then (k', v) :: r else (k', v') :: dict_set r k v
  end.

(** [dict(pairs)]. *)
Definition dict_of_pairs (pairs : list (pystr * pyobj)) : dict :=
  fold_left (fun d kv => dict_set d (fst kv) (snd kv)) pairs [].

(** [o.get(k, default)]: only a [dict] has the method. *)
Definition py_get (o : pyobj) (k : pystr) (default : pyobj) : Result pyobj :=
  match o with
  | PDict d => Ok (match dict_get d k with Some v => v | None => default end)
  | _ => raise AttributeError
  end.

(** [o[k]] for a [str] key. *)
Definition py_getitem (o : pyobj) (k : pystr) : Result pyobj :=
  match o with
  | PDict d => match dict_get d k with
               | Some v => Ok v
               | None => raise KeyError
               end
  | _ => raise TypeError
  end.

(** Truth value of an object. *)
Definition truthy (o : pyobj) : bool :=
  match o with
  | PNone => false
  | PBool b => b
  | PInt z => negb (z =? 0)
  | PFloat (FFinite _ m _) => negb (m =? 0)%N
  | PFloat _ => true
  | PStr s => match s with [] => false | _ => true end
  | PList l => match l with [] => false | _ => true end
  | PDict d => match d with [] => false | _ => true end
  end.

(** [for x in o]: the items the loop visits. *)
Definition py_iter (o : pyobj) : Result (list pyobj) :=
  match o with
  | PList l => Ok l
  | PDict d => Ok (map (fun kv => PStr (fst kv)) d)
  | PStr s => Ok (map (fun c => PStr [c]) s)
  | _ => raise TypeError
  end.

(** *** Integer and text conversions *)

(** [sys.get_int_max_str_digits()], the interpreter's default. *)
Definition int_max_str_digits : N := 4300%N.

(** First code points of the runs of ten decimal digits outside ASCII
    (Unicode 14, the database of CPython 3.11). *)
Definition unicode_zeros : list N :=
  [1632; 1776; 1984; 2406; 2534; 2662; 2790; 2918; 3046; 3174; 3302; 3430;
   3558; 3664; 3792; 3872; 4160; 4240; 6112; 6160; 6470; 6608; 6784; 6800;
   6992; 7088; 7232; 7248; 42528; 43216; 43264; 43472; 43504; 43600; 44016;
   65296; 66720; 68912; 69734; 69872; 69942; 70096; 70384; 70736; 70864;
   71248; 71360; 71472; 71904; 72016; 72784; 73040; 73120; 92768; 92864;
   93008; 120782; 120792; 120802; 120812; 120822; 123200; 123632; 125264;
   130032]%N.

(** White space outside ASCII. *)
Definition unicode_spaces : list N :=
  [133; 160; 5760; 8192; 8193; 8194; 8195; 8196; 8197; 8198; 8199; 8200;
   8201; 8202; 8232; 8233; 8239; 8287; 12288]%N.

Definition unicode_decimal (c : N) : option N :=
  match List.find (fun z => (z <=? c)%N && (c <? z + 10)%N) unicode_zeros with
  | Some z => Some (c - z)%N
  | None => None
  end.

(** What [int()] first does to each character of a [str]: ASCII is kept,
    other white space becomes a blank, other decimal digits become ASCII
    digits and anything else a question mark. *)
Definition to_ascii (c : N) : N :=
  if (c <? 127)%N then c
  else if existsb (N.eqb c) unicode_spaces then 32%N
  else match unicode_decimal c with
       | Some d => (48 + d)%N
       | None => 63%N
       end.

Definition is_space (c : N) : bool := ((9 <=? c) && (c <=? 13) || (c =? 32))%N.
Definition is_digit (c : N) : bool := ((48 <=? c) && (c <=? 57))%N.

Fixpoint lstrip (s : pystr) : pystr :=
  match s with
  | c :: r => if is_space c then lstrip r else s
  | [] => []
  end.

(** Digits with single underscores between them: the value read, the
    number of digits and the text left; [None] on a doubled or trailing
    underscore. *)
Fixpoint scan_digits (s : pystr) (after_underscore : bool) (acc count : N)
  : option (N * N * pystr) :=
  match s with
  | c :: r =>
      if is_digit c then scan_digits r false (acc * 10 + (c - 48))%N (count + 1)%N
      else if (c =? 95)%N then
        if after_underscore then None else scan_digits r true acc count
      else if after_underscore then None else Some (acc, count, s)
  | [] => if after_underscore then None else Some (acc, count, [])
  end.

Definition split_sign (s : pystr) : bool * pystr :=
  match s with
  | c :: r => if (c =? 45)%N then (true, r)
              else if (c =? 43)%N then (false, r) else (false, s)
  | [] => (false, [])
  end.

Definition starts_with_underscore (s : pystr) : bool :=
  match s with
  | c :: _ => (c =? 95)%N
  | [] => false
  end.

Definition signed (neg : bool) (n : N) : Z :=
  if neg then - Z.of_N n else Z.of_N n.

(** [int(s)] for a [str]. *)
Definition int_of_str (s : pystr) : Result Z :=
  let '(neg, body) := split_sign (lstrip (map to_ascii s)) in
  if starts_with_underscore body then raise ValueError
  else match scan_digits body false 0%N 0%N with
       | None => raise ValueError
       | Some (v, count, rest) =>
           if (count =? 0)%N then raise ValueError
           else if (int_max_str_digits <? count)%N then raise ValueError
           else match lstrip rest with
                | [] => Ok (signed neg v)
                | _ :: _ => raise ValueError
                end
       end.

(** [int(f)] for a [float]: truncation toward zero. *)
Definition int_of_float (f : pyfloat) : Result Z :=
  match f with
  | FNaN => raise ValueError
  | FInf _ => raise OverflowError
  | FFinite neg m e =>
      Ok (if 0 <=? e then signed neg (m * 2 ^ Z.to_N e)%N
          else signed neg (m / 2 ^ Z.to_N (- e))%N)
  end.

(** The [int()] builtin on the values above. *)
Definition py_int (o : pyobj) : Result Z :=
  match o with
  | PNone => raise TypeError
  | PBool b => Ok (if b then 1 else 0)
  | PInt z => Ok z
  | PFloat f => int_of_float f
  | PStr s => int_of_str s
  | PList _ => raise TypeError
  | PDict _ => raise TypeError
  end.

(** [str(z)], as an f-string formats an [int]: refused beyond the digit
    limit. *)
Definition str_of_int (z : Z) : Result pystr :=
  let digits := N_digits (Z.abs_N z) in
  if (int_max_str_digits <? N.of_nat (length digits))%N then raise ValueError
  else Ok (if z <? 0 then 45%N :: digits else digits).

(** *** Decimal text to binary64 *)

(** The binary64 nearest to [P / Q] for positive [P] and [Q], ties to
    even: [Some (m, e)] for [m * 2^e], [None] on overflow. *)
Definition round_ratio (P Q : Z) : option (N * Z) :=
  let k := Z.log2 P - Z.log2 Q in
  let above := if 0 <=? k then Q * 2 ^ k <=? P else Q <=? P * 2 ^ (- k) in
  let b := if above then k else k - 1 in
  let e := Z.max (b - 52) (-1074) in
  let num := if 0 <=? e then P else P * 2 ^ (- e) in
  let den := if 0 <=? e then Q * 2 ^ e else Q in
  let q := num / den in
  let r := num mod den in
  let m := if 2 * r <? den then q
           else if den <? 2 * r then q + 1
           else if Z.even q then q else q + 1 in
  if (0 <=? e) && (2 ^ 1024 <=? m * 2 ^ e) then None
  else Some (Z.to_N m, e).

(** [float(text)] for the decimal [(-1)^neg * M * 10^E]. *)
Definition float_of_decimal (neg : bool) (M : N) (E : Z) : pyfloat :=
  if (M =? 0)%N then FFinite neg 0 0
  else
    let r := if 0 <=? E then round_ratio (Z.of_N M * 10 ^ E) 1
             else round_ratio (Z.of_N M) (10 ^ (- E)) in
    match r with
    | Some (m, e) => FFinite neg m e
    | None => FInf neg
    end.

End PyVal.
Export PyVal.

(** ** The [json] module: [json.loads]

    The decoder with its default settings: strict strings, the constants
    [NaN], [Infinity] and [-Infinity] accepted, duplicate keys resolved in
    favour of the last one. *)

Module Json.

Definition decode_error {A} : Result A := raise JSONDecodeError.

Definition is_ws (c : N) : bool :=
  ((c =? 32) || (c =? 9) || (c =? 10) || (c =? 13))%N.

Fixpoint skip_ws (s : pystr) : pystr :=
  match s with
  | c :: r => if is_ws c then skip_ws r else s
  | [] => []
  end.

(** [strip_prefix p s] is what follows [p] in [s], when [s] starts with [p]. *)
Fixpoint strip_prefix (p s : pystr) : option pystr :=
  match p, s with
  | [], _ => Some s
  | a :: p', b :: s' => if (a =? b)%N then strip_prefix p' s' else None
  | _ :: _, [] => None
  end.

Definition hex_value (c : N) : option N :=
  if ((48 <=? c) && (c <=? 57))%N then Some (c - 48)%N
  else if ((97 <=? c) && (c <=? 102))%N then Some (c - 87)%N
  else if ((65 <=? c) && (c <=? 70))%N then Some (c - 55)%N
  else None.

Definition hex4 (a b c d : N) : option N :=
  match hex_value a, hex_value b, hex_value c, hex_value d with
  | Some x, Some y, Some z, Some w => Some (((x * 16 + y) * 16 + z) * 16 + w)%N
  | _, _, _, _ => None
  end.

Definition is_high_surrogate (u : N) : bool := ((55296 <=? u) && (u <=? 56319))%N.
Definition is_low_surrogate (u : N) : bool := ((56320 <=? u) && (u <=? 57343))%N.
Definition join_surrogates (hi lo : N) : N :=
  (65536 + ((hi - 55296) * 1024 + (lo - 56320)))%N.

(** The character a one-letter escape stands for. *)
Definition simple_escape (e : N) : option N :=
  if (e =? 34)%N then Some 34%N
  else if (e =? 92)%N then Some 92%N
  else if (e =? 47)%N then Some 47%N
  else if (e =? 98)%N then Some 8%N
  else if (e =? 102)%N then Some 12%N
  else if (e =? 110)%N then Some 10%N
  else if (e =? 114)%N then Some 13%N
  else if (e =? 116)%N then Some 9%N
  else None.

Definition nonempty (s : pystr) : bool :=
  match s with [] => false | _ :: _ => true end.

(** [scanstring]: the body of a string literal, after its opening quote.
    [acc] holds the characters read so far, last first. *)
Fixpoint scanstring (s : pystr) (acc : pystr) : Result (pystr * pystr) :=
  match s with
  | [] => decode_error
  | c :: r =>
      if (c =? 34)%N then Ok (rev acc, r)
      else if (c =? 92)%N then
        match r with
        | [] => decode_error
        | e :: r1 =>
            if (e =? 117)%N then
              match r1 with
              | h1 :: h2 :: h3 :: h4 :: r2 =>
                  if negb (nonempty r2) then decode_error
                  else
                    match hex4 h1 h2 h3 h4 with
                    | None => decode_error
                    | Some u =>
                        match r2 with
                        | b :: v :: k1 :: k2 :: k3 :: k4 :: r3 =>
                            if is_high_surrogate u && nonempty r3
                               && (b =? 92)%N && (v =? 117)%N then
                              match hex4 k1 k2 k3 k4 with
                              | None => decode_error
                              | Some u2 =>
                                  if is_low_surrogate u2
                                  then scanstring r3 (join_surrogates u u2 :: acc)
                                  else scanstring r2 (u :: acc)
                              end
                            else scanstring r2 (u :: acc)
                        | _ => scanstring r2 (u :: acc)
                        end
                    end
              | _ => decode_error
              end
            else
              match simple_escape e with
              | Some x => scanstring r1 (x :: acc)
              | None => decode_error
              end
        end
      else if (c <=? 31)%N then decode_error
      else scanstring r (c :: acc)
  end.

(** *** Numbers *)

Fixpoint span_digits (s : pystr) : pystr * pystr :=
  match s with
  | c :: r => if is_digit c then let '(ds, rest) := span_digits r in (c :: ds, rest)
              else ([], s)
  | [] => ([], [])
  end.

Definition digits_value (ds : pystr) : N :=
  fold_left (fun acc c => (acc * 10 + (c - 48))%N) ds 0%N.

(** The optional fraction: a dot followed by at least one digit. *)
Definition match_frac (s : pystr) : option pystr * pystr :=
  match s with
  | dot :: d :: r =>
      if (dot =? 46)%N && is_digit d
      then let '(ds, rest) := span_digits (d :: r) in (Some ds, rest)
      else (None, s)
  | _ => (None, s)
  end.

(** The optional exponent: [e] or [E], an optional sign and at least one
    digit. *)
Definition match_exp (s : pystr) : option Z * pystr :=
  match s with
  | e :: r =>
      if ((e =? 101) || (e =? 69))%N then
        let '(neg, r1) := split_sign r in
        match span_digits r1 with
        | ([], _) => (None, s)
        | (ds, rest) => (Some (signed neg (digits_value ds)), rest)
        end
      else (None, s)
  | [] => (None, s)
  end.

(** The value of a matched number: an [int] when it has neither fraction
    nor exponent, a [float] otherwise. *)
Definition number_value (neg : bool) (int_part : pystr)
    (frac : option pystr) (exp : option Z) : Result pyobj :=
  match frac, exp with
  | None, None =>
      if (int_max_str_digits <? N.of_nat (length int_part))%N then raise ValueError
      else Ok (PInt (signed neg (digits_value int_part)))
  | _, _ =>
      let fs := match frac with Some ds => ds | None => [] end in
      let E := match exp with Some x => x | None => 0 end in
      Ok (PFloat (float_of_decimal neg (digits_value (int_part ++ fs))
                    (E - Z.of_nat (length fs))))
  end.

(** [None] when no number starts here. *)
Definition match_number (s : pystr) : option (Result pyobj * pystr) :=
  let '(neg, s1) := match s with
                    | c :: r => if (c =? 45)%N then (true, r) else (false, s)
                    | [] => (false, [])
                    end in
  let int_part :=
    match s1 with
    | c :: r =>
        if ((49 <=? c) && (c <=? 57))%N
        then let '(ds, rest) := span_digits r in Some (c :: ds, rest)
        else if (c =? 48)%N then Some ([c], r)
        else None
    | [] => None
    end in
  match int_part with
  | None => None
  | Some (ds, rest) =>
      let '(frac, rest1) := match_frac rest in
      let '(exp, rest2) := match_exp rest1 in
      Some (number_value neg ds frac exp, rest2)
  end.

(** A named constant or a number. *)
Definition scan_atom (s : pystr) : Result (pyobj * pystr) :=
  let keyword (w : string) (v : pyobj) (otherwise : Result (pyobj * pystr)) :=
    match strip_prefix (str w) s with
    | Some rest => Ok (v, rest)
    | None => otherwise
    end in
  let number :=
    match match_number s with
    | Some (Ok v, rest) => Ok (v, rest)
    | Some (Raise e, _) => Raise e
    | None => decode_error
    end in
  keyword "null" PNone
    (keyword "true" (PBool true)
       (keyword "false" (PBool false)
          (keyword "NaN" (PFloat FNaN)
             (keyword "Infinity" (PFloat (FInf false))
                (keyword "-Infinity" (PFloat (FInf true)) number))))).

(** *** Values, arrays and objects

    The three scanners call each other; [fuel] bounds the depth of the
    calls and [None] means it ran out (see [scan_once_fuel]).  They are the
    scanners of a text whose arrays and objects nest no deeper than the
    interpreter's recursion limit allows; [scan_once_within] below has the
    limit. *)

Fixpoint scan_once (fuel : nat) (s : pystr) {struct fuel}
  : option (Result (pyobj * pystr)) :=
  match fuel with
  | O => None
  | S n =>
      match s with
      | [] => Some decode_error
      | c :: r =>
          if (c =? 34)%N then
            Some (match scanstring r [] with
                  | Ok (t, rest) => Ok (PStr t, rest)
                  | Raise e => Raise e
                  end)
          else if (c =? 123)%N then
            match skip_ws r with
            | c1 :: r1 =>
                if (c1 =? 125)%N then Some (Ok (PDict [], r1))
                else parse_object n (c1 :: r1) []
            | [] => Some decode_error
            end
          else if (c =? 91)%N then
            match skip_ws r with
            | c1 :: r1 =>
                if (c1 =? 93)%N then Some (Ok (PList [], r1))
                else parse_array n (c1 :: r1) []
            | [] => Some decode_error
            end
          else Some (scan_atom s)
      end
  end

(** The items of an array, from the start of an item. *)
with parse_array (fuel : nat) (s : pystr) (acc : list pyobj) {struct fuel}
  : option (Result (pyobj * pystr)) :=
  match fuel with
  | O => None
  | S n =>
      match scan_once n s with
      | None => None
      | Some (Raise e) => Some (Raise e)
      | Some (Ok (v, rest)) =>
          match skip_ws rest with
          | c :: r =>
              if (c =? 93)%N then Some (Ok (PList (acc ++ [v]), r))
              else if (c =? 44)%N then parse_array n (skip_ws r) (acc ++ [v])
              else Some decode_error
          | [] => Some decode_error
          end
      end
  end

(** The members of an object, from the quote that opens a key. *)
with parse_object (fuel : nat) (s : pystr) (acc : dict) {struct fuel}
  : option (Result (pyobj * pystr)) :=
  match fuel with
  | O => None
  | S n =>
      match s with
      | q :: r =>
          if negb (q =? 34)%N then Some decode_error
          else
            match scanstring r [] with
            | Raise e => Some (Raise e)
            | Ok (key, rest) =>
                match skip_ws rest with
                | colon :: r1 =>
                    if negb (colon =? 58)%N then Some decode_error
                    else
                      match scan_once n (skip_ws r1) with
                      | None => None
                      | Some (Raise e) => Some (Raise e)
                      | Some (Ok (v, rest1)) =>
                          match skip_ws rest1 with
                          | c :: r2 =>
                              if (c =? 125)%N
                              then Some (Ok (PDict (dict_set acc key v), r2))
                              else if (c =? 44)%N
                              then parse_object n (skip_ws r2) (dict_set acc key v)
                              else Some decode_error
                          | [] => Some decode_error
                          end
                      end
                | [] => Some decode_error
                end
            end
      | [] => Some decode_error
      end
  end.

Definition BOM : N := 65279%N.

(** [json.loads(s)], for a text nested within the recursion limit. *)
Definition loads (s : pystr) : Result pyobj :=
  match s with
  | c :: _ => if (c =? BOM)%N then decode_error else
      match scan_once (2 * length s + 1) (skip_ws s) with
      | Some (Ok (v, rest)) =>
          match skip_ws rest with
          | [] => Ok v
          | _ :: _ => decode_error
          end
      | Some (Raise e) => Raise e
      | None => decode_error
      end
  | [] => decode_error
  end.

(** *** The recursion limit

    The scanner takes one level of the interpreter's recursion counter for
    every array and every object it opens, before it reads what is inside,
    and gives the level back when the array or object is closed; with no
    level left it raises [RecursionError].  How many levels are left when
    [json.loads] is called depends on the interpreter's limit and on the
    calls already on the stack, so the number is a parameter here:
    [room].  The scanners below count the arrays and objects only; the
    other calls that take a level come in with [loads_limited]. *)

Fixpoint scan_once_within (room fuel : nat) (s : pystr) {struct fuel}
  : option (Result (pyobj * pystr)) :=
  match fuel with
  | O => None
  | S n =>
      match s with
      | [] => Some decode_error
      | c :: r =>
          if (c =? 34)%N then
            Some (match scanstring r [] with
                  | Ok (t, rest) => Ok (PStr t, rest)
                  | Raise e => Raise e
                  end)
          else if (c =? 123)%N then
            match room with
            | O => Some (raise RecursionError)
            | S room' =>
                match skip_ws r with
                | c1 :: r1 =>
                    if (c1 =? 125)%N then Some (Ok (PDict [], r1))
                    else parse_object_within room' n (c1 :: r1) []
                | [] => Some decode_error
                end
            end
          else if (c =? 91)%N then
            match room with
            | O => Some (raise RecursionError)
            | S room' =>
                match skip_ws r with
                | c1 :: r1 =>
                    if (c1 =? 93)%N then Some (Ok (PList [], r1))
                    else parse_array_within room' n (c1 :: r1) []
                | [] => Some decode_error
                end
            end
          else Some (scan_atom s)
      end
  end

(** The items of an array that may hold [room] further levels. *)
with parse_array_within (room fuel : nat) (s : pystr) (acc : list pyobj)
    {struct fuel} : option (Result (pyobj * pystr)) :=
  match fuel with
  | O => None
  | S n =>
      match scan_once_within room n s with
      | None => None
      | Some (Raise e) => Some (Raise e)
      | Some (Ok (v, rest)) =>
          match skip_ws rest with
          | c :: r =>
              if (c =? 93)%N then Some (Ok (PList (acc ++ [v]), r))
              else if (c =? 44)%N
              then parse_array_within room n (skip_ws r) (acc ++ [v])
              else Some decode_error
          | [] => Some decode_error
          end
      end
  end

(** The members of an object that may hold [room] further levels. *)
with parse_object_within (room fuel : nat) (s : pystr) (acc : dict)
    {struct fuel} : option (Result (pyobj * pystr)) :=
  match fuel with
  | O => None
  | S n =>
      match s with
      | q :: r =>
          if negb (q =? 34)%N then Some decode_error
          else
            match scanstring r [] with
            | Raise e => Some (Raise e)
            | Ok (key, rest) =>
                match skip_ws rest with
                | colon :: r1 =>
                    if negb (colon =? 58)%N then Some decode_error
                    else
                      match scan_once_within room n (skip_ws r1) with
                      | None => None
                      | Some (Raise e) => Some (Raise e)
                      | Some (Ok (v, rest1)) =>
                          match skip_ws rest1 with
                          | c :: r2 =>
                              if (c =? 125)%N
                              then Some (Ok (PDict (dict_set acc key v), r2))
                              else if (c =? 44)%N
                              then parse_object_within room n (skip_ws r2)
                                     (dict_set acc key v)
                              else Some decode_error
                          | [] => Some decode_error
                          end
                      end
                | [] => Some decode_error
                end
            end
      | [] => Some decode_error
      end
  end.

(** The decoder when only arrays and objects take levels, with [room]
    levels left. *)
Definition loads_within (room : nat) (s : pystr) : Result pyobj :=
  match s with
  | c :: _ => if (c =? BOM)%N then decode_error else
      match scan_once_within room (2 * length s + 1) (skip_ws s) with
      | Some (Ok (v, rest)) =>
          match skip_ws rest with
          | [] => Ok v
          | _ :: _ => decode_error
          end
      | Some (Raise e) => Raise e
      | None => decode_error
      end
  | [] => decode_error
  end.

(** [json.loads(s)] called with [room] levels of recursion left.  The
    decoder makes calls of its own while it reads: it looks the constants
    [NaN], [Infinity] and [-Infinity] up through a Python object, and it
    builds the exception of a malformed text.  They take levels too, so
    that close to the limit a text runs out of levels where its arrays and
    objects alone would not; how close depends on the interpreter.
    [runs_out s] says that this happens for the text [s]. *)
Definition loads_limited (runs_out : pystr -> bool) (room : nat) (s : pystr)
  : Result pyobj :=
  if runs_out s then raise RecursionError else loads_within room s.

(** *** [json.dumps]

    The encoder with its default settings: ASCII output, [", "] and [": "]
    as separators.  [float_repr] is the interpreter's shortest round-trip
    rendering of a finite [float].  [dumps] is the encoder of a value whose
    lists and dictionaries nest no deeper than the recursion limit allows;
    [dumps_within] has the limit. *)

Definition hex_digit (n : N) : N :=
  if (n <? 10)%N then (48 + n)%N else (87 + n)%N.

Definition u_escape (c : N) : pystr :=
  [92; 117; hex_digit (c / 4096 mod 16); hex_digit (c / 256 mod 16);
   hex_digit (c / 16 mod 16); hex_digit (c mod 16)]%N.

Definition escape_char (c : N) : pystr :=
  if (c =? 34)%N then [92; 34]%N
  else if (c =? 92)%N then [92; 92]%N
  else if (c =? 10)%N then [92; 110]%N
  else if (c =? 13)%N then [92; 114]%N
  else if (c =? 9)%N then [92; 116]%N
  else if (c =? 8)%N then [92; 98]%N
  else if (c =? 12)%N then [92; 102]%N
  else if ((32 <=? c) && (c <=? 126))%N then [c]
  else if (65536 <=? c)%N then
    u_escape (55296 + (c - 65536) / 1024) ++ u_escape (56320 + (c - 65536) mod 1024)
  else u_escape c.

Definition encode_str (s : pystr) : pystr :=
  DQUOTE :: flat_map escape_char s ++ [DQUOTE].

Section Dumps.

Variable float_repr : pyfloat -> pystr.

Definition encode_float (f : pyfloat) : pystr :=
  match f with
  | FNaN => str "NaN"
  | FInf false => str "Infinity"
  | FInf true => str "-Infinity"
  | FFinite _ _ _ => float_repr f
  end.

Fixpoint dumps (o : pyobj) : Result pystr :=
  match o with
  | PNone => Ok (str "null")
  | PBool true => Ok (str "true")
  | PBool false => Ok (str "false")
  | PInt z => str_of_int z
  | PFloat f => Ok (encode_float f)
  | PStr s => Ok (encode_str s)
  | PList l =>
      let fix items (l : list pyobj) : Result pystr :=
        match l with
        | [] => Ok []
        | [x] => dumps x
        | x :: r => let* a := dumps x in let* b := items r in Ok (a ++ str ", " ++ b)
        end in
      let* body := items l in Ok (str "[" ++ body ++ str "]")
  | PDict d =>
      let fix members (d : list (pystr * pyobj)) : Result pystr :=
        match d with
        | [] => Ok []
        | [(k, v)] => let* a := dumps v in Ok (encode_str k ++ str ": " ++ a)
        | (k, v) :: r =>
            let* a := dumps v in let* b := members r in
            Ok (encode_str k ++ str ": " ++ a ++ str ", " ++ b)
        end in
      let* body := members d in Ok (str "{" ++ body ++ str "}")
  end.

(** [json.dumps(o)] called with [room] levels of recursion left: the
    encoder takes one level for every list and every dictionary, before it
    writes what is inside, and makes no other call on the way. *)
Fixpoint dumps_within (room : nat) (o : pyobj) {struct o} : Result pystr :=
  match o with
  | PNone => Ok (str "null")
  | PBool true => Ok (str "true")
  | PBool false => Ok (str "false")
  | PInt z => str_of_int z
  | PFloat f => Ok (encode_float f)
  | PStr s => Ok (encode_str s)
  | PList l =>
      match room with
      | O => raise RecursionError
      | S room' =>
          let fix items (l : list pyobj) : Result pystr :=
            match l with
            | [] => Ok []
            | [x] => dumps_within room' x
            | x :: r =>
                let* a := dumps_within room' x in
                let* b := items r in Ok (a ++ str ", " ++ b)
            end in
          let* body := items l in Ok (str "[" ++ body ++ str "]")
      end
  | PDict d =>
      match room with
      | O => raise RecursionError
      | S room' =>
          let fix members (d : list (pystr * pyobj)) : Result pystr :=
            match d with
            | [] => Ok []
            | [(k, v)] =>
                let* a := dumps_within room' v in Ok (encode_str k ++ str ": " ++ a)
            | (k, v) :: r =>
                let* a := dumps_within room' v in let* b := members r in
                Ok (encode_str k ++ str ": " ++ a ++ str ", " ++ b)
            end in
          let* body := members d in Ok (str "{" ++ body ++ str "}")
      end
  end.

End Dumps.

End Json.

(** ** The search tool adapter: [perform_web_search] *)

Module WebSearch.

Section Adapter.

(** [tavily.search(query=query, search_depth="basic")], the hosted search
    service: what it returns or raises for a query. *)
Variable tavily_search : pyobj -> Result pyobj.

(** [str(e)], the text of an exception. *)
Variable exc_str : exn -> pystr.

Variable float_repr : pyfloat -> pystr.

(** One [{"url": obj["url"], "content": obj["content"]}] of the
    comprehension. *)
Definition record_of (obj : pyobj) : Result pyobj :=
  let* url := py_getitem obj (str "url") in
  let* content := py_getitem obj (str "content") in
  Ok (PDict [(str "url", url); (str "content", content)]).

(** The body of the [try].  The two [print] calls write to the server log
    and are left out. *)
Definition search_body (query : pyobj) : Result pystr :=
  let* results := tavily_search query in
  let* hits := py_getitem results (str "results") in
  let* objs := py_iter hits in
  let* records := mapM record_of objs in
  Json.dumps float_repr (PList records).

Definition perform_web_search (query : pyobj) : Result pystr :=
  try_except (search_body query) [Exception]
    (fun e => Ok (str "Error performing search: " ++ exc_str e)).

(** Binding the keyword arguments of a call to the one parameter of
    [perform_web_search]: exactly the keyword [query], a [TypeError]
    otherwise. *)
Definition bind_query (kwargs : dict) : Result pyobj :=
  match kwargs with
  | [(k, v)] => if pystr_eqb k (str "query") then Ok v else raise TypeError
  | _ => raise TypeError
  end.

End Adapter.

End WebSearch.

(** ** The conversation session and the tool-call loop *)

Module Chat.

Record FunctionCall : Type := { fc_name : pystr; fc_args : dict }.

(** One fragment of a message. *)
Inductive Part : Type :=
| PartText (text : pystr)
| PartImage (data : list N)
| PartFunctionCall (fc : FunctionCall)
| PartFunctionResponse (name : pystr) (response : dict).

Record Content : Type := { role : pystr; parts : list Part }.

(** [part.function_call], [None] when the fragment holds no call (the
    empty message, which is false in a condition). *)
Definition function_call (p : Part) : option FunctionCall :=
  match p with
  | PartFunctionCall fc => Some fc
  | _ => None
  end.

(** [part.text], empty for a fragment that is not text. *)
Definition part_text (p : Part) : pystr :=
  match p with
  | PartText t => t
  | _ => []
  end.

(** What lies outside the process: how many requests the hosted model has
    answered and the queries the search service has been sent. *)
Record World : Type := { api_calls : nat; searches : list pyobj }.

Section Loop.

(** The hosted model: the fragments of its reply to the [n]-th request. *)
Variable gemini : nat -> list Part.

(** The search service: its answer to the [n]-th search. *)
Variable tavily_search : nat -> pyobj -> Result pyobj.

Variable exc_str : exn -> pystr.
Variable float_repr : pyfloat -> pystr.

(** [chat_session.send_message(content)]: the message sent and the reply
    join the history; the reply is returned. *)
Definition send_message (w : World) (history : list Content) (content : list Part)
  : World * list Content * Content :=
  let reply := {| role := str "model"; parts := gemini (api_calls w) |} in
  ({| api_calls := S (api_calls w); searches := searches w |},
   history ++ [{| role := str "user"; parts := content |}; reply],
   reply).

(** A registered tool, called with the keyword arguments of a tool call. *)
Definition Tool : Type := World -> dict -> World * Result pystr.

Definition perform_web_search : Tool := fun w kwargs =>
  match WebSearch.bind_query kwargs with
  | Raise e => (w, Raise e)
  | Ok query =>
      ({| api_calls := api_calls w; searches := searches w ++ [query] |},
       WebSearch.perform_web_search (tavily_search (length (searches w)))
         exc_str float_repr query)
  end.

Definition available_tools : gmap pystr Tool :=
  {[ str "perform_web_search" := perform_web_search ]}.

(** What the loop does with the latest reply. *)
Inductive Dispatch : Type :=
| NoCall                                  (* no first fragment, or not a call *)
| Unregistered                            (* a call of an unknown tool *)
| Invoke (tool : Tool) (fc : FunctionCall).

Definition dispatch (response : Content) : Dispatch :=
  match parts response with
  | [] => NoCall
  | p :: _ =>
      match function_call p with
      | None => NoCall
      | Some fc =>
          match available_tools !! fc_name fc with
          | Some tool => Invoke tool fc
          | None => Unregistered
          end
      end
  end.

(** The [while] loop of the conversation stage.  [fuel] bounds the number
    of iterations; [None] means the loop is still running after that
    many. *)
Fixpoint tool_loop (fuel : nat) (w : World) (history : list Content)
    (response : Content) : option (World * list Content * Result unit) :=
  match fuel with
  | O => None
  | S n =>
      match dispatch response with
      | NoCall => Some (w, history, Ok tt)
      | Unregistered => Some (w, history, Ok tt)
      | Invoke tool fc =>
          match tool w (fc_args fc) with
          | (w1, Raise e) => Some (w1, history, Raise e)
          | (w1, Ok tool_response) =>
              let '(w2, history2, response2) :=
                send_message w1 history
                  [PartFunctionResponse (fc_name fc)
                     [(str "content", PStr tool_response)]] in
              tool_loop n w2 history2 response2
          end
      end
  end.

(** A refinement typed by the user: the prompt is sent and the loop runs
    on the reply. *)
Definition converse (fuel : nat) (w : World) (history : list Content)
    (prompt : pystr) : option (World * list Content * Result unit) :=
  let '(w1, history1, response) := send_message w history [PartText prompt] in
  tool_loop fuel w1 history1 response.

End Loop.

End Chat.
Export Chat.

(** ** The result extractor *)

Module ResultExtractor.

Record Totals : Type :=
  { total_calories : Z; total_protein : Z; total_carbs : Z; total_fat : Z }.

(** One row of [display_data]. *)
Record Row : Type :=
  { Item : pyobj; Calories : pystr; Protein : pystr; Carbs : pystr; Fat : pystr }.

Definition NO_JSON : pystr :=
  str "No valid JSON object found in the AI's response.".

(** The text from the first opening brace to the last closing brace. *)
Definition locate_json (raw_text : pystr) : Result pystr :=
  let json_start := find (ch "{") raw_text in
  let json_end := rfind (ch "}") raw_text + 1 in
  if (json_start =? -1) || (json_end =? 0)
  then Raise (Exn ValueError (Some NO_JSON))
  else Ok (slice raw_text json_start json_end).

(** [data = json.loads(raw_text[json_start:json_end])]. *)
Definition extract_json (raw_text : pystr) : Result pyobj :=
  let* json_str := locate_json raw_text in
  Json.loads json_str.

(** [int(v)] guarded by [except (ValueError, TypeError)]. *)
Definition coerce (v : pyobj) : Result Z :=
  try_except (py_int v) [ValueError; TypeError] (fun _ => Ok 0).

(** One of the four guarded conversions of the loop body.  Looking the
    field up is inside the [try], yet its [AttributeError] is not among
    the classes caught. *)
Definition macro (item : pyobj) (key : string) : Result Z :=
  try_except (let* v := py_get item (str key) PNone in py_int v)
    [ValueError; TypeError] (fun _ => Ok 0).

Definition add_totals (t : Totals) (calories protein carbs fat : Z) : Totals :=
  {| total_calories := total_calories t + calories;
     total_protein := total_protein t + protein;
     total_carbs := total_carbs t + carbs;
     total_fat := total_fat t + fat |}.

(** The body of [for item in breakdown_list]. *)
Definition process_item (acc : Totals * list Row) (item : pyobj)
  : Result (Totals * list Row) :=
  let* calories := macro item "calories" in
  let* protein := macro item "protein_grams" in
  let* carbs := macro item "carbs_grams" in
  let* fat := macro item "fat_grams" in
  let* name := py_get item (str "item") (PStr (str "N/A")) in
  let* c := str_of_int calories in
  let* p := str_of_int protein in
  let* b := str_of_int carbs in
  let* f := str_of_int fat in
  Ok (add_totals (fst acc) calories protein carbs fat,
      snd acc ++ [{| Item := name; Calories := c ++ str " kcal";
                     Protein := p ++ str "g"; Carbs := b ++ str "g";
                     Fat := f ++ str "g" |}]).

Fixpoint for_items (items : list pyobj) (acc : Totals * list Row)
  : Result (Totals * list Row) :=
  match items with
  | [] => Ok acc
  | item :: rest => let* acc' := process_item acc item in for_items rest acc'
  end.

Definition zero_totals : Totals :=
  {| total_calories := 0; total_protein := 0; total_carbs := 0; total_fat := 0 |}.

(** The loop over the breakdown: the totals and the display rows. *)
Definition aggregate (breakdown_list : pyobj) : Result (Totals * list Row) :=
  let* items := py_iter breakdown_list in
  for_items items (zero_totals, []).

(** What the page shows. *)
Inductive Button : Type := AnalyzeFood | CalculateFinal | StartOver.

Inductive UI : Type :=
| Title
| InfoBox
| FileUploader
| ImageView
| ButtonView (b : Button)
| Subheader (text : string)
| ChatMessage (role : pystr) (text : pystr)
| ChatInput
| Success
| Warning
| Table (rows : list Row)
| Metric (label : string) (value : pystr)
| Error (e : exn)
| WriteText (text : string)
| Code (text : pystr).

(** The four [metric] calls, in order; formatting a total can raise, and
    the metrics before it are already on the page. *)
Fixpoint show_metrics (ms : list (string * Z * string)) : list UI * Result unit :=
  match ms with
  | [] => ([], Ok tt)
  | (label, v, unit) :: rest =>
      match str_of_int v with
      | Raise e => ([], Raise e)
      | Ok t =>
          let '(ui, r) := show_metrics rest in
          (Metric label (t ++ str unit) :: ui, r)
      end
  end.

Definition metrics_of (t : Totals) : list (string * Z * string) :=
  [("Total Calories", total_calories t, " kcal");
   ("Total Protein", total_protein t, "g");
   ("Total Carbs", total_carbs t, "g");
   ("Total Fat", total_fat t, "g")]%string.

(** [breakdown_list = data.get("breakdown", [])]. *)
Definition breakdown_of (raw_text : pystr) : Result pyobj :=
  let* data := extract_json raw_text in
  py_get data (str "breakdown") (PList []).

(** The totals and the rows the page is built from. *)
Definition extract (raw_text : pystr) : Result (Totals * list Row) :=
  let* breakdown_list := breakdown_of raw_text in
  aggregate breakdown_list.

(** The body of the outer [try]: what it puts on the page and how it
    ends. *)
Definition try_block (raw_text : pystr) : list UI * Result unit :=
  match breakdown_of raw_text with
  | Raise e => ([], Raise e)
  | Ok breakdown_list =>
      let warning := if truthy breakdown_list then [] else [Warning] in
      match aggregate breakdown_list with
      | Raise e => (warning, Raise e)
      | Ok (totals, display_data) =>
          let '(ms, r) := show_metrics (metrics_of totals) in
          (warning ++ [Table display_data; Subheader "Calculated Totals"] ++ ms, r)
      end
  end.

(** The results page up to the reset button: the page and the exception
    that escapes, if one does. *)
Definition render_results (raw_text : pystr) : list UI * option exn :=
  let '(ui, r) := try_block raw_text in
  match r with
  | Ok _ => (Success :: ui, None)
  | Raise e =>
      if caught_by [ValueError; JSONDecodeError] e
      then (Success :: ui ++
              [Error e; WriteText "Raw AI response for debugging:"; Code raw_text],
            None)
      else (Success :: ui, Some e)
  end.

(** *** The recursion limit

    The same code when the call of [json.loads] has [room] levels of
    recursion left and runs out of them on the texts of [runs_out]:
    [RecursionError] is not among the classes of the outer [except]. *)

Section Limit.

Variable runs_out : pystr -> bool.
Variable room : nat.

Definition extract_json_within (raw_text : pystr) : Result pyobj :=
  let* json_str := locate_json raw_text in
  Json.loads_limited runs_out room json_str.

Definition breakdown_of_within (raw_text : pystr) : Result pyobj :=
  let* data := extract_json_within raw_text in
  py_get data (str "breakdown") (PList []).

Definition try_block_within (raw_text : pystr) : list UI * Result unit :=
  match breakdown_of_within raw_text with
  | Raise e => ([], Raise e)
  | Ok breakdown_list =>
      let warning := if truthy breakdown_list then [] else [Warning] in
      match aggregate breakdown_list with
      | Raise e => (warning, Raise e)
      | Ok (totals, display_data) =>
          let '(ms, r) := show_metrics (metrics_of totals) in
          (warning ++ [Table display_data; Subheader "Calculated Totals"] ++ ms, r)
      end
  end.

Definition render_results_within (raw_text : pystr) : list UI * option exn :=
  let '(ui, r) := try_block_within raw_text in
  match r with
  | Ok _ => (Success :: ui, None)
  | Raise e =>
      if caught_by [ValueError; JSONDecodeError] e
      then (Success :: ui ++
              [Error e; WriteText "Raw AI response for debugging:"; Code raw_text],
            None)
      else (Success :: ui, Some e)
  end.

End Limit.

End ResultExtractor.
Export ResultExtractor.

(** ** The Streamlit script: [main] and the session state *)

Module App.

(** The values the script stores in [st.session_state]. *)
Inductive sval : Type :=
| SStr (s : pystr)
| SNone
| SBytes (data : list N)
| SMessages (history : list Content).

(** What the user did to trigger a run of the script; at most one widget
    fires per run. *)
Inductive Event : Type :=
| Idle
| FileUploaded (data : list N)
| AnalyzeClicked
| PromptSubmitted (prompt : pystr)
| CalculateClicked
| StartOverClicked.

(** How a run of the script ends: at its last line, at [st.rerun()], or
    with an exception nobody catches. *)
Inductive Control : Type :=
| Completed
| Rerun
| Crashed (e : exn).

Record State : Type :=
  { session : gmap string sval; world : World; screen : list UI }.

Definition emit (ui : list UI) (st : State) : State :=
  {| session := session st; world := world st; screen := screen st ++ ui |}.

Definition assign (key : string) (v : sval) (st : State) : State :=
  {| session := <[key := v]> (session st); world := world st;
     screen := screen st |}.

Definition with_world (w : World) (st : State) : State :=
  {| session := session st; world := w; screen := screen st |}.

(** [if key not in st.session_state: st.session_state[key] = v]. *)
Definition setdefault (key : string) (v : sval) (s : gmap string sval)
  : gmap string sval :=
  match s !! key with
  | Some _ => s
  | None => <[key := v]> s
  end.

Definition init_session (s : gmap string sval) : gmap string sval :=
  setdefault "messages" (SMessages [])
    (setdefault "uploaded_image_data" SNone
       (setdefault "analysis_stage" (SStr (str "upload")) s)).

(** [for key in list(st.session_state.keys()): del st.session_state[key]]. *)
Definition delete_all_keys (s : gmap string sval) : gmap string sval :=
  foldl (fun m key => delete key m) s (map fst (map_to_list s)).

Definition stage_is (st : State) (name : string) : bool :=
  match session st !! "analysis_stage" with
  | Some (SStr stage) => pystr_eqb stage (str name)
  | _ => false
  end.

Section Script.

Variable gemini : nat -> list Part.
Variable tavily_search : nat -> pyobj -> Result pyobj.
Variable exc_str : exn -> pystr.
Variable float_repr : pyfloat -> pystr.

(** Whether [Image.open] accepts the uploaded bytes. *)
Variable image_opens : list N -> bool.

(** [response.text], the quick accessor of the model library. *)
Variable response_text : Content -> Result pystr.

(** [text.strip().lower().startswith("// system")]. *)
Variable is_system_text : pystr -> bool.

(** The two fixed prompts of the script. *)
Variable analysis_prompt : pystr.
Variable final_prompt : pystr.

Definition upload_stage (ev : Event) (st : State) : State * Control :=
  if stage_is st "upload" then
    let st1 := emit [InfoBox; FileUploader] st in
    match ev with
    | FileUploaded data =>
        (assign "analysis_stage" (SStr (str "analyzing"))
           (assign "uploaded_image_data" (SBytes data) st1), Rerun)
    | _ => (st1, Completed)
    end
  else (st, Completed).

Definition analyzing_stage (ev : Event) (st : State) : State * Control :=
  if stage_is st "analyzing" then
    let st1 := emit [ImageView; ButtonView AnalyzeFood] st in
    match ev with
    | AnalyzeClicked =>
        match session st1 !! "uploaded_image_data" with
        | Some (SBytes data) =>
            if image_opens data then
              let '(w, history, _) :=
                send_message gemini (world st1) []
                  [PartText analysis_prompt; PartImage data] in
              (assign "analysis_stage" (SStr (str "conversation"))
                 (assign "messages" (SMessages history) (with_world w st1)),
               Rerun)
            else (st1, Crashed (Exn Exception None))
        | _ => (st1, Crashed (Exn Exception None))
        end
    | _ => (st1, Completed)
    end
  else (st, Completed).

(** The loop that shows the history; [message.parts[0]] is an
    [IndexError] on a message without fragments. *)
Fixpoint render_history (history : list Content) : list UI * Result unit :=
  match history with
  | [] => ([], Ok tt)
  | message :: rest =>
      match parts message with
      | [] => ([], raise IndexError)
      | p :: _ =>
          let shown :=
            if is_system_text (part_text p) then []
            else if pystr_eqb (role message) (str "user")
                    || pystr_eqb (role message) (str "model")
            then [ChatMessage (role message) (part_text p)]
            else [] in
          let '(ui, r) := render_history rest in
          (shown ++ ui, r)
      end
  end.

Definition conversation_stage (fuel : nat) (ev : Event) (st : State)
  : option (State * Control) :=
  if stage_is st "conversation" then
    let st1 := emit [Subheader "Refine Details with the AI"] st in
    match session st1 !! "messages" with
    | Some (SMessages history) =>
        let '(ui, r) := render_history history in
        let st2 := emit ui st1 in
        match r with
        | Raise e => Some (st2, Crashed e)
        | Ok _ =>
            let st3 := emit [ChatInput] st2 in
            match ev with
            | PromptSubmitted (c :: prompt) =>
                let st4 := emit [ChatMessage (str "user") (c :: prompt)] st3 in
                match converse gemini tavily_search exc_str float_repr fuel
                        (world st4) history (c :: prompt) with
                | None => None
                | Some (w, _, Raise e) => Some (with_world w st4, Crashed e)
                | Some (w, history', Ok _) =>
                    Some (assign "messages" (SMessages history')
                            (with_world w st4), Rerun)
                end
            | CalculateClicked =>
                let st4 := emit [ButtonView CalculateFinal] st3 in
                let '(w, _, response) :=
                  send_message gemini (world st4) history [PartText final_prompt] in
                match response_text response with
                | Raise e => Some (with_world w st4, Crashed e)
                | Ok text =>
                    Some (assign "analysis_stage" (SStr (str "results"))
                            (assign "final_analysis" (SStr text)
                               (with_world w st4)), Rerun)
                end
            | _ => Some (emit [ButtonView CalculateFinal] st3, Completed)
            end
        end
    | _ => Some (st1, Crashed (Exn TypeError None))
    end
  else Some (st, Completed).

Definition results_stage (ev : Event) (st : State) : State * Control :=
  if stage_is st "results" then
    match session st !! "final_analysis" with
    | Some (SStr _) | None =>
        let raw_text := match session st !! "final_analysis" with
                        | Some (SStr t) => t
                        | _ => []
                        end in
        let '(ui, escaped) := render_results raw_text in
        match escaped with
        | Some e => (emit ui st, Crashed e)
        | None =>
            let st1 := emit (ui ++ [ButtonView StartOver]) st in
            match ev with
            | StartOverClicked =>
                ({| session := delete_all_keys (session st1);
                    world := world st1; screen := screen st1 |}, Rerun)
            | _ => (st1, Completed)
            end
        end
    | Some _ => (emit [Success] st, Crashed (Exn AttributeError None))
    end
  else (st, Completed).

(** One run of the script on the session state [s].  The stages are
    sequential [if] statements; a run that does not end at a [st.rerun()]
    or at an exception falls through to the next one. *)
Definition main (fuel : nat) (ev : Event) (s : gmap string sval) (w : World)
  : option (State * Control) :=
  let st0 := {| session := init_session s; world := w; screen := [Title] |} in
  match upload_stage ev st0 with
  | (st1, Completed) =>
      match analyzing_stage ev st1 with
      | (st2, Completed) =>
          match conversation_stage fuel ev st2 with
          | Some (st3, Completed) => Some (results_stage ev st3)
          | other => other
          end
      | other => Some other
      end
  | other => Some other
  end.

(** A user action and the rerun it may trigger. *)
Definition run (fuel : nat) (ev : Event) (s : gmap string sval) (w : World)
  : option (State * Control) :=
  match main fuel ev s w with
  | Some (st, Rerun) => main fuel Idle (session st) (world st)
  | other => other
  end.

End Script.

End App.
Export App.

(** ** Vocabulary of the statements

    The notions the properties below are phrased in; none of them is used
    by the program above. *)

Module Spec.

(** *** Macro fields *)

Definition macro_keys : list string :=
  ["calories"; "protein_grams"; "carbs_grams"; "fat_grams"]%string.

(** The characters a decimal literal of [int()] is made of. *)
Definition literal_char (c : N) : bool :=
  is_space c || is_digit c || (c =? 43)%N || (c =? 45)%N || (c =? 95)%N.

(** The text holds an ASCII character foreign to integer literals: a
    letter, a dot, ... *)
Definition has_foreign_char (s : pystr) : bool :=
  existsb (fun c => (c <? 127)%N && negb (literal_char c)) s.

(** A field that is missing, [null], an array, an object, a NaN, or a
    text with a character foreign to integer literals. *)
Definition defaulted (v : option pyobj) : bool :=
  match v with
  | None => true
  | Some PNone => true
  | Some (PList _) => true
  | Some (PDict _) => true
  | Some (PFloat FNaN) => true
  | Some (PStr s) => has_foreign_char s
  | Some _ => false
  end.

(** The reading of "missing, non-numeric or of the wrong type" kindest to
    the program: anything but a JSON number or a text that could be an
    integer literal. *)
Definition not_numeric (v : option pyobj) : bool :=
  match v with
  | None => true
  | Some (PInt _) => false
  | Some (PFloat _) => false
  | Some (PStr s) => has_foreign_char s
  | Some _ => true
  end.

(** An integer an f-string can format: at most 4300 digits. *)
Definition printable (z : Z) : bool :=
  (N.of_nat (length (N_digits (Z.abs_N z))) <=? int_max_str_digits)%N.

(** A field that holds a JSON integer. *)
Definition plain (v : option pyobj) : bool :=
  match v with
  | Some (PInt z) => printable z
  | _ => false
  end.

Definition field_value (v : option pyobj) : Z :=
  match v with
  | Some (PInt z) => z
  | _ => 0
  end.

(** [f"{z}{unit}"]. *)
Definition fmt (z : Z) (unit : string) : pystr :=
  (if z <? 0 then 45%N :: N_digits (Z.abs_N z) else N_digits (Z.abs_N z))
  ++ str unit.

(** The row the page shows for an item whose fields are all [defaulted]
    or [plain]. *)
Definition row_of (d : dict) : Row :=
  let value key := field_value (dict_get d (str key)) in
  {| Item := match dict_get d (str "item") with
             | Some name => name
             | None => PStr (str "N/A")
             end;
     Calories := fmt (value "calories") " kcal";
     Protein := fmt (value "protein_grams") "g";
     Carbs := fmt (value "carbs_grams") "g";
     Fat := fmt (value "fat_grams") "g" |}.

(** A value [int()] turns into a negative integer only if it is one of
    these: a negative number, or a text with a minus sign. *)
Definition negative_source (v : pyobj) : bool :=
  match v with
  | PInt z => z <? 0
  | PFloat (FFinite neg _ _) => neg
  | PStr s => existsb (N.eqb 45) s
  | _ => false
  end.

Definition field_negative (item : pyobj) (key : string) : bool :=
  match item with
  | PDict d => match dict_get d (str key) with
               | Some v => negative_source v
               | None => false
               end
  | _ => false
  end.

(** *** Integer literals *)

Definition all_digits (ds : pystr) : bool :=
  match ds with
  | [] => false
  | _ :: _ => forallb is_digit ds
  end.




(** *** Search results *)

(** The [{url, content}] record of a search hit, when the hit is an object
    with both keys. *)
Definition url_content (hit : pyobj) : option pyobj :=
  match hit with
  | PDict d =>
      match dict_get d (str "url"), dict_get d (str "content") with
      | Some url, Some content =>
          Some (PDict [(str "url", url); (str "content", content)])
      | _, _ => None
      end
  | _ => None
  end.

Fixpoint url_content_records (hits : list pyobj) : option (list pyobj) :=
  match hits with
  | [] => Some []
  | hit :: rest =>
      match url_content hit, url_content_records rest with
      | Some r, Some rs => Some (r :: rs)
      | _, _ => None
      end
  end.

(** *** Turns of the tool-call loop *)

(** The reply keeps the loop going: its first fragment calls
    [perform_web_search] with arguments the function accepts. *)
Definition keeps_going (reply : list Part) : bool :=
  match reply with
  | p :: _ =>
      match function_call p with
      | Some fc =>
          pystr_eqb (fc_name fc) (str "perform_web_search")
          && match WebSearch.bind_query (fc_args fc) with
             | Ok _ => true
             | Raise _ => false
             end
      | None => false
      end
  | [] => false
  end.

(** The reply holds a tool call somewhere. *)
Definition has_tool_call (reply : list Part) : bool :=
  existsb (fun p => match function_call p with Some _ => true | None => false end)
    reply.

(** A message that opens with a tool call, and one that opens with a tool
    result. *)
Definition is_call (m : Content) : bool :=
  match parts m with
  | p :: _ => match function_call p with Some _ => true | None => false end
  | [] => false
  end.

Definition is_response (m : Content) : bool :=
  match parts m with
  | PartFunctionResponse _ _ :: _ => true
  | _ => false
  end.

(** The number of tool-call messages directly followed by a tool-result
    message; [prev_call] tells whether the message before the list is a
    call. *)
Fixpoint pairs_from (prev_call : bool) (h : list Content) : nat :=
  match h with
  | [] => 0
  | m :: rest =>
      (if prev_call && is_response m then 1 else 0)%nat
      + pairs_from (is_call m) rest
  end.

Definition tool_pairs (h : list Content) : nat := pairs_from false h.

(** *** The results page *)

(** The page a run of the script shows in the results stage, and how the
    run ends, for the stored answer [raw_text]. *)
Definition results_page (raw_text : pystr) : list UI * Control :=
  let '(ui, escaped) := render_results raw_text in
  match escaped with
  | Some e => (Title :: ui, Crashed e)
  | None => (Title :: ui ++ [ButtonView StartOver], Completed)
  end.

(** The session a first run of the script starts from. *)
Definition fresh_session : gmap string sval := init_session ∅.

(** *** Decoder failures *)

(** An exception of the decoder: a [JSONDecodeError], or the [ValueError]
    of an integer beyond the digit limit. *)
Definition decode_failure (e : exn) : Prop :=
  e = Exn JSONDecodeError None \/ e = Exn ValueError None.

(** The scenario of the specification: an object between two lines of
    prose. *)
Definition apple_text : pystr :=
  str "Here you go:" ++ [LF] ++
  str "{" ++ quoted "breakdown" ++ str ":[{" ++
  quoted "item" ++ str ":" ++ quoted "Apple" ++ str "," ++
  quoted "calories" ++ str ":95," ++
  quoted "protein_grams" ++ str ":" ++ quoted "a lot" ++ str "," ++
  quoted "carbs_grams" ++ str ":25," ++
  quoted "fat_grams" ++ str ":0}]}" ++ [LF] ++
  str "Enjoy!".

End Spec.
Export Spec.

(** ** A sample session

    Concrete stand-ins for the hosted services, used to run the script on
    examples. *)

Module Demo.

Definition whopper_call : Part :=
  PartFunctionCall
    {| fc_name := str "perform_web_search";
       fc_args := [(str "query", PStr (str "Whopper calories"))] |}.

Definition weather_call : Part :=
  PartFunctionCall {| fc_name := str "get_weather"; fc_args := [] |}.

(** A model that looks at the photo, searches once when told the brand,
    comments on what it found and then gives the final answer. *)
Definition gemini (n : nat) : list Part :=
  match n with
  | 0%nat => [PartText (str "This looks like a burger with fries.")]
  | 1%nat => [whopper_call]
  | 2%nat => [PartText (str "Thanks, that helps.")]
  | _ => [PartText apple_text]
  end.

(** A model that asks for a tool nobody registered, forever. *)
Definition stubborn (n : nat) : list Part := [weather_call].

Definition tavily_search (n : nat) (query : pyobj) : Result pyobj :=
  match query with
  | PStr _ =>
      Ok (PDict [(str "query", query);
                 (str "results",
                  PList [PDict [(str "title", PStr (str "Whopper"));
                                (str "url", PStr (str "https://bk.example/whopper"));
                                (str "content", PStr (str "660 kcal"));
                                (str "score", PInt 1)]])])
  | _ => Raise (Exn Exception None)
  end.

Definition exc_str (e : exn) : pystr := str "bad request".
Definition float_repr (f : pyfloat) : pystr := str "0.0".
Definition image_opens (data : list N) : bool := true.

Definition response_text (response : Content) : Result pystr :=
  match parts response with
  | [PartText t] => Ok t
  | _ => raise ValueError
  end.

Definition analysis_prompt : pystr := str "// SYSTEM CONSTITUTION: Nutri-AI v3.5".
Definition final_prompt : pystr := str "Now, provide the final JSON response.".

Definition is_system_text (t : pystr) : bool :=
  match Json.strip_prefix (str "// SYSTEM") t with
  | Some _ => true
  | None => false
  end.

Definition world0 : World := {| api_calls := 0; searches := [] |}.

Definition act (ev : Event) (sw : gmap string sval * World)
  : gmap string sval * World :=
  match run gemini tavily_search exc_str float_repr image_opens response_text
          is_system_text analysis_prompt final_prompt 8 ev (fst sw) (snd sw) with
  | Some (st, _) => (session st, world st)
  | None => sw
  end.

(** Upload, analyze, one refinement, final estimate. *)
Definition to_results : list Event :=
  [FileUploaded [255; 216; 255]%N; AnalyzeClicked;
   PromptSubmitted (str "It is a Whopper"); CalculateClicked].

Definition at_results : gmap string sval * World :=
  foldl (fun sw ev => act ev sw) (∅, world0) to_results.

End Demo.

(** ** Further vocabulary

    Notions the later properties are phrased in: shapes of the decoded
    answer, what the table shows for an item, the stages of the script and
    a few more stand-ins for the hosted model. *)

Module Terms.

(** *** The decoded answer *)

Definition is_object (v : pyobj) : bool :=
  match v with PDict _ => true | _ => false end.

(** The macro field [key] of [item] holds an infinite number. *)
Definition infinite_field (item : pyobj) (key : string) : bool :=
  match item with
  | PDict d => match dict_get d (str key) with
               | Some (PFloat (FInf _)) => true
               | _ => false
               end
  | _ => false
  end.

(** What [data.get("breakdown", [])] gives for the object [d]. *)
Definition breakdown_value (d : dict) : pyobj :=
  match dict_get d (str "breakdown") with
  | Some v => v
  | None => PList []
  end.

(** A breakdown that is missing or an empty array, object or text. *)
Definition empty_breakdown (v : option pyobj) : bool :=
  match v with
  | None | Some (PList []) | Some (PDict []) | Some (PStr []) => true
  | _ => false
  end.

(** A value a [for] loop cannot iterate over. *)
Definition scalar_value (v : pyobj) : bool :=
  match v with
  | PNone | PBool _ | PInt _ | PFloat _ => true
  | _ => false
  end.

(** *** What the table shows *)

(** The integer the script derives from the field [key] of [item]. *)
Definition coerced (item : pyobj) (key : string) : Z :=
  match macro item key with
  | Ok z => z
  | Raise _ => 0
  end.

Definition column_total (key : string) (items : list pyobj) : Z :=
  fold_right (fun item s => coerced item key + s) 0 items.

Definition shown_row (item : pyobj) : Row :=
  {| Item := match py_get item (str "item") (PStr (str "N/A")) with
             | Ok name => name
             | Raise _ => PNone
             end;
     Calories := fmt (coerced item "calories") " kcal";
     Protein := fmt (coerced item "protein_grams") "g";
     Carbs := fmt (coerced item "carbs_grams") "g";
     Fat := fmt (coerced item "fat_grams") "g" |}.

(** *** Stages *)

Inductive Stage : Type := Upload | Analyzing | Conversation | Results.

Definition stage_name (g : Stage) : string :=
  match g with
  | Upload => "upload"
  | Analyzing => "analyzing"
  | Conversation => "conversation"
  | Results => "results"
  end.

(** The stage a run of the script finds in the session [s], once the
    defaults are in place. *)
Definition at_stage (s : gmap string sval) (g : Stage) : Prop :=
  init_session s !! "analysis_stage" = Some (SStr (str (stage_name g))).

Definition next_stage (g : Stage) : option Stage :=
  match g with
  | Upload => Some Analyzing
  | Analyzing => Some Conversation
  | Conversation => Some Results
  | Results => None
  end.

(** The one event that moves each stage forward. *)
Definition advances (g : Stage) (ev : Event) : bool :=
  match g, ev with
  | Upload, FileUploaded _ => true
  | Analyzing, AnalyzeClicked => true
  | Conversation, CalculateClicked => true
  | _, _ => false
  end.

(** The state a run of the script starts from. *)
Definition start (s : gmap string sval) (w : World) : State :=
  {| session := init_session s; world := w; screen := [Title] |}.

(** The world after one more request to the model. *)
Definition advanced (w : World) : World :=
  {| api_calls := S (api_calls w); searches := searches w |}.

(** *** More sample data *)

(** A model whose replies hold no fragment at all. *)
Definition silent (n : nat) : list Part := [].

(** A call of the registered tool without its argument, and a model that
    answers with it. *)
Definition bare_call : Part :=
  PartFunctionCall {| fc_name := str "perform_web_search"; fc_args := [] |}.

Definition careless (n : nat) : list Part := [bare_call].

(** A session in the conversation stage with the history [h]. *)
Definition chatting (h : list Content) : gmap string sval :=
  {[ "analysis_stage" := SStr (str "conversation");
     "uploaded_image_data" := SBytes [255; 216; 255]%N;
     "messages" := SMessages h ]}.


(** [{"breakdown": <value>}] as the model would write it. *)
Definition breakdown_text (value : string) : pystr :=
  str "{" ++ quoted "breakdown" ++ str ": " ++ str value ++ str "}".

(** *** JSON texts *)

(** A code point that is a Unicode scalar value: not a surrogate. *)
Definition scalar_char (c : N) : bool :=
  ((c <? 55296) || ((57343 <? c) && (c <? 1114112)))%N.

(** A value [json.dumps] writes without the help of [float_repr] and
    [json.loads] reads back: no finite float, no surrogate in a text, no
    key twice in an object. *)
Fixpoint clean (v : pyobj) : bool :=
  match v with
  | PNone | PBool _ | PInt _ => true
  | PFloat (FFinite _ _ _) => false
  | PFloat _ => true
  | PStr s => forallb scalar_char s
  | PList l => forallb clean l
  | PDict d =>
      forallb (fun kv => forallb scalar_char (fst kv) && clean (snd kv)) d
      && bool_decide (NoDup (map fst d))
  end.

(** The two inner loops of [json.dumps], by name. *)
Definition dumps_items (float_repr : pyfloat -> pystr)
  : list pyobj -> Result pystr :=
  fix items (l : list pyobj) : Result pystr :=
    match l with
    | [] => Ok []
    | [x] => Json.dumps float_repr x
    | x :: r =>
        let* a := Json.dumps float_repr x in
        let* b := items r in Ok (a ++ str ", " ++ b)
    end.

Definition dumps_members (float_repr : pyfloat -> pystr)
  : list (pystr * pyobj) -> Result pystr :=
  fix members (d : list (pystr * pyobj)) : Result pystr :=
    match d with
    | [] => Ok []
    | [(k, v)] =>
        let* a := Json.dumps float_repr v in
        Ok (Json.encode_str k ++ str ": " ++ a)
    | (k, v) :: r =>
        let* a := Json.dumps float_repr v in
        let* b := members r in
        Ok (Json.encode_str k ++ str ": " ++ a ++ str ", " ++ b)
    end.

(** The characters a JSON text written by [json.dumps] can start with. *)
Definition value_start (c : N) : bool :=
  ((c =? 34) || (c =? 45) || is_digit c || (c =? 110) || (c =? 116)
   || (c =? 102) || (c =? 78) || (c =? 73) || (c =? 91) || (c =? 123))%N.

(** What can follow a value inside a text written by [json.dumps]:
    nothing, a comma or a closing bracket. *)
Definition terminator (rest : pystr) : bool :=
  match rest with
  | [] => true
  | c :: _ => ((c =? 44) || (c =? 93) || (c =? 125))%N
  end.

(** *** Nesting *)

(** The exception of an exhausted recursion limit. *)
Definition recursion_error : exn := Exn RecursionError None.

(** How deep the lists and dictionaries of a value nest: the levels
    [json.dumps] takes to write it, and the arrays and objects
    [json.loads] opens inside one another to read it back. *)
Fixpoint depth (v : pyobj) : nat :=
  match v with
  | PList l => S (list_max (map depth l))
  | PDict d => S (list_max (map (fun kv => depth (snd kv)) d))
  | _ => 0
  end.

(** The two inner loops of [json.dumps] under the limit, by name. *)
Definition dumps_items_within (float_repr : pyfloat -> pystr) (room : nat)
  : list pyobj -> Result pystr :=
  fix items (l : list pyobj) : Result pystr :=
    match l with
    | [] => Ok []
    | [x] => Json.dumps_within float_repr room x
    | x :: r =>
        let* a := Json.dumps_within float_repr room x in
        let* b := items r in Ok (a ++ str ", " ++ b)
    end.

Definition dumps_members_within (float_repr : pyfloat -> pystr) (room : nat)
  : list (pystr * pyobj) -> Result pystr :=
  fix members (d : list (pystr * pyobj)) : Result pystr :=
    match d with
    | [] => Ok []
    | [(k, v)] =>
        let* a := Json.dumps_within float_repr room v in
        Ok (Json.encode_str k ++ str ": " ++ a)
    | (k, v) :: r =>
        let* a := Json.dumps_within float_repr room v in
        let* b := members r in
        Ok (Json.encode_str k ++ str ": " ++ a ++ str ", " ++ b)
    end.

(** An interpreter in which the arrays and objects are all that takes
    levels. *)
Definition only_nesting (s : pystr) : bool := false.



(** [z] is the quotient of [(-1)^neg * m * 2^e] truncated toward zero. *)
Definition is_trunc (neg : bool) (m : N) (e z : Z) : Prop :=
  (if neg then z <= 0 else 0 <= z) /\
  (0 <= e -> Z.abs z = Z.of_N m * 2 ^ e) /\
  (e < 0 -> Z.abs z * 2 ^ (- e) <= Z.of_N m < (Z.abs z + 1) * 2 ^ (- e)).

End Terms.
Export Terms.

(** * Properties

    The program ends here; what follows are lemmas about it. *)

(** ** Facts about [find], [rfind] and slices *)

Lemma find_nonneg_or c s : find c s = -1 \/ 0 <= find c s.
Proof.
  induction s as [|x r IH]; simpl; [now left|].
  destruct (N.eqb x c); [right; lia|].
  destruct (find c r <? 0) eqn:E; [now left|right; lia].
Qed.


Lemma find_first c pre rest :
  ~ In c pre -> find c (pre ++ c :: rest) = Z.of_nat (length pre).
Proof.
  induction pre as [|x r IH]; simpl; intros H.
  - now rewrite N.eqb_refl.
  - destruct (N.eqb_spec x c) as [->|_]; [tauto|].
    rewrite IH by tauto.
    destruct (Z.ltb_spec (Z.of_nat (length r)) 0); lia.
Qed.

Lemma rfind_absent c s : ~ In c s -> rfind c s = -1.
Proof.
  induction s as [|x r IH]; simpl; intros H; [reflexivity|].
  rewrite IH by tauto. simpl.
  destruct (N.eqb_spec x c) as [->|_]; [tauto|reflexivity].
Qed.

Lemma rfind_last c pre post :
  ~ In c post -> rfind c (pre ++ c :: post) = Z.of_nat (length pre).
Proof.
  intros H. induction pre as [|x r IH]; simpl.
  - rewrite rfind_absent by assumption. simpl. now rewrite N.eqb_refl.
  - rewrite IH. destruct (Z.leb_spec 0 (Z.of_nat (length r))); lia.
Qed.

Lemma slice_middle (pre mid post : pystr) :
  slice (pre ++ mid ++ post) (Z.of_nat (length pre))
        (Z.of_nat (length pre + length mid)) = mid.
Proof.
  unfold slice, clamp_index. rewrite !length_app.
  destruct (Z.ltb_spec (Z.of_nat (length pre)) 0); [lia|].
  destruct (Z.ltb_spec (Z.of_nat (length pre + length mid)) 0); [lia|].
  rewrite !Z.min_l by lia.
  replace (Z.to_nat (Z.of_nat (length pre + length mid) - Z.of_nat (length pre)))
    with (length mid) by lia.
  rewrite Nat2Z.id, drop_app_length, take_app_length. reflexivity.
Qed.

(** ** Facts about the decoder *)

Module JsonFacts.
Import Json.

Lemma skip_ws_length s : (length (skip_ws s) <= length s)%nat.
Proof.
  induction s as [|c r IH]; simpl; [lia|].
  destruct (is_ws c); simpl; lia.
Qed.

Lemma scanstring_spec n :
  forall s acc,
    (length s <= n)%nat ->
    match scanstring s acc with
    | Ok (_, rest) => (length rest < length s)%nat
    | Raise e => decode_failure e
    end.
Proof.
  induction n as [|n IH]; intros s acc Hn.
  - destruct s; [|simpl in Hn; lia]. simpl. now left.
  - destruct s as [|c r]; [simpl; now left|].
    simpl in Hn.
    assert (Hrec : forall s' acc', (length s' < length (c :: r))%nat ->
              match scanstring s' acc' with
              | Ok (_, rest) => (length rest < length (c :: r))%nat
              | Raise e => decode_failure e
              end).
    { intros s' acc' Hlt. simpl in Hlt.
      specialize (IH s' acc' ltac:(lia)).
      destruct (scanstring s' acc') as [[? ?]|]; [simpl; lia|assumption]. }
    cbn [scanstring].
    repeat first
      [ lazymatch goal with
        | |- context [scanstring ?s' ?a] =>
            lazymatch goal with
            | |- match scanstring s' a with _ => _ end => apply Hrec; simpl; lia
            end
        end
      | progress (unfold decode_error, raise)
      | lazymatch goal with
        | |- match (if ?b then _ else _) with _ => _ end => destruct b eqn:?
        | |- match (match ?x with _ => _ end) with _ => _ end => destruct x eqn:?
        end
      | now left
      | simpl; lia ].
Qed.

Lemma scanstring_length s acc t rest :
  scanstring s acc = Ok (t, rest) -> (length rest < length s)%nat.
Proof.
  intros H. pose proof (scanstring_spec (length s) s acc (le_n _)) as P.
  now rewrite H in P.
Qed.

Lemma scanstring_raises s acc e :
  scanstring s acc = Raise e -> decode_failure e.
Proof.
  intros H. pose proof (scanstring_spec (length s) s acc (le_n _)) as P.
  now rewrite H in P.
Qed.

Lemma strip_prefix_length p : forall s rest,
  strip_prefix p s = Some rest -> length s = (length p + length rest)%nat.
Proof.
  induction p as [|a p IH]; intros s rest; simpl.
  - intros [= ->]. reflexivity.
  - destruct s as [|b s]; [discriminate|].
    destruct (a =? b)%N; [|discriminate].
    intros H. apply IH in H. simpl. lia.
Qed.

Lemma span_digits_length s : forall ds rest,
  span_digits s = (ds, rest) -> length s = (length ds + length rest)%nat.
Proof.
  induction s as [|c r IH]; intros ds rest; simpl.
  - intros [= <- <-]. reflexivity.
  - destruct (is_digit c).
    + destruct (span_digits r) as [ds' rest'] eqn:E.
      intros [= <- <-]. specialize (IH _ _ eq_refl). simpl. lia.
    + intros [= <- <-]. reflexivity.
Qed.

Lemma match_frac_length s frac rest :
  match_frac s = (frac, rest) -> (length rest <= length s)%nat.
Proof.
  unfold match_frac.
  destruct s as [|dot [|d r]]; try (intros [= <- <-]; simpl; lia).
  destruct ((dot =? 46)%N && is_digit d).
  - destruct (span_digits (d :: r)) as [ds rest'] eqn:E.
    intros [= <- <-]. apply span_digits_length in E. simpl in *. lia.
  - intros [= <- <-]. simpl; lia.
Qed.

Lemma split_sign_length s neg r :
  split_sign s = (neg, r) -> (length r <= length s)%nat.
Proof.
  unfold split_sign. destruct s as [|c s]; [intros [= <- <-]; simpl; lia|].
  destruct (c =? 45)%N; [intros [= <- <-]; simpl; lia|].
  destruct (c =? 43)%N; intros [= <- <-]; simpl; lia.
Qed.

Lemma match_exp_length s exp rest :
  match_exp s = (exp, rest) -> (length rest <= length s)%nat.
Proof.
  unfold match_exp. destruct s as [|e r]; [intros [= <- <-]; simpl; lia|].
  destruct ((e =? 101) || (e =? 69))%N; [|intros [= <- <-]; simpl; lia].
  destruct (split_sign r) as [neg r1] eqn:Es.
  destruct (span_digits r1) as [ds rest'] eqn:Ed.
  apply split_sign_length in Es. apply span_digits_length in Ed.
  destruct ds; intros [= <- <-]; simpl in *; lia.
Qed.

Lemma number_value_raises neg ds frac exp e :
  number_value neg ds frac exp = Raise e -> decode_failure e.
Proof.
  unfold number_value.
  destruct frac, exp; try discriminate.
  destruct (_ <? _)%N; [|discriminate].
  intros [= <-]. now right.
Qed.

Lemma match_number_spec s r rest :
  match_number s = Some (r, rest) ->
  (length rest < length s)%nat /\ (forall e, r = Raise e -> decode_failure e).
Proof.
  unfold match_number.
  set (sgn := match s with
              | c :: r0 => if (c =? 45)%N then (true, r0) else (false, s)
              | [] => (false, [])
              end).
  assert (Hs : (length (snd sgn) <= length s)%nat).
  { subst sgn. destruct s as [|c r0]; simpl; [lia|].
    destruct (c =? 45)%N; simpl; lia. }
  destruct sgn as [neg s1]. simpl in Hs.
  destruct s1 as [|c r1]; [discriminate|].
  set (ip := if ((49 <=? c) && (c <=? 57))%N
             then let '(ds, rest0) := span_digits r1 in Some (c :: ds, rest0)
             else if (c =? 48)%N then Some ([c], r1) else None).
  assert (Hip : forall ds rest0, ip = Some (ds, rest0) ->
                  (length rest0 <= length r1)%nat).
  { subst ip. intros ds rest0.
    destruct ((49 <=? c) && (c <=? 57))%N.
    - destruct (span_digits r1) as [ds' rest'] eqn:E.
      apply span_digits_length in E. intros [= <- <-]. lia.
    - destruct (c =? 48)%N; [intros [= <- <-]; lia|discriminate]. }
  destruct ip as [[ds rest0]|]; [|discriminate].
  specialize (Hip _ _ eq_refl).
  destruct (match_frac rest0) as [frac rest1] eqn:Ef.
  destruct (match_exp rest1) as [exp rest2] eqn:Ee.
  apply match_frac_length in Ef. apply match_exp_length in Ee.
  intros [= <- <-]. split; [simpl in *; lia|].
  intros e. apply number_value_raises.
Qed.

Lemma scan_atom_spec s :
  match scan_atom s with
  | Ok (_, rest) => (length rest < length s)%nat
  | Raise e => decode_failure e
  end.
Proof.
  unfold scan_atom.
  repeat lazymatch goal with
  | |- context [strip_prefix ?p s] =>
      let E := fresh "E" in
      destruct (strip_prefix p s) eqn:E;
      [apply strip_prefix_length in E; cbn in E; lia|clear E]
  end.
  destruct (match_number s) as [[[v|e] rest]|] eqn:E.
  - apply match_number_spec in E. tauto.
  - apply match_number_spec in E. destruct E as [_ E]. now apply E.
  - now left.
Qed.

(** *** Enough fuel: the scanners never run out on [2 * length s + 2]. *)

Definition scan_ok (s : pystr) (r : option (Result (pyobj * pystr))) : Prop :=
  match r with
  | None => False
  | Some (Ok (_, rest)) => (length rest < length s)%nat
  | Some (Raise e) => decode_failure e
  end.

Lemma scan_fuel n :
  (forall s, (2 * length s + 1 <= n)%nat -> scan_ok s (scan_once n s)) /\
  (forall s acc, (2 * length s + 2 <= n)%nat ->
     scan_ok s (parse_array n s acc)) /\
  (forall s acc, (2 * length s + 2 <= n)%nat ->
     scan_ok s (parse_object n s acc)).
Proof.
  induction n as [|n (IHs & IHa & IHo)].
  - repeat split; intros; lia.
  - repeat split.
    + intros s Hn. destruct s as [|c r]; cbn [scan_once]; [now left|].
      destruct (c =? 34)%N.
      { pose proof (scanstring_spec (length r) r [] (le_n _)) as P.
        destruct (scanstring r []) as [[t rest]|e]; simpl in *; [lia|assumption]. }
      pose proof (skip_ws_length r) as Hw.
      destruct (c =? 123)%N.
      { destruct (skip_ws r) as [|c1 r1] eqn:E; [now left|].
        destruct (c1 =? 125)%N; [simpl in *; lia|].
        specialize (IHo (c1 :: r1) [] ltac:(simpl in *; lia)).
        unfold scan_ok in *.
        destruct (parse_object n (c1 :: r1) []) as [[[v rest]|e]|];
          simpl in *; try lia; assumption. }
      destruct (c =? 91)%N.
      { destruct (skip_ws r) as [|c1 r1] eqn:E; [now left|].
        destruct (c1 =? 93)%N; [simpl in *; lia|].
        specialize (IHa (c1 :: r1) [] ltac:(simpl in *; lia)).
        unfold scan_ok in *.
        destruct (parse_array n (c1 :: r1) []) as [[[v rest]|e]|];
          simpl in *; try lia; assumption. }
      apply scan_atom_spec.
    + intros s acc Hn. cbn [parse_array].
      specialize (IHs s ltac:(lia)). unfold scan_ok in IHs.
      destruct (scan_once n s) as [[[v rest]|e]|]; [|assumption|contradiction].
      pose proof (skip_ws_length rest) as Hw.
      destruct (skip_ws rest) as [|c r] eqn:E; [now left|].
      destruct (c =? 93)%N; [simpl in *; lia|].
      destruct (c =? 44)%N; [|now left].
      pose proof (skip_ws_length r) as Hw2.
      specialize (IHa (skip_ws r) (acc ++ [v]) ltac:(simpl in *; lia)).
      unfold scan_ok in *.
      destruct (parse_array n (skip_ws r) (acc ++ [v])) as [[[v' rest']|e]|];
        simpl in *; try lia; assumption.
    + intros s acc Hn. cbn [parse_object].
      destruct s as [|q r]; [now left|].
      destruct (q =? 34)%N; simpl negb; cbv iota; [|now left].
      pose proof (scanstring_spec (length r) r [] (le_n _)) as P.
      destruct (scanstring r []) as [[key rest]|e]; [|assumption].
      pose proof (skip_ws_length rest) as Hw.
      destruct (skip_ws rest) as [|colon r1] eqn:E; [now left|].
      destruct (colon =? 58)%N; simpl negb; cbv iota; [|now left].
      pose proof (skip_ws_length r1) as Hw1.
      specialize (IHs (skip_ws r1) ltac:(simpl in *; lia)). unfold scan_ok in IHs.
      destruct (scan_once n (skip_ws r1)) as [[[v rest1]|e]|];
        [|assumption|contradiction].
      pose proof (skip_ws_length rest1) as Hw3.
      destruct (skip_ws rest1) as [|c r2] eqn:E3; [now left|].
      destruct (c =? 125)%N; [simpl in *; lia|].
      destruct (c =? 44)%N; [|now left].
      pose proof (skip_ws_length r2) as Hw4.
      specialize (IHo (skip_ws r2) (dict_set acc key v) ltac:(simpl in *; lia)).
      unfold scan_ok in *.
      destruct (parse_object n (skip_ws r2) (dict_set acc key v))
        as [[[v' rest']|e]|]; simpl in *; try lia; assumption.
Qed.

(** Every exception of [json.loads] is a [ValueError]. *)
Lemma loads_raises s e :
  loads s = Raise e -> decode_failure e.
Proof.
  unfold loads. destruct s as [|c r]; [intros [= <-]; now left|].
  destruct (c =? BOM)%N; [intros [= <-]; now left|].
  pose proof (skip_ws_length (c :: r)) as Hw.
  pose proof (proj1 (scan_fuel (2 * length (c :: r) + 1)) (skip_ws (c :: r))
                ltac:(lia)) as P.
  unfold scan_ok in P.
  destruct (scan_once _ _) as [[[v rest]|e']|]; [| |contradiction].
  - destruct (skip_ws rest); [discriminate|intros [= <-]; now left].
  - intros [= <-]. assumption.
Qed.

(** The fuel [loads] gives the scanner is enough. *)
Lemma loads_fuel s : scan_once (2 * length s + 1) (skip_ws s) <> None.
Proof.
  pose proof (skip_ws_length s) as Hw.
  pose proof (proj1 (scan_fuel (2 * length s + 1)) (skip_ws s) ltac:(lia)) as P.
  unfold scan_ok in P. destruct (scan_once _ _); [discriminate|contradiction].
Qed.

(** *** The recursion limit *)

(** With a limit the scanners do what they do without one, or raise
    [RecursionError]. *)
Lemma scan_within_agrees fuel :
  (forall room s,
     scan_once_within room fuel s = scan_once fuel s
     \/ scan_once_within room fuel s = Some (Raise recursion_error)) /\
  (forall room s acc,
     parse_array_within room fuel s acc = parse_array fuel s acc
     \/ parse_array_within room fuel s acc = Some (Raise recursion_error)) /\
  (forall room s acc,
     parse_object_within room fuel s acc = parse_object fuel s acc
     \/ parse_object_within room fuel s acc = Some (Raise recursion_error)).
Proof.
  induction fuel as [|n (IHs & IHa & IHo)]; [repeat split; intros; now left|].
  repeat split.
  - intros room s. destruct s as [|c r]; [now left|].
    cbn [scan_once_within scan_once].
    destruct (c =? 34)%N; [now left|].
    destruct (c =? 123)%N.
    { destruct room as [|room]; [now right|].
      destruct (skip_ws r) as [|c1 r1]; [now left|].
      destruct (c1 =? 125)%N; [now left|]. apply IHo. }
    destruct (c =? 91)%N; [|now left].
    destruct room as [|room]; [now right|].
    destruct (skip_ws r) as [|c1 r1]; [now left|].
    destruct (c1 =? 93)%N; [now left|]. apply IHa.
  - intros room s acc. cbn [parse_array_within parse_array].
    destruct (IHs room s) as [-> | ->]; [|now right].
    destruct (scan_once n s) as [[[v rest]|e]|]; [|now left|now left].
    destruct (skip_ws rest) as [|c r]; [now left|].
    destruct (c =? 93)%N; [now left|].
    destruct (c =? 44)%N; [|now left]. apply IHa.
  - intros room s acc. cbn [parse_object_within parse_object].
    destruct s as [|q r]; [now left|].
    destruct (negb (q =? 34)%N); [now left|].
    destruct (scanstring r []) as [[key rest]|e]; [|now left].
    destruct (skip_ws rest) as [|colon r1]; [now left|].
    destruct (negb (colon =? 58)%N); [now left|].
    destruct (IHs room (skip_ws r1)) as [-> | ->]; [|now right].
    destruct (scan_once n (skip_ws r1)) as [[[v rest1]|e]|]; [|now left|now left].
    destruct (skip_ws rest1) as [|c r2]; [now left|].
    destruct (c =? 125)%N; [now left|].
    destruct (c =? 44)%N; [|now left]. apply IHo.
Qed.

Lemma loads_within_agrees room s :
  loads_within room s = loads s \/ loads_within room s = Raise recursion_error.
Proof.
  unfold loads_within, loads. destruct s as [|c r]; [now left|].
  destruct (c =? BOM)%N; [now left|].
  destruct (proj1 (scan_within_agrees (2 * length (c :: r) + 1)) room
              (skip_ws (c :: r))) as [-> | ->]; [now left|now right].
Qed.

Lemma loads_limited_agrees runs_out room s :
  loads_limited runs_out room s = loads s
  \/ loads_limited runs_out room s = Raise recursion_error.
Proof.
  unfold loads_limited. destruct (runs_out s); [now right|].
  apply loads_within_agrees.
Qed.







End JsonFacts.
Import JsonFacts.

(** ** Facts about [int()] *)


Lemma int_of_str_cases s :
  (exists z, int_of_str s = Ok z) \/ int_of_str s = raise ValueError.
Proof.
  unfold int_of_str.
  destruct (split_sign _) as [neg body].
  destruct (starts_with_underscore body); [now right|].
  destruct (scan_digits body false 0 0) as [[[v count] rest]|]; [|now right].
  destruct (count =? 0)%N; [now right|].
  destruct (_ <? _)%N; [now right|].
  destruct (lstrip rest); [left; eauto|now right].
Qed.

Lemma lstrip_split s :
  exists pre, s = pre ++ lstrip s /\ forallb is_space pre = true.
Proof.
  induction s as [|c r (pre & E & H)]; simpl.
  - exists []. auto.
  - destruct (is_space c) eqn:Ec.
    + exists (c :: pre). simpl. rewrite Ec, H. split; [congruence|reflexivity].
    + exists []. auto.
Qed.

Lemma lstrip_nil s : lstrip s = [] -> forallb is_space s = true.
Proof.
  induction s as [|c r IH]; simpl; [reflexivity|].
  destruct (is_space c); [auto|discriminate].
Qed.

Lemma scan_digits_split s : forall b acc cnt v n rest,
  scan_digits s b acc cnt = Some (v, n, rest) ->
  exists pre, s = pre ++ rest /\
              forallb (fun c => is_digit c || (c =? 95)%N) pre = true.
Proof.
  induction s as [|c r IH]; intros b acc cnt v n rest; simpl.
  - destruct b; [discriminate|]. intros [= <- <- <-]. exists []. auto.
  - destruct (is_digit c) eqn:Ed.
    + intros H. apply IH in H as (pre & -> & H).
      exists (c :: pre). simpl. now rewrite Ed, H.
    + destruct (c =? 95)%N eqn:Eu.
      * destruct b; [discriminate|].
        intros H. apply IH in H as (pre & -> & H).
        exists (c :: pre). simpl. now rewrite Ed, Eu, H.
      * destruct b; [discriminate|]. intros [= <- <- <-]. exists []. auto.
Qed.

Lemma forallb_weaken {A} (f g : A -> bool) l :
  (forall x, f x = true -> g x = true) ->
  forallb f l = true -> forallb g l = true.
Proof.
  intros Hfg. induction l as [|x r IH]; simpl; [reflexivity|].
  intros [Hx Hr]%andb_true_iff. now rewrite (Hfg _ Hx), IH.
Qed.

(** A conversion that succeeds has read only signs, digits, underscores
    and blanks. *)
Lemma int_of_str_chars s z :
  int_of_str s = Ok z -> forallb literal_char (map to_ascii s) = true.
Proof.
  unfold int_of_str.
  destruct (lstrip_split (map to_ascii s)) as (pre & E & Hpre).
  destruct (split_sign (lstrip (map to_ascii s))) as [neg body] eqn:Es.
  destruct (starts_with_underscore body); [discriminate|].
  destruct (scan_digits body false 0 0) as [[[v count] rest]|] eqn:Ed;
    [|discriminate].
  destruct (count =? 0)%N; [discriminate|].
  destruct (_ <? _)%N; [discriminate|].
  destruct (lstrip rest) eqn:Er; [|discriminate].
  intros _. rewrite E, forallb_app.
  apply lstrip_nil in Er.
  apply scan_digits_split in Ed as (mid & Ebody & Hmid).
  assert (Hbody : forallb literal_char body = true).
  { rewrite Ebody, forallb_app, andb_true_iff. split.
    - revert Hmid. apply forallb_weaken. intros c. unfold literal_char.
      destruct (is_space c), (is_digit c), (c =? 95)%N, (c =? 43)%N, (c =? 45)%N;
        simpl; congruence.
    - revert Er. apply forallb_weaken. intros c. unfold literal_char.
      now intros ->. }
  rewrite andb_true_iff. split.
  - revert Hpre. apply forallb_weaken. intros c. unfold literal_char.
    now intros ->.
  - unfold split_sign in Es.
    destruct (lstrip (map to_ascii s)) as [|c r]; [reflexivity|].
    destruct (c =? 45)%N eqn:E45.
    { injection Es as _ Eb. subst r. simpl. unfold literal_char at 1.
      rewrite E45, Hbody. now rewrite !orb_true_r. }
    destruct (c =? 43)%N eqn:E43.
    { injection Es as _ Eb. subst r. simpl. unfold literal_char at 1.
      rewrite E43, Hbody. now rewrite !orb_true_r. }
    injection Es as _ Eb. now rewrite Eb.
Qed.

Lemma to_ascii_ascii c : (c <? 127)%N = true -> to_ascii c = c.
Proof. unfold to_ascii. now intros ->. Qed.

Lemma int_of_str_foreign s :
  has_foreign_char s = true -> int_of_str s = raise ValueError.
Proof.
  intros H. destruct (int_of_str_cases s) as [[z Hz]|]; [|assumption].
  exfalso. apply int_of_str_chars in Hz.
  unfold has_foreign_char in H. apply existsb_exists in H as (c & Hin & Hc).
  apply andb_true_iff in Hc as [Hasc Hbad].
  rewrite forallb_forall in Hz.
  specialize (Hz (to_ascii c) (in_map _ _ _ Hin)).
  rewrite (to_ascii_ascii _ Hasc) in Hz. rewrite Hz in Hbad. discriminate.
Qed.

Lemma to_ascii_minus c : to_ascii c = 45%N -> c = 45%N.
Proof.
  unfold to_ascii. destruct (c <? 127)%N; [auto|].
  destruct (existsb _ _); [discriminate|].
  destruct (unicode_decimal c); [intros; lia|discriminate].
Qed.

Lemma signed_nonneg n : 0 <= signed false n.
Proof. unfold signed. lia. Qed.

(** Only a minus sign makes [int()] of a string negative. *)
Lemma int_of_str_negative s z :
  int_of_str s = Ok z -> z < 0 -> In 45%N s.
Proof.
  unfold int_of_str.
  destruct (lstrip_split (map to_ascii s)) as (pre & E & _).
  destruct (split_sign (lstrip (map to_ascii s))) as [neg body] eqn:Es.
  destruct (starts_with_underscore body); [discriminate|].
  destruct (scan_digits body false 0 0) as [[[v count] rest]|]; [|discriminate].
  destruct (count =? 0)%N; [discriminate|].
  destruct (_ <? _)%N; [discriminate|].
  destruct (lstrip rest); [|discriminate].
  intros [= <-] Hneg.
  destruct neg; [|pose proof (signed_nonneg v); lia].
  unfold split_sign in Es.
  destruct (lstrip (map to_ascii s)) as [|c r]; [discriminate|].
  destruct (N.eqb_spec c 45) as [->|_].
  - assert (Hin : In 45%N (map to_ascii s)).
    { rewrite E. apply in_or_app. right. now left. }
    apply in_map_iff in Hin as (c & Hc & Hin).
    apply to_ascii_minus in Hc. now subst.
  - destruct (c =? 43)%N; discriminate.
Qed.











Lemma all_digits_repeat c n :
  is_digit c = true -> all_digits (repeat c (S n)) = true.
Proof.
  intros Hc. unfold all_digits. cbn [repeat].
  assert (H : forall k, forallb is_digit (repeat c k) = true).
  { induction k as [|k IH]; simpl; [reflexivity|]. now rewrite Hc. }
  cbn [forallb]. now rewrite Hc, H.
Qed.

(** ** The result extractor *)

(** *** Locating the object *)


Lemma locate_json_enclosed pre body post :
  ~ In (ch "{") pre -> ~ In (ch "}") post ->
  locate_json (pre ++ (ch "{" :: body ++ [ch "}"]) ++ post)
  = Ok (ch "{" :: body ++ [ch "}"]).
Proof.
  intros Hpre Hpost. unfold locate_json.
  replace (pre ++ (ch "{" :: body ++ [ch "}"]) ++ post)
    with (pre ++ ch "{" :: (body ++ [ch "}"] ++ post))
    by (cbn; now rewrite <- !app_assoc).
  rewrite (find_first _ _ _ Hpre).
  replace (pre ++ ch "{" :: (body ++ [ch "}"] ++ post))
    with ((pre ++ ch "{" :: body) ++ ch "}" :: post)
    by (cbn; now rewrite <- !app_assoc).
  rewrite (rfind_last _ _ _ Hpost).
  destruct (Z.eqb_spec (Z.of_nat (length pre)) (-1)); [lia|].
  destruct (Z.eqb_spec (Z.of_nat (length (pre ++ ch "{" :: body)) + 1) 0); [lia|].
  cbn [orb]. f_equal.
  replace ((pre ++ ch "{" :: body) ++ ch "}" :: post)
    with (pre ++ (ch "{" :: body ++ [ch "}"]) ++ post)
    by (cbn; now rewrite <- !app_assoc).
  replace (Z.of_nat (length (pre ++ ch "{" :: body)) + 1)
    with (Z.of_nat (length pre + length (ch "{" :: body ++ [ch "}"])))
    by (rewrite !length_app; cbn [length]; rewrite length_app; cbn [length]; lia).
  apply slice_middle.
Qed.

(** C2, amended: when no opening brace precedes the object and no closing
    brace follows it, the extractor decodes exactly the enclosed object,
    whatever prose, code fence or commentary surrounds it. *)
Theorem extract_json_enclosed pre body post :
  ~ In (ch "{") pre -> ~ In (ch "}") post ->
  extract_json (pre ++ (ch "{" :: body ++ [ch "}"]) ++ post)
  = Json.loads (ch "{" :: body ++ [ch "}"]).
Proof.
  intros Hpre Hpost. unfold extract_json.
  now rewrite (locate_json_enclosed _ _ _ Hpre Hpost).
Qed.

Lemma extract_json_enclosed_witness :
  ~ In (ch "{") (str "```json ") /\
  ~ In (ch "}") (str "``` (estimates)") /\
  extract_json
    (str "```json " ++ (ch "{" :: (quoted "breakdown" ++ str ":[]") ++ [ch "}"])
       ++ str "``` (estimates)")
  = Ok (PDict [(str "breakdown", PList [])]).
Proof.
  assert (Hpre : ~ In (ch "{") (str "```json "))
    by (vm_compute; intuition discriminate).
  assert (Hpost : ~ In (ch "}") (str "``` (estimates)"))
    by (vm_compute; intuition discriminate).
  split; [exact Hpre|]. split; [exact Hpost|].
  rewrite (extract_json_enclosed _ _ _ Hpre Hpost).
  vm_compute. reflexivity.
Defined.

(** C2 as stated fails: prose with a brace of its own changes the slice. *)
Lemma extract_json_brace_in_prose :
  ~ (forall pre obj post v,
       Json.loads obj = Ok v -> extract_json (pre ++ obj ++ post) = Ok v).
Proof.
  intros H.
  specialize (H (str "{note} ") (str "{" ++ quoted "breakdown" ++ str ":[]}") []
                (PDict [(str "breakdown", PList [])])).
  vm_compute in H. specialize (H eq_refl). discriminate.
Qed.

(** *** Failures of the outer [try] *)

Lemma extract_json_raises raw e :
  extract_json raw = Raise e -> caught_by [ValueError; JSONDecodeError] e = true.
Proof.
  unfold extract_json, locate_json.
  destruct (_ || _).
  - intros [= <-]. reflexivity.
  - cbn [bind]. intros H. apply loads_raises in H as [-> | ->]; reflexivity.
Qed.

Lemma render_results_raise raw e :
  extract_json raw = Raise e ->
  render_results raw
  = ([Success; Error e; WriteText "Raw AI response for debugging:"; Code raw], None).
Proof.
  intros H. pose proof (extract_json_raises _ _ H) as Hc.
  unfold render_results, try_block, breakdown_of. rewrite H. cbn [bind].
  now rewrite Hc.
Qed.


(** *** The results page under the limit *)

Lemma extract_json_within_agrees runs_out room raw :
  extract_json_within runs_out room raw = extract_json raw
  \/ extract_json_within runs_out room raw = Raise recursion_error.
Proof.
  unfold extract_json_within, extract_json.
  destruct (locate_json raw) as [json_str|e]; [|now left].
  apply loads_limited_agrees.
Qed.

Lemma render_results_within_same runs_out room raw :
  extract_json_within runs_out room raw = extract_json raw ->
  render_results_within runs_out room raw = render_results raw.
Proof.
  intros H.
  unfold render_results_within, try_block_within, breakdown_of_within.
  now rewrite H.
Qed.

Lemma render_results_within_overflow runs_out room raw :
  extract_json_within runs_out room raw = Raise recursion_error ->
  render_results_within runs_out room raw = ([Success], Some recursion_error).
Proof.
  intros H.
  unfold render_results_within, try_block_within, breakdown_of_within.
  now rewrite H.
Qed.

(** The page under the limit is the page without it, unless the limit was
    hit. *)
Lemma render_results_within_agrees runs_out room raw :
  render_results_within runs_out room raw = render_results raw
  \/ render_results_within runs_out room raw = ([Success], Some recursion_error).
Proof.
  destruct (extract_json_within_agrees runs_out room raw) as [H|H].
  - left. now apply render_results_within_same.
  - right. now apply render_results_within_overflow.
Qed.






(** *** Coercion of the macro fields *)

Lemma macro_dict d key :
  macro (PDict d) key
  = try_except (py_int (match dict_get d (str key) with
                        | Some v => v
                        | None => PNone
                        end))
      [ValueError; TypeError] (fun _ => Ok 0).
Proof. reflexivity. Qed.

Lemma macro_defaulted d key :
  defaulted (dict_get d (str key)) = true -> macro (PDict d) key = Ok 0.
Proof.
  rewrite macro_dict. unfold defaulted.
  destruct (dict_get d (str key)) as [[| | |[| |]| | |]|]; try discriminate;
    try reflexivity.
  intros H. cbn [py_int]. now rewrite (int_of_str_foreign _ H).
Qed.

Lemma macro_field d key :
  defaulted (dict_get d (str key)) || plain (dict_get d (str key)) = true ->
  macro (PDict d) key = Ok (field_value (dict_get d (str key))) /\
  printable (field_value (dict_get d (str key))) = true.
Proof.
  intros [H|H]%orb_true_iff.
  - rewrite (macro_defaulted _ _ H). unfold defaulted in H.
    destruct (dict_get d (str key)) as [[]|]; try discriminate; now split.
  - rewrite macro_dict. unfold plain in H.
    destruct (dict_get d (str key)) as [[]|]; try discriminate. now split.
Qed.

Lemma str_of_int_bind z {A} (k : pystr -> Result A) :
  printable z = true ->
  (let* t := str_of_int z in k t)
  = k (if z <? 0 then 45%N :: N_digits (Z.abs_N z) else N_digits (Z.abs_N z)).
Proof.
  unfold printable, str_of_int. intros H.
  destruct (N.ltb_spec int_max_str_digits
              (N.of_nat (length (N_digits (Z.abs_N z))))) as [Hlt|_].
  - apply N.leb_le in H. lia.
  - reflexivity.
Qed.

Lemma process_item_included acc d :
  forallb (fun key => defaulted (dict_get d (str key))
                      || plain (dict_get d (str key))) macro_keys = true ->
  process_item acc (PDict d)
  = Ok (add_totals (fst acc)
          (field_value (dict_get d (str "calories")))
          (field_value (dict_get d (str "protein_grams")))
          (field_value (dict_get d (str "carbs_grams")))
          (field_value (dict_get d (str "fat_grams"))),
        snd acc ++ [row_of d]).
Proof.
  cbn [forallb macro_keys]. rewrite !andb_true_iff.
  intros (Hc & Hp & Hb & Hf & _).
  apply macro_field in Hc as [Mc Pc], Hp as [Mp Pp], Hb as [Mb Pb], Hf as [Mf Pf].
  unfold process_item. rewrite Mc, Mp, Mb, Mf. cbn [bind py_get].
  rewrite (str_of_int_bind _ _ Pc), (str_of_int_bind _ _ Pp),
    (str_of_int_bind _ _ Pb), (str_of_int_bind _ _ Pf).
  reflexivity.
Qed.

(** C3, amended: a macro field that is missing, [null], an array, an
    object, a NaN or a text with a character foreign to integer literals
    is set to 0; an item whose other macro fields are JSON integers is
    added to the totals and to the table with 0 in place of such fields;
    and the scenario text gives 95, 0, 25 and 0 with one row for Apple. *)
Theorem invalid_fields_default_to_zero d key acc :
  (defaulted (dict_get d (str key)) = true -> macro (PDict d) key = Ok 0) /\
  (forallb (fun key => defaulted (dict_get d (str key))
                       || plain (dict_get d (str key))) macro_keys = true ->
   process_item acc (PDict d)
   = Ok (add_totals (fst acc)
           (field_value (dict_get d (str "calories")))
           (field_value (dict_get d (str "protein_grams")))
           (field_value (dict_get d (str "carbs_grams")))
           (field_value (dict_get d (str "fat_grams"))),
         snd acc ++ [row_of d])) /\
  extract apple_text
  = Ok ({| total_calories := 95; total_protein := 0;
           total_carbs := 25; total_fat := 0 |},
        [{| Item := PStr (str "Apple"); Calories := str "95 kcal";
            Protein := str "0g"; Carbs := str "25g"; Fat := str "0g" |}]).
Proof.
  split; [apply macro_defaulted|]. split; [apply process_item_included|].
  vm_compute. reflexivity.
Qed.

Lemma invalid_fields_default_to_zero_witness :
  let d := [(str "item", PStr (str "Apple")); (str "calories", PInt 95);
            (str "protein_grams", PStr (str "a lot"));
            (str "carbs_grams", PInt 25); (str "fat_grams", PInt 0)] in
  defaulted (dict_get d (str "protein_grams")) = true /\
  macro (PDict d) "protein_grams" = Ok 0 /\
  process_item (zero_totals, []) (PDict d)
  = Ok ({| total_calories := 95; total_protein := 0;
           total_carbs := 25; total_fat := 0 |},
        [{| Item := PStr (str "Apple"); Calories := str "95 kcal";
            Protein := str "0g"; Carbs := str "25g"; Fat := str "0g" |}]).
Proof.
  intros d.
  destruct (invalid_fields_default_to_zero d "protein_grams" (zero_totals, []))
    as (H1 & H2 & _).
  split; [reflexivity|]. split; [exact (H1 eq_refl)|].
  exact (H2 eq_refl).
Defined.

(** C3 as stated fails: a boolean is not numeric, yet [int()] reads
    [true] as 1. *)
Lemma boolean_field_is_not_zero :
  ~ (forall d key,
       not_numeric (dict_get d (str key)) = true -> macro (PDict d) key = Ok 0).
Proof.
  intros H.
  specialize (H [(str "calories", PBool true)] "calories"%string eq_refl).
  vm_compute in H. discriminate.
Qed.

(** *** Sign of the derived values *)

Lemma int_of_float_negative f z :
  int_of_float f = Ok z -> z < 0 -> exists m e, f = FFinite true m e.
Proof.
  destruct f as [neg m e| |]; try discriminate.
  destruct neg; [eauto|].
  cbn [int_of_float]. intros [= <-].
  unfold signed. destruct (0 <=? e); intros H; exfalso;
    match type of H with Z.of_N ?n < 0 => pose proof (N2Z.is_nonneg n) end; lia.
Qed.

Lemma py_int_negative v z :
  py_int v = Ok z -> z < 0 -> negative_source v = true.
Proof.
  destruct v as [|b|n|f|s|l|d]; cbn [py_int negative_source]; try discriminate.
  - destruct b; intros [= <-]; lia.
  - intros [= <-] H. now apply Z.ltb_lt.
  - intros H Hz. destruct (int_of_float_negative _ _ H Hz) as (m & e & ->).
    reflexivity.
  - intros H Hz. apply existsb_exists. exists 45%N.
    split; [exact (int_of_str_negative _ _ H Hz)|reflexivity].
Qed.

(** C4, amended: a derived macro value is an integer, and it is negative
    only when the field itself is a negative number or a text with a minus
    sign; for every other field it is at least 0. *)
Theorem macro_nonnegative item key z :
  macro item key = Ok z -> field_negative item key = false -> 0 <= z.
Proof.
  destruct item as [| | | | | |d]; try discriminate.
  rewrite macro_dict. unfold field_negative.
  destruct (dict_get d (str key)) as [v|]; [|intros [= <-]; lia].
  intros H Hn. destruct (Z.lt_ge_cases z 0) as [Hz|]; [|assumption].
  exfalso. unfold try_except in H.
  destruct (py_int v) as [z'|e] eqn:E.
  - injection H as ->. rewrite (py_int_negative _ _ E Hz) in Hn. discriminate.
  - destruct (caught_by _ e); [injection H as <-; lia|discriminate].
Qed.

Lemma macro_nonnegative_witness :
  let item := PDict [(str "calories", PFloat (float_of_decimal false 955 (-1)));
                     (str "fat_grams", PStr (str "a lot"))] in
  macro item "calories" = Ok 95 /\
  field_negative item "calories" = false /\
  0 <= 95.
Proof.
  intros item.
  assert (H : macro item "calories" = Ok 95) by (vm_compute; reflexivity).
  split; [exact H|]. split; [reflexivity|].
  exact (macro_nonnegative item "calories" 95 H eq_refl).
Defined.

(** C4 as stated fails: a negative number stays negative. *)
Lemma negative_calories_kept :
  ~ (forall item key z, macro item key = Ok z -> 0 <= z).
Proof.
  intros H.
  specialize (H (PDict [(str "item", PStr (str "Diet soda"));
                        (str "calories", PInt (-5))])
                "calories"%string (-5) eq_refl).
  lia.
Qed.

(** *** Numeric strings *)



Lemma pystr_eqb_refl s : pystr_eqb s s = true.
Proof. unfold pystr_eqb. now apply bool_decide_eq_true. Qed.


Lemma Ok_inj {A} (a b : A) : Ok a = Ok b -> a = b.
Proof. now intros [= ->]. Qed.




(** ** The search adapter *)

Section AdapterFacts.

Variable tavily_search : pyobj -> Result pyobj.
Variable exc_str : exn -> pystr.
Variable float_repr : pyfloat -> pystr.

Abbreviation adapter := (WebSearch.perform_web_search tavily_search exc_str float_repr).

Lemma caught_by_Exception e : caught_by [Exception] e = true.
Proof. destruct e as [[] ?]; reflexivity. Qed.

Lemma adapter_cases query :
  adapter query
  = match WebSearch.search_body tavily_search float_repr query with
    | Ok text => Ok text
    | Raise e => Ok (str "Error performing search: " ++ exc_str e)
    end.
Proof.
  unfold WebSearch.perform_web_search, try_except.
  destruct (WebSearch.search_body _ _ _); [reflexivity|].
  now rewrite caught_by_Exception.
Qed.

Lemma adapter_total query : exists text, adapter query = Ok text.
Proof.
  rewrite adapter_cases. destruct (WebSearch.search_body _ _ _); eauto.
Qed.

Lemma record_of_url_content hit r :
  url_content hit = Some r -> WebSearch.record_of hit = Ok r.
Proof.
  unfold url_content, WebSearch.record_of.
  destruct hit as [| | | | | |d]; try discriminate.
  cbn [py_getitem].
  destruct (dict_get d (str "url")); [|discriminate].
  destruct (dict_get d (str "content")); [|discriminate].
  now intros [= <-].
Qed.

Lemma mapM_records hits : forall records,
  url_content_records hits = Some records ->
  mapM WebSearch.record_of hits = Ok records.
Proof.
  induction hits as [|hit rest IH]; intros records; cbn [url_content_records mapM].
  - now intros [= <-].
  - destruct (url_content hit) as [r|] eqn:E; [|discriminate].
    destruct (url_content_records rest) as [rs|]; [|discriminate].
    intros [= <-]. rewrite (record_of_url_content _ _ E). cbn [bind].
    now rewrite (IH _ eq_refl).
Qed.


End AdapterFacts.


(** ** The tool-call loop *)

Lemma pairs_from_app b h1 h2 :
  pairs_from b (h1 ++ h2)
  = (pairs_from b h1 + pairs_from (fold_left (fun _ m => is_call m) h1 b) h2)%nat.
Proof.
  revert b. induction h1 as [|m r IH]; intros b; cbn [app pairs_from fold_left].
  - reflexivity.
  - rewrite IH. lia.
Qed.

Section LoopFacts.

Variable gemini : nat -> list Part.
Variable tavily_search : nat -> pyobj -> Result pyobj.
Variable exc_str : exn -> pystr.
Variable float_repr : pyfloat -> pystr.

Abbreviation tools := (available_tools tavily_search exc_str float_repr).
Abbreviation web_search := (Chat.perform_web_search tavily_search exc_str float_repr).
Abbreviation loop := (tool_loop gemini tavily_search exc_str float_repr).

Lemma lookup_tools name :
  tools !! name
  = if pystr_eqb name (str "perform_web_search") then Some web_search else None.
Proof.
  unfold available_tools, pystr_eqb.
  destruct (decide (name = str "perform_web_search")) as [->|Hne].
  - rewrite bool_decide_eq_true_2 by reflexivity. apply lookup_singleton_eq.
  - rewrite bool_decide_eq_false_2 by assumption.
    apply lookup_singleton_ne. congruence.
Qed.

(** The tool answers whenever the keyword arguments bind. *)
Lemma web_search_bound w kwargs query :
  WebSearch.bind_query kwargs = Ok query ->
  exists text,
    web_search w kwargs
    = ({| api_calls := api_calls w; searches := searches w ++ [query] |}, Ok text).
Proof.
  intros H. unfold Chat.perform_web_search. rewrite H.
  destruct (adapter_total (tavily_search (length (searches w))) exc_str float_repr
              query) as [text ->].
  eauto.
Qed.

Lemma web_search_unbound w kwargs e :
  WebSearch.bind_query kwargs = Raise e -> web_search w kwargs = (w, Raise e).
Proof. intros H. unfold Chat.perform_web_search. now rewrite H. Qed.

(** One turn of the loop, by what the reply is. *)
Lemma loop_stops n w history response :
  keeps_going (parts response) = false ->
  exists r, loop (S n) w history response = Some (w, history, r).
Proof.
  unfold keeps_going. cbn [tool_loop]. unfold dispatch.
  destruct (parts response) as [|p rest]; [eauto|].
  destruct (function_call p) as [fc|]; [|eauto].
  rewrite lookup_tools.
  destruct (pystr_eqb (fc_name fc) (str "perform_web_search")); [|eauto].
  cbn [andb].
  destruct (WebSearch.bind_query (fc_args fc)) as [q|e] eqn:E; [discriminate|].
  intros _. rewrite (web_search_unbound _ _ _ E). eauto.
Qed.

Lemma loop_continues n w history response :
  keeps_going (parts response) = true ->
  exists query text,
    is_call response = true /\
    loop (S n) w history response
    = loop n
        {| api_calls := S (api_calls w); searches := searches w ++ [query] |}
        (history ++
           [{| role := str "user";
               parts := [PartFunctionResponse (str "perform_web_search")
                           [(str "content", PStr text)]] |};
            {| role := str "model"; parts := gemini (api_calls w) |}])
        {| role := str "model"; parts := gemini (api_calls w) |}.
Proof.
  unfold keeps_going, is_call. cbn [tool_loop]. unfold dispatch.
  destruct (parts response) as [|p rest]; [discriminate|].
  destruct (function_call p) as [fc|]; [|discriminate].
  rewrite lookup_tools. unfold pystr_eqb.
  destruct (decide (fc_name fc = str "perform_web_search")) as [Hname|Hne].
  2: { rewrite bool_decide_eq_false_2 by assumption. discriminate. }
  rewrite bool_decide_eq_true_2 by assumption. cbn [andb].
  destruct (WebSearch.bind_query (fc_args fc)) as [q|e] eqn:E; [|discriminate].
  intros _. destruct (web_search_bound w _ _ E) as [text ->].
  exists q, text. split; [reflexivity|].
  unfold send_message. cbn [api_calls searches]. now rewrite Hname.
Qed.

(** If some later reply does not keep the loop going, the loop ends. *)
Lemma loop_ends n : forall w history response,
  parts response = gemini (pred (api_calls w)) -> (0 < api_calls w)%nat ->
  keeps_going (gemini (pred (api_calls w) + n)) = false ->
  exists out, loop (S n) w history response = Some out.
Proof.
  induction n as [|n IH]; intros w history response Hr Hw Hstop.
  - rewrite Nat.add_0_r, <- Hr in Hstop.
    destruct (loop_stops 0 w history response Hstop) as [r ->]. eauto.
  - destruct (keeps_going (parts response)) eqn:Hk.
    + destruct (loop_continues (S n) w history response Hk)
        as (q & text & _ & ->).
      apply IH; cbn [api_calls parts]; [reflexivity|lia|].
      replace (pred (S (api_calls w)) + n)%nat
        with (pred (api_calls w) + S n)%nat by lia.
      exact Hstop.
    + destruct (loop_stops (S n) w history response Hk) as [r ->]. eauto.
Qed.

(** If the loop ends, some reply did not keep it going; and it has
    appended as many call/result pairs as it has made searches. *)
Lemma loop_ended n : forall w history seg response w' history' r,
  parts response = gemini (pred (api_calls w)) -> (0 < api_calls w)%nat ->
  fold_left (fun _ m => is_call m) seg false = is_call response ->
  loop n w (history ++ seg) response = Some (w', history', r) ->
  (exists k, keeps_going (gemini (pred (api_calls w) + k)) = false) /\
  exists seg', history' = history ++ seg' /\
    (tool_pairs seg' + length (searches w) = tool_pairs seg + length (searches w'))%nat.
Proof.
  induction n as [|n IH]; intros w history seg response w' history' r Hr Hw Hlast;
    [discriminate|].
  destruct (keeps_going (parts response)) eqn:Hk.
  - destruct (loop_continues n w (history ++ seg) response Hk)
      as (q & text & Hcall & ->).
    rewrite <- app_assoc. intros H.
    apply IH in H as [[k Hstop] (seg' & -> & Hp)];
      cbn [api_calls parts searches] in *; try reflexivity; try lia.
    + split.
      * exists (S k).
        replace (pred (api_calls w) + S k)%nat
          with (pred (S (api_calls w)) + k)%nat by lia.
        exact Hstop.
      * exists seg'. split; [reflexivity|].
        unfold tool_pairs in *. rewrite pairs_from_app, Hlast, Hcall in Hp.
        cbn [pairs_from is_response parts andb] in Hp.
        rewrite length_app in Hp. cbn [length] in Hp.
        unfold is_call in Hp at 1. cbn [parts function_call andb] in Hp. lia.
    + rewrite fold_left_app. reflexivity.
  - destruct (loop_stops n w (history ++ seg) response Hk) as [r' ->].
    intros [= <- <- <-]. split.
    + exists 0%nat. now rewrite Nat.add_0_r, <- Hr.
    + exists seg. split; [reflexivity|lia].
Qed.

(** C1, amended: the loop run on a user prompt ends exactly when the model
    eventually returns a reply whose first fragment is not a call of the
    registered tool with arguments it accepts; when it ends, it has
    appended as many tool-call/tool-result message pairs as it has made
    searches. *)
Theorem tool_loop_terminates_iff w history prompt :
  ((exists fuel out,
      converse gemini tavily_search exc_str float_repr fuel w history prompt
      = Some out)
   <-> exists n, keeps_going (gemini (api_calls w + n)) = false) /\
  (forall fuel w' history' r,
     converse gemini tavily_search exc_str float_repr fuel w history prompt
     = Some (w', history', r) ->
     exists appended,
       history' = history ++ appended /\
       (length (searches w') = length (searches w) + tool_pairs appended)%nat).
Proof.
  unfold converse, send_message.
  set (w1 := {| api_calls := S (api_calls w); searches := searches w |}).
  set (reply := {| role := str "model"; parts := gemini (api_calls w) |}).
  set (seg := [{| role := str "user"; parts := [PartText prompt] |}; reply]).
  assert (Hlast : fold_left (fun _ m => is_call m) seg false = is_call reply)
    by reflexivity.
  assert (Hseg : tool_pairs seg = 0%nat) by reflexivity.
  split; [split|].
  - intros (fuel & [[w' history'] r] & H).
    apply (loop_ended fuel w1 history seg reply) in H as [H _];
      try reflexivity; [exact H|cbn; lia].
  - intros [n H].
    destruct (loop_ends n w1 (history ++ seg) reply) as [out Hout];
      try reflexivity; [cbn; lia|exact H|eauto].
  - intros fuel w' history' r H.
    apply (loop_ended fuel w1 history seg reply) in H as [_ (seg' & -> & Hp)];
      try reflexivity; [|cbn; lia].
    exists seg'. split; [reflexivity|]. rewrite Hseg in Hp. cbn in Hp. lia.
Qed.

(** C6: a reply whose first fragment calls a tool that is not in the
    registry ends the loop at once: no adapter runs, no request is sent
    and nothing is appended to the history. *)
Theorem unregistered_tool_stops fuel w history response p rest fc :
  parts response = p :: rest ->
  function_call p = Some fc ->
  tools !! fc_name fc = None ->
  loop (S fuel) w history response = Some (w, history, Ok tt).
Proof.
  intros Hp Hfc Hreg. cbn [tool_loop]. unfold dispatch.
  now rewrite Hp, Hfc, Hreg.
Qed.

End LoopFacts.

(** ** The session *)

Lemma setdefault_lookup key v (s : gmap string sval) k :
  setdefault key v s !! k
  = match s !! k with
    | Some x => Some x
    | None => if decide (key = k) then Some v else None
    end.
Proof.
  unfold setdefault. destruct (s !! key) as [x|] eqn:E.
  - destruct (s !! k) eqn:Ek; [reflexivity|].
    destruct (decide (key = k)) as [->|]; [congruence|reflexivity].
  - rewrite lookup_insert. destruct (decide (key = k)) as [->|].
    + now rewrite E.
    + now destruct (s !! k).
Qed.

Lemma setdefault_present key v (s : gmap string sval) :
  is_Some (s !! key) -> setdefault key v s = s.
Proof. unfold setdefault. now intros [x ->]. Qed.

Lemma init_session_lookup s k :
  init_session s !! k
  = match s !! k with
    | Some x => Some x
    | None => fresh_session !! k
    end.
Proof.
  unfold fresh_session, init_session. rewrite !setdefault_lookup, lookup_empty.
  destruct (s !! k); reflexivity.
Qed.

Lemma init_session_idem s : init_session (init_session s) = init_session s.
Proof.
  apply map_eq. intros k. rewrite !init_session_lookup.
  destruct (s !! k); [reflexivity|]. now destruct (fresh_session !! k).
Qed.

Lemma lookup_foldl_delete keys : forall (m : gmap string sval) k,
  foldl (fun m key => delete key m) m keys !! k
  = if decide (k ∈ keys) then None else m !! k.
Proof.
  induction keys as [|key keys IH]; intros m k; cbn [foldl].
  - now rewrite decide_False by apply not_elem_of_nil.
  - rewrite IH. destruct (decide (k ∈ keys)) as [Hin|Hout].
    + now rewrite decide_True by (now right).
    + destruct (decide (key = k)) as [->|Hne].
      * rewrite lookup_delete_eq. now rewrite decide_True by left.
      * rewrite lookup_delete_ne by assumption.
        rewrite decide_False; [reflexivity|].
        intros [->|H]%elem_of_cons; tauto.
Qed.

(** Deleting every key leaves the empty session. *)
Lemma delete_all_keys_empty s : delete_all_keys s = ∅.
Proof.
  apply map_eq. intros k. unfold delete_all_keys.
  rewrite lookup_foldl_delete, lookup_empty.
  destruct (decide (k ∈ map fst (map_to_list s))) as [|Hout]; [reflexivity|].
  destruct (s !! k) as [v|] eqn:E; [|reflexivity].
  exfalso. apply Hout. apply list_elem_of_fmap. exists (k, v).
  split; [reflexivity|]. now apply elem_of_map_to_list.
Qed.

Section ScriptFacts.

Variable gemini : nat -> list Part.
Variable tavily_search : nat -> pyobj -> Result pyobj.
Variable exc_str : exn -> pystr.
Variable float_repr : pyfloat -> pystr.
Variable image_opens : list N -> bool.
Variable response_text : Content -> Result pystr.
Variable is_system_text : pystr -> bool.
Variable analysis_prompt : pystr.
Variable final_prompt : pystr.

Abbreviation script :=
  (main gemini tavily_search exc_str float_repr image_opens response_text
     is_system_text analysis_prompt final_prompt).
Abbreviation user_action :=
  (run gemini tavily_search exc_str float_repr image_opens response_text
     is_system_text analysis_prompt final_prompt).

Lemma stage_is_at st stage name :
  session st !! "analysis_stage" = Some (SStr (str stage)) ->
  stage_is st name = pystr_eqb (str stage) (str name).
Proof. unfold stage_is. now intros ->. Qed.

(** A run of the script in the results stage. *)
Lemma script_results fuel ev s w raw :
  s !! "analysis_stage" = Some (SStr (str "results")) ->
  s !! "final_analysis" = Some (SStr raw) ->
  script fuel ev s w
  = Some (results_stage ev
            {| session := init_session s; world := w; screen := [Title] |}).
Proof.
  intros Hs Hf. unfold main.
  set (st0 := {| session := init_session s; world := w; screen := [Title] |}).
  assert (H0 : session st0 !! "analysis_stage" = Some (SStr (str "results")))
    by (cbn [session st0]; now rewrite init_session_lookup, Hs).
  unfold upload_stage. rewrite (stage_is_at _ _ _ H0).
  change (pystr_eqb (str "results") (str "upload")) with false. cbv iota.
  unfold analyzing_stage. rewrite (stage_is_at _ _ _ H0).
  change (pystr_eqb (str "results") (str "analyzing")) with false. cbv iota.
  unfold conversation_stage. rewrite (stage_is_at _ _ _ H0).
  change (pystr_eqb (str "results") (str "conversation")) with false.
  reflexivity.
Qed.

Lemma results_stage_idle s w raw :
  s !! "analysis_stage" = Some (SStr (str "results")) ->
  s !! "final_analysis" = Some (SStr raw) ->
  results_stage Idle {| session := init_session s; world := w; screen := [Title] |}
  = ({| session := init_session s; world := w; screen := fst (results_page raw) |},
     snd (results_page raw)).
Proof.
  intros Hs Hf. unfold results_stage, stage_is, results_page. cbn [session].
  rewrite !init_session_lookup, Hs, Hf.
  change (pystr_eqb (str "results") (str "results")) with true. cbv iota.
  destruct (render_results raw) as [ui [e|]]; reflexivity.
Qed.

(** C8: in the results stage two runs of the script in a row show the same
    page, the one determined by the stored answer, and leave the same
    session: extracting twice from one text gives identical totals. *)
Theorem results_render_idempotent fuel s w raw :
  s !! "analysis_stage" = Some (SStr (str "results")) ->
  s !! "final_analysis" = Some (SStr raw) ->
  script fuel Idle s w
  = Some ({| session := init_session s; world := w;
             screen := fst (results_page raw) |}, snd (results_page raw)) /\
  script fuel Idle (init_session s) w = script fuel Idle s w.
Proof.
  intros Hs Hf.
  assert (Hs' : init_session s !! "analysis_stage" = Some (SStr (str "results")))
    by now rewrite init_session_lookup, Hs.
  assert (Hf' : init_session s !! "final_analysis" = Some (SStr raw))
    by now rewrite init_session_lookup, Hf.
  rewrite (script_results _ _ _ _ _ Hs Hf), (script_results _ _ _ _ _ Hs' Hf').
  rewrite init_session_idem. split; [|reflexivity].
  now rewrite (results_stage_idle _ _ _ Hs Hf).
Qed.

Lemma script_fresh fuel w :
  script fuel Idle ∅ w
  = Some ({| session := fresh_session; world := w;
             screen := [Title; InfoBox; FileUploader] |}, Completed).
Proof. reflexivity. Qed.

(** C9: in the results stage, once the page has been shown down to its
    reset button, clicking it deletes every key of the session and the
    rerun that follows ends exactly like the first run of a new session:
    stage upload, no image, an empty history and no stored answer. *)
Theorem start_over_restores_fresh_session fuel s w raw :
  s !! "analysis_stage" = Some (SStr (str "results")) ->
  s !! "final_analysis" = Some (SStr raw) ->
  snd (render_results raw) = None ->
  user_action fuel StartOverClicked s w = script fuel Idle ∅ w /\
  user_action fuel StartOverClicked s w
  = Some ({| session := fresh_session; world := w;
             screen := [Title; InfoBox; FileUploader] |}, Completed) /\
  fresh_session
  = {[ "analysis_stage" := SStr (str "upload");
       "uploaded_image_data" := SNone;
       "messages" := SMessages [] ]}.
Proof.
  intros Hs Hf Hshown.
  assert (Hrun : user_action fuel StartOverClicked s w = script fuel Idle ∅ w).
  { unfold run. rewrite (script_results _ _ _ _ _ Hs Hf).
    unfold results_stage, stage_is. cbn [session].
    rewrite !init_session_lookup, Hs, Hf.
    change (pystr_eqb (str "results") (str "results")) with true. cbv iota.
    destruct (render_results raw) as [ui escaped]. cbn [snd] in Hshown.
    subst escaped. cbn [session world emit].
    now rewrite delete_all_keys_empty. }
  split; [exact Hrun|]. split; [now rewrite Hrun, script_fresh|].
  apply map_eq. intros k. unfold fresh_session, init_session.
  rewrite !setdefault_lookup, lookup_empty.
  rewrite !lookup_insert, lookup_singleton.
  repeat destruct (decide _); congruence.
Qed.

End ScriptFacts.

(** ** The sample session *)

Lemma tool_loop_terminates_iff_witness :
  (exists n, keeps_going (Demo.gemini (1 + n)) = false) /\
  (exists fuel out,
     converse Demo.gemini Demo.tavily_search Demo.exc_str Demo.float_repr fuel
       {| api_calls := 1; searches := [] |} [] (str "It is a Whopper")
     = Some out) /\
  (exists w' history' r,
     converse Demo.gemini Demo.tavily_search Demo.exc_str Demo.float_repr 2
       {| api_calls := 1; searches := [] |} [] (str "It is a Whopper")
     = Some (w', history', r) /\
     length (searches w') = 1%nat /\ tool_pairs history' = 1%nat).
Proof.
  destruct (tool_loop_terminates_iff Demo.gemini Demo.tavily_search Demo.exc_str
              Demo.float_repr {| api_calls := 1; searches := [] |} []
              (str "It is a Whopper")) as [Hiff Hpairs].
  assert (Hn : exists n, keeps_going (Demo.gemini (1 + n)) = false)
    by (exists 1%nat; reflexivity).
  split; [exact Hn|]. split; [exact (proj2 Hiff Hn)|].
  destruct (converse Demo.gemini Demo.tavily_search Demo.exc_str Demo.float_repr 2
              {| api_calls := 1; searches := [] |} [] (str "It is a Whopper"))
    as [[[w' history'] r]|] eqn:E; [|vm_compute in E; discriminate].
  destruct (Hpairs 2%nat w' history' r E) as (appended & Happ & Hlen).
  exists w', history', r. split; [reflexivity|].
  assert (Hw : length (searches w') = 1%nat)
    by (vm_compute in E; now injection E as <- _ _).
  cbn [app] in Happ. subst appended. cbn [searches length] in Hlen.
  split; [exact Hw|lia].
Defined.

(** C1 as stated fails: the loop also ends on a call of an unregistered
    tool, although no reply is free of tool calls. *)
Lemma loop_ends_on_unknown_tool :
  ~ (forall gemini tavily_search exc_str float_repr w history prompt,
       (exists fuel out,
          converse gemini tavily_search exc_str float_repr fuel w history prompt
          = Some out)
       <-> exists n, has_tool_call (gemini (api_calls w + n)%nat) = false).
Proof.
  intros H.
  destruct (proj1 (H Demo.stubborn Demo.tavily_search Demo.exc_str Demo.float_repr
                     Demo.world0 [] (str "hello"))) as [n Hn].
  - exists 1%nat. eexists. vm_compute. reflexivity.
  - discriminate.
Qed.

Lemma unregistered_tool_stops_witness :
  let response := {| role := str "model"; parts := [Demo.weather_call] |} in
  parts response = [Demo.weather_call] /\
  function_call Demo.weather_call
  = Some {| fc_name := str "get_weather"; fc_args := [] |} /\
  available_tools Demo.tavily_search Demo.exc_str Demo.float_repr
    !! str "get_weather" = None /\
  tool_loop Demo.stubborn Demo.tavily_search Demo.exc_str Demo.float_repr 1
    Demo.world0 [] response
  = Some (Demo.world0, [], Ok tt).
Proof.
  intros response.
  assert (Hreg : available_tools Demo.tavily_search Demo.exc_str Demo.float_repr
                   !! str "get_weather" = None)
    by (vm_compute; reflexivity).
  split; [reflexivity|]. split; [reflexivity|]. split; [exact Hreg|].
  exact (unregistered_tool_stops Demo.stubborn Demo.tavily_search Demo.exc_str
           Demo.float_repr 0 Demo.world0 [] response Demo.weather_call []
           {| fc_name := str "get_weather"; fc_args := [] |}
           eq_refl eq_refl Hreg).
Defined.

Lemma results_render_idempotent_witness :
  fst Demo.at_results !! "analysis_stage" = Some (SStr (str "results")) /\
  fst Demo.at_results !! "final_analysis" = Some (SStr apple_text) /\
  main Demo.gemini Demo.tavily_search Demo.exc_str Demo.float_repr
    Demo.image_opens Demo.response_text Demo.is_system_text
    Demo.analysis_prompt Demo.final_prompt 8 Idle
    (init_session (fst Demo.at_results)) (snd Demo.at_results)
  = main Demo.gemini Demo.tavily_search Demo.exc_str Demo.float_repr
      Demo.image_opens Demo.response_text Demo.is_system_text
      Demo.analysis_prompt Demo.final_prompt 8 Idle
      (fst Demo.at_results) (snd Demo.at_results).
Proof.
  assert (Hs : fst Demo.at_results !! "analysis_stage"
               = Some (SStr (str "results"))) by (vm_compute; reflexivity).
  assert (Hf : fst Demo.at_results !! "final_analysis"
               = Some (SStr apple_text)) by (vm_compute; reflexivity).
  split; [exact Hs|]. split; [exact Hf|].
  exact (proj2 (results_render_idempotent Demo.gemini Demo.tavily_search
                  Demo.exc_str Demo.float_repr Demo.image_opens
                  Demo.response_text Demo.is_system_text Demo.analysis_prompt
                  Demo.final_prompt 8 (fst Demo.at_results)
                  (snd Demo.at_results) apple_text Hs Hf)).
Defined.

Lemma start_over_restores_fresh_session_witness :
  fst Demo.at_results !! "analysis_stage" = Some (SStr (str "results")) /\
  fst Demo.at_results !! "final_analysis" = Some (SStr apple_text) /\
  snd (render_results apple_text) = None /\
  run Demo.gemini Demo.tavily_search Demo.exc_str Demo.float_repr
    Demo.image_opens Demo.response_text Demo.is_system_text
    Demo.analysis_prompt Demo.final_prompt 8 StartOverClicked
    (fst Demo.at_results) (snd Demo.at_results)
  = Some ({| session := fresh_session; world := snd Demo.at_results;
             screen := [Title; InfoBox; FileUploader] |}, Completed).
Proof.
  assert (Hs : fst Demo.at_results !! "analysis_stage"
               = Some (SStr (str "results"))) by (vm_compute; reflexivity).
  assert (Hf : fst Demo.at_results !! "final_analysis"
               = Some (SStr apple_text)) by (vm_compute; reflexivity).
  assert (Hp : snd (render_results apple_text) = None)
    by (vm_compute; reflexivity).
  split; [exact Hs|]. split; [exact Hf|]. split; [exact Hp|].
  exact (proj1 (proj2 (start_over_restores_fresh_session Demo.gemini
                         Demo.tavily_search Demo.exc_str Demo.float_repr
                         Demo.image_opens Demo.response_text
                         Demo.is_system_text Demo.analysis_prompt
                         Demo.final_prompt 8 (fst Demo.at_results)
                         (snd Demo.at_results) apple_text Hs Hf Hp))).
Defined.

(** * Further properties

    What the code does beyond the statements above. *)

(** ** The extractor and the results page *)

Lemma rfind_nonneg_or c s : rfind c s = -1 \/ 0 <= rfind c s.
Proof.
  induction s as [|x r IH]; simpl; [now left|].
  destruct (Z.leb_spec 0 (rfind c r)); [right; lia|].
  destruct (N.eqb x c); [right; lia|now left].
Qed.

Lemma find_split c s :
  0 <= find c s ->
  exists pre rest, s = pre ++ c :: rest /\ ~ In c pre.
Proof.
  induction s as [|x r IH]; simpl; [lia|].
  destruct (N.eqb_spec x c) as [->|Hne].
  - intros _. exists [], r. split; [reflexivity|]. intros [].
  - destruct (Z.ltb_spec (find c r) 0); [lia|].
    intros _. destruct IH as (pre & rest & -> & Hpre); [lia|].
    exists (x :: pre), rest. split; [reflexivity|].
    intros [E|Hin]; [congruence|tauto].
Qed.

Lemma rfind_split c s :
  0 <= rfind c s ->
  exists pre post, s = pre ++ c :: post /\ ~ In c post.
Proof.
  induction s as [|x r IH]; simpl; [lia|].
  destruct (Z.leb_spec 0 (rfind c r)) as [Hr|Hr].
  - intros _. destruct (IH Hr) as (pre & post & -> & Hpost).
    exists (x :: pre), post. now split.
  - destruct (N.eqb_spec x c) as [->|Hne]; [|lia].
    intros _. exists [], r. split; [reflexivity|].
    intros Hin. destruct (rfind_nonneg_or c r) as [E|E]; [|lia].
    clear IH Hr. induction r as [|y r IH]; [destruct Hin|].
    simpl in E. destruct (Z.leb_spec 0 (rfind c r)); [lia|].
    destruct (N.eqb_spec y c) as [->|Hy]; [lia|].
    destruct Hin as [->|Hin]; [congruence|].
    apply IH; [assumption|]. destruct (rfind_nonneg_or c r); lia.
Qed.

Lemma slice_empty s a b : 0 <= a -> 0 <= b -> b <= a -> slice s a b = [].
Proof.
  intros Ha Hb Hab. unfold slice, clamp_index.
  destruct (Z.ltb_spec a 0); [lia|]. destruct (Z.ltb_spec b 0); [lia|].
  replace (Z.to_nat (Z.min b (Z.of_nat (length s)) - Z.min a (Z.of_nat (length s))))
    with 0%nat by lia.
  reflexivity.
Qed.

Lemma braces_differ : ch "{" <> ch "}".
Proof. discriminate. Qed.

Lemma split_first_last (o c : N) raw :
  o <> c -> 0 <= find o raw -> 0 <= rfind c raw ->
  (exists a b d, raw = a ++ c :: b ++ o :: d /\
     ~ In o (a ++ c :: b) /\ ~ In c (b ++ o :: d))
  \/ exists pre body post,
       raw = pre ++ (o :: body ++ [c]) ++ post /\ ~ In o pre /\ ~ In c post.
Proof.
  intros Hoc Hf Hr.
  destruct (find_split _ _ Hf) as (pre & rest & E1 & Hpre).
  destruct (rfind_split _ _ Hr) as (r2 & post & E2 & Hpost).
  pose proof E1 as E. rewrite E2 in E. symmetry in E.
  apply app_eq_app in E as [l [[Ea Eb]|[Ea Eb]]].
  - destruct l as [|x l]; [cbn [app] in Eb; congruence|].
    cbn [app] in Eb. injection Eb as <- ->.
    left. exists r2, l, rest. split; [exact E2|]. split; [now rewrite <- Ea|exact Hpost].
  - destruct l as [|x body]; [cbn [app] in Eb; congruence|].
    cbn [app] in Eb. injection Eb as <- ->.
    right. exists pre, body, post. split; [|now split].
    rewrite E1. cbn [app]. now rewrite <- app_assoc.
Qed.

Lemma locate_json_inv raw json_str :
  locate_json raw = Ok json_str ->
  (json_str = [] /\
   exists a b c, raw = a ++ ch "}" :: b ++ ch "{" :: c /\
     ~ In (ch "{") (a ++ ch "}" :: b) /\ ~ In (ch "}") (b ++ ch "{" :: c))
  \/ exists pre body post,
       raw = pre ++ (ch "{" :: body ++ [ch "}"]) ++ post /\
       json_str = ch "{" :: body ++ [ch "}"] /\
       ~ In (ch "{") pre /\ ~ In (ch "}") post.
Proof.
  unfold locate_json.
  destruct (find_nonneg_or (ch "{") raw) as [E|Hf]; [now rewrite E|].
  destruct (rfind_nonneg_or (ch "}") raw) as [E|Hr];
    [rewrite E; cbn; now rewrite orb_true_r|].
  destruct (Z.eqb_spec (find (ch "{") raw) (-1)); [lia|].
  destruct (Z.eqb_spec (rfind (ch "}") raw + 1) 0); [lia|].
  cbn [orb]. intros H. apply Ok_inj in H. subst json_str.
  destruct (split_first_last _ _ raw braces_differ Hf Hr)
    as [(a & b & d & E & Ho & Hc)|(pre & body & post & E & Hpre & Hpost)].
  - left. split; [|exists a, b, d; auto].
    assert (Ri : rfind (ch "}") raw = Z.of_nat (length a))
      by (rewrite E; now apply rfind_last).
    assert (Fi : find (ch "{") raw = Z.of_nat (length (a ++ ch "}" :: b))).
    { rewrite E.
      replace (a ++ ch "}" :: b ++ ch "{" :: d)
        with ((a ++ ch "}" :: b) ++ ch "{" :: d)
        by (rewrite <- app_assoc; reflexivity).
      now apply find_first. }
    apply slice_empty; try lia.
    rewrite Ri, Fi, length_app. cbn [length]. lia.
  - right. exists pre, body, post. split; [exact E|]. split; [|auto].
    pose proof (locate_json_enclosed pre body post Hpre Hpost) as L.
    rewrite <- E in L. unfold locate_json in L.
    destruct (Z.eqb_spec (find (ch "{") raw) (-1)); [lia|].
    destruct (Z.eqb_spec (rfind (ch "}") raw + 1) 0); [lia|].
    cbn [orb] in L. now apply Ok_inj in L.
Qed.

Lemma parse_object_dict n : forall s acc v rest,
  Json.parse_object n s acc = Some (Ok (v, rest)) -> exists d, v = PDict d.
Proof.
  induction n as [|n IH]; intros s acc v rest; [discriminate|].
  cbn [Json.parse_object].
  destruct s as [|q r]; [discriminate|].
  destruct (negb (q =? 34)%N); [discriminate|].
  destruct (Json.scanstring r []) as [[key rest0]|]; [|discriminate].
  destruct (Json.skip_ws rest0) as [|colon r1]; [discriminate|].
  destruct (negb (colon =? 58)%N); [discriminate|].
  destruct (Json.scan_once n (Json.skip_ws r1)) as [[[v1 rest1]|]|]; try discriminate.
  destruct (Json.skip_ws rest1) as [|c r2]; [discriminate|].
  destruct (c =? 125)%N; [intros [= <- <-]; eauto|].
  destruct (c =? 44)%N; [apply IH|discriminate].
Qed.

Lemma loads_object s v :
  Json.loads (ch "{" :: s) = Ok v -> exists d, v = PDict d.
Proof.
  unfold Json.loads. change (ch "{" =? Json.BOM)%N with false. cbv iota.
  change (Json.skip_ws (ch "{" :: s)) with (ch "{" :: s).
  destruct (2 * length (ch "{" :: s) + 1)%nat as [|n]; [discriminate|].
  cbn [Json.scan_once]. change (ch "{" =? 34)%N with false.
  change (ch "{" =? 123)%N with true. cbv iota.
  destruct (Json.skip_ws s) as [|c1 r1]; [discriminate|].
  destruct (c1 =? 125)%N.
  - destruct (Json.skip_ws r1); [intros [= <-]; eauto|discriminate].
  - destruct (Json.parse_object n (c1 :: r1) []) as [[[v' rest]|]|] eqn:E; try discriminate.
    destruct (Json.skip_ws rest); [|discriminate].
    intros [= <-]. eapply parse_object_dict, E.
Qed.


(** X1: whenever the extractor decodes something, the answer has the form
    prose, object, prose with no opening brace in the leading prose and no
    closing brace in the trailing prose; what is decoded is that enclosed
    text, and it is always a JSON object, never an array or a scalar. *)
Theorem extracted_object_is_enclosed raw v :
  extract_json raw = Ok v ->
  exists pre body post d,
    raw = pre ++ (ch "{" :: body ++ [ch "}"]) ++ post /\
    ~ In (ch "{") pre /\ ~ In (ch "}") post /\
    v = PDict d /\
    Json.loads (ch "{" :: body ++ [ch "}"]) = Ok (PDict d).
Proof.
  unfold extract_json.
  destruct (locate_json raw) as [json_str|] eqn:L; [|discriminate].
  cbn [bind]. intros H.
  apply locate_json_inv in L
    as [[-> _]|(pre & body & post & E & -> & Hpre & Hpost)]; [discriminate|].
  destruct (loads_object _ _ H) as [d ->].
  exists pre, body, post, d. auto.
Qed.

Lemma find_In c s : In c s -> 0 <= find c s.
Proof.
  induction s as [|x r IH]; simpl; [tauto|].
  destruct (N.eqb_spec x c) as [->|Hne]; [lia|].
  intros [E|Hin]; [congruence|]. specialize (IH Hin).
  destruct (Z.ltb_spec (find c r) 0); lia.
Qed.

Lemma rfind_In c s : In c s -> 0 <= rfind c s.
Proof.
  induction s as [|x r IH]; simpl; [tauto|].
  intros [->|Hin].
  - destruct (Z.leb_spec 0 (rfind c r)); [lia|]. rewrite N.eqb_refl. lia.
  - specialize (IH Hin). destruct (Z.leb_spec 0 (rfind c r)); lia.
Qed.

Lemma closing_in_enclosed (l body post : pystr) :
  In (ch "}") (l ++ (ch "{" :: body ++ [ch "}"]) ++ post).
Proof.
  apply in_or_app. right. apply in_or_app. left. right.
  apply in_or_app. right. now left.
Qed.

(** X2: when every closing brace of the answer comes before every opening
    brace, both being present, the slice is empty: no missing-brace error
    is raised, [json.loads] fails on the empty text and the page shows the
    decoding error with the raw answer. *)
Theorem closing_brace_before_opening a c :
  In (ch "}") a -> ~ In (ch "{") a -> In (ch "{") c -> ~ In (ch "}") c ->
  locate_json (a ++ c) = Ok [] /\
  render_results (a ++ c)
  = ([Success; Error (Exn JSONDecodeError None);
      WriteText "Raw AI response for debugging:"; Code (a ++ c)], None).
Proof.
  intros Hca Hoa Hoc Hcc.
  assert (L : locate_json (a ++ c) = Ok []).
  { destruct (locate_json (a ++ c)) as [j|e] eqn:L.
    - apply locate_json_inv in L
        as [[-> _]|(pre & body & post & E & _ & Hpre & Hpost)]; [reflexivity|].
      exfalso. apply app_eq_app in E as [l [[Ea Eb]|[Ea Eb]]].
      + destruct l as [|x l].
        * apply Hcc. cbn [app] in Eb. rewrite <- Eb.
          apply (closing_in_enclosed [] body post).
        * apply Hoa. rewrite Ea. apply in_or_app. right.
          cbn [app] in Eb. assert (x = ch "{") as -> by congruence. now left.
      + apply Hcc. rewrite Eb. apply closing_in_enclosed.
    - exfalso. unfold locate_json in L.
      pose proof (find_In (ch "{") (a ++ c) ltac:(apply in_or_app; now right)).
      pose proof (rfind_In (ch "}") (a ++ c) ltac:(apply in_or_app; now left)).
      destruct (Z.eqb_spec (find (ch "{") (a ++ c)) (-1)); [lia|].
      destruct (Z.eqb_spec (rfind (ch "}") (a ++ c) + 1) 0); [lia|].
      discriminate. }
  split; [exact L|].
  apply render_results_raise. unfold extract_json. now rewrite L.
Qed.

Lemma macro_cases item key :
  (exists z, macro item key = Ok z)
  \/ (macro item key = raise AttributeError /\ is_object item = false)
  \/ (macro item key = raise OverflowError /\ infinite_field item key = true).
Proof.
  destruct item as [|b|z|f|s|l|d]; try (right; left; split; reflexivity).
  rewrite macro_dict. unfold infinite_field.
  destruct (dict_get d (str key)) as [[|b|z|[neg m e|neg|]|s|l|d']|];
    try (left; eexists; reflexivity).
  - right. right. split; reflexivity.
  - left. cbn [py_int]. destruct (int_of_str_cases s) as [[z ->]| ->]; eexists; reflexivity.
Qed.

Lemma str_of_int_cases z :
  (exists t, str_of_int z = Ok t) \/ str_of_int z = raise ValueError.
Proof.
  unfold str_of_int. destruct (_ <? _)%N; [now right|left; eauto].
Qed.






Lemma str_of_int_fmt z t unit :
  str_of_int z = Ok t -> t ++ str unit = fmt z unit.
Proof.
  unfold str_of_int, fmt. destruct (_ <? _)%N; [discriminate|].
  now intros [= <-].
Qed.

Lemma bind_ok {A B} (m : Result A) (k : A -> Result B) b :
  bind m k = Ok b -> exists a, m = Ok a /\ k a = Ok b.
Proof. destruct m as [a|e]; [eauto|discriminate]. Qed.

Lemma process_item_ok acc item acc' :
  process_item acc item = Ok acc' ->
  acc' = (add_totals (fst acc) (coerced item "calories")
            (coerced item "protein_grams") (coerced item "carbs_grams")
            (coerced item "fat_grams"),
          snd acc ++ [shown_row item]).
Proof.
  unfold process_item. intros H.
  apply bind_ok in H as (c & Hc & H). apply bind_ok in H as (p & Hp & H).
  apply bind_ok in H as (b & Hb & H). apply bind_ok in H as (f & Hf & H).
  apply bind_ok in H as (name & Hn & H).
  apply bind_ok in H as (tc & Htc & H). apply bind_ok in H as (tp & Htp & H).
  apply bind_ok in H as (tb & Htb & H). apply bind_ok in H as (tf & Htf & H).
  apply Ok_inj in H. subst acc'.
  unfold shown_row, coerced. rewrite Hc, Hp, Hb, Hf, Hn.
  now rewrite (str_of_int_fmt _ _ _ Htc), (str_of_int_fmt _ _ _ Htp),
    (str_of_int_fmt _ _ _ Htb), (str_of_int_fmt _ _ _ Htf).
Qed.

Lemma for_items_ok items : forall acc t rows,
  for_items items acc = Ok (t, rows) ->
  rows = snd acc ++ map shown_row items /\
  total_calories t = total_calories (fst acc) + column_total "calories" items /\
  total_protein t = total_protein (fst acc) + column_total "protein_grams" items /\
  total_carbs t = total_carbs (fst acc) + column_total "carbs_grams" items /\
  total_fat t = total_fat (fst acc) + column_total "fat_grams" items.
Proof.
  induction items as [|item rest IH]; intros acc t rows; cbn [for_items].
  - intros H. apply Ok_inj in H. subst acc. cbn. rewrite app_nil_r.
    repeat split; lia.
  - intros H. apply bind_ok in H as (acc' & Hp & H).
    apply process_item_ok in Hp. apply IH in H as (Hr & Hc & Hpr & Hcb & Hf).
    subst acc'. cbn [fst snd add_totals total_calories total_protein total_carbs
                       total_fat] in *.
    cbn [map column_total fold_right]. fold (column_total "calories" rest).
    fold (column_total "protein_grams" rest). fold (column_total "carbs_grams" rest).
    fold (column_total "fat_grams" rest).
    rewrite <- app_assoc in Hr. cbn [app] in Hr. repeat split; [exact Hr|lia..].
Qed.

(** X7: when the loop over the items ends normally, the table holds one
    row per item, in the order of the items, each showing the four coerced
    values of its item with their units, and each total is the sum of its
    column. *)
Theorem totals_are_column_sums items t rows :
  aggregate (PList items) = Ok (t, rows) ->
  rows = map shown_row items /\
  t = {| total_calories := column_total "calories" items;
         total_protein := column_total "protein_grams" items;
         total_carbs := column_total "carbs_grams" items;
         total_fat := column_total "fat_grams" items |}.
Proof.
  unfold aggregate. cbn [py_iter bind]. intros H.
  apply for_items_ok in H as (Hr & Hc & Hp & Hb & Hf).
  cbn [fst snd zero_totals total_calories total_protein total_carbs total_fat app]
    in *.
  split; [exact Hr|]. destruct t as [c p b f]. cbn in *. now subst.
Qed.

Lemma render_results_data raw d :
  extract_json raw = Ok (PDict d) ->
  try_block raw
  = let breakdown_list := breakdown_value d in
    let warning := if truthy breakdown_list then [] else [Warning] in
    match aggregate breakdown_list with
    | Raise e => (warning, Raise e)
    | Ok (totals, display_data) =>
        let '(ms, r) := show_metrics (metrics_of totals) in
        (warning ++ [Table display_data; Subheader "Calculated Totals"] ++ ms, r)
    end.
Proof.
  intros X. unfold try_block, breakdown_of. rewrite X. reflexivity.
Qed.

(** X6: a breakdown that is missing or empty gives the warning, an empty
    table and four totals of zero; the page does not fail. *)
Theorem empty_breakdown_page raw d :
  extract_json raw = Ok (PDict d) ->
  empty_breakdown (dict_get d (str "breakdown")) = true ->
  render_results raw
  = ([Success; Warning; Table []; Subheader "Calculated Totals";
      Metric "Total Calories" (str "0 kcal"); Metric "Total Protein" (str "0g");
      Metric "Total Carbs" (str "0g"); Metric "Total Fat" (str "0g")], None).
Proof.
  intros X H. unfold render_results. rewrite (render_results_data _ _ X).
  unfold breakdown_value, empty_breakdown in *.
  destruct (dict_get d (str "breakdown")) as [[| | | |[|]|[|]|[|]]|];
    try discriminate; reflexivity.
Qed.

(** X5: a breakdown that is [null], a boolean or a number ends the run
    with an uncaught [TypeError] at the loop; the warning about a missing
    breakdown is shown first when the value is false in a condition. *)
Theorem scalar_breakdown_crashes raw d v :
  extract_json raw = Ok (PDict d) ->
  dict_get d (str "breakdown") = Some v ->
  scalar_value v = true ->
  render_results raw
  = (Success :: (if truthy v then [] else [Warning]), Some (Exn TypeError None)).
Proof.
  intros X Hv Hs. unfold render_results. rewrite (render_results_data _ _ X).
  unfold breakdown_value. rewrite Hv.
  destruct v as [|b|z|f|s|l|d']; try discriminate; cbn [aggregate py_iter bind raise];
    destruct (truthy _); reflexivity.
Qed.

Lemma for_items_app l1 : forall l2 acc,
  for_items (l1 ++ l2) acc = bind (for_items l1 acc) (for_items l2).
Proof.
  induction l1 as [|x l1 IH]; intros l2 acc; cbn [app for_items bind]; [reflexivity|].
  destruct (process_item acc x); cbn [bind]; [apply IH|reflexivity].
Qed.

Lemma macro_infinite item key :
  infinite_field item key = true -> macro item key = raise OverflowError.
Proof.
  unfold infinite_field. destruct item as [| | | | | |d]; try discriminate.
  rewrite macro_dict.
  destruct (dict_get d (str key)) as [[| | |[| |]| | |]|]; try discriminate.
  reflexivity.
Qed.

Lemma process_item_bad acc item :
  is_object item = false -> process_item acc item = raise AttributeError.
Proof. destruct item; try discriminate; reflexivity. Qed.

Lemma process_item_infinite acc item key :
  In key macro_keys -> infinite_field item key = true ->
  process_item acc item = raise OverflowError.
Proof.
  intros Hk Hi.
  assert (Hobj : is_object item = true)
    by (unfold infinite_field in Hi; destruct item; try discriminate; reflexivity).
  pose proof (macro_infinite _ _ Hi) as Hm.
  unfold process_item.
  cbn [macro_keys In] in Hk.
  destruct (macro_cases item "calories") as [[c Ec]|[[Ec H]|[Ec H]]];
    [|congruence|now rewrite Ec].
  destruct Hk as [<-|Hk]; [rewrite Ec in Hm; discriminate|]. rewrite Ec. cbn [bind].
  destruct (macro_cases item "protein_grams") as [[p Ep]|[[Ep H]|[Ep H]]];
    [|congruence|now rewrite Ep].
  destruct Hk as [<-|Hk]; [rewrite Ep in Hm; discriminate|]. rewrite Ep. cbn [bind].
  destruct (macro_cases item "carbs_grams") as [[b Eb]|[[Eb H]|[Eb H]]];
    [|congruence|now rewrite Eb].
  destruct Hk as [<-|Hk]; [rewrite Eb in Hm; discriminate|]. rewrite Eb. cbn [bind].
  destruct Hk as [<-|[]]. now rewrite Hm.
Qed.

(** X4: once the items before it have been processed, an item that is
    not an object, or one with an infinite macro field, ends the run with
    an uncaught exception: the page stops after the banner, with no table,
    no totals and no error box, whatever the earlier items were. *)
Theorem bad_item_crashes_page raw d good bad rest acc :
  extract_json raw = Ok (PDict d) ->
  dict_get d (str "breakdown") = Some (PList (good ++ bad :: rest)) ->
  for_items good (zero_totals, []) = Ok acc ->
  (is_object bad = false ->
   render_results raw = ([Success], Some (Exn AttributeError None))) /\
  (forall key, In key macro_keys -> infinite_field bad key = true ->
   render_results raw = ([Success], Some (Exn OverflowError None))).
Proof.
  intros X Hb Hg.
  assert (R : forall e, process_item acc bad = Raise e ->
            caught_by [ValueError; JSONDecodeError] e = false ->
            render_results raw = ([Success], Some e)).
  { intros e He Hc. unfold render_results. rewrite (render_results_data _ _ X).
    unfold breakdown_value. rewrite Hb. cbn zeta.
    unfold aggregate. cbn [py_iter bind].
    rewrite for_items_app, Hg. cbn [bind for_items]. rewrite He. cbn [bind].
    replace (truthy (PList (good ++ bad :: rest))) with true
      by (now destruct good).
    now rewrite Hc. }
  split.
  - intros H. apply R; [now apply process_item_bad|reflexivity].
  - intros key Hk H. apply R; [now apply (process_item_infinite _ _ key)|reflexivity].
Qed.

(** ** Accounting for the tool-call loop *)

Section LoopMore.

Variable gemini : nat -> list Part.
Variable tavily_search : nat -> pyobj -> Result pyobj.
Variable exc_str : exn -> pystr.
Variable float_repr : pyfloat -> pystr.

Abbreviation loop := (tool_loop gemini tavily_search exc_str float_repr).
Abbreviation web_search := (Chat.perform_web_search tavily_search exc_str float_repr).

Lemma bind_query_raises kwargs e :
  WebSearch.bind_query kwargs = Raise e -> e = Exn TypeError None.
Proof.
  unfold WebSearch.bind_query.
  destruct kwargs as [|[k v] [|? ?]]; try (now intros [= <-]).
  destruct (pystr_eqb k (str "query")); [discriminate|now intros [= <-]].
Qed.

Lemma loop_stops_result n w history response :
  keeps_going (parts response) = false ->
  loop (S n) w history response = Some (w, history, Ok tt)
  \/ loop (S n) w history response = Some (w, history, raise TypeError).
Proof.
  unfold keeps_going. cbn [tool_loop]. unfold dispatch.
  destruct (parts response) as [|p rest]; [auto|].
  destruct (function_call p) as [fc|]; [|auto].
  rewrite lookup_tools.
  destruct (pystr_eqb (fc_name fc) (str "perform_web_search")); [|auto].
  cbn [andb].
  destruct (WebSearch.bind_query (fc_args fc)) as [q|e] eqn:E; [discriminate|].
  intros _. rewrite (web_search_unbound _ _ _ _ _ _ E).
  rewrite (bind_query_raises _ _ E). now right.
Qed.

Lemma loop_accounting n : forall w history response w' history' r,
  loop n w history response = Some (w', history', r) ->
  exists queries appended,
    searches w' = searches w ++ queries /\
    history' = history ++ appended /\
    api_calls w' = (api_calls w + length queries)%nat /\
    length appended = (2 * length queries)%nat /\
    (r = Ok tt \/ r = raise TypeError).
Proof.
  induction n as [|n IH]; intros w history response w' history' r; [discriminate|].
  destruct (keeps_going (parts response)) eqn:K.
  - destruct (loop_continues gemini tavily_search exc_str float_repr n w history
                response K) as (q & text & _ & ->).
    intros H. apply IH in H as (qs & app' & Hs & Hh & Ha & Hl & Hr).
    cbn [searches api_calls] in *.
    exists (q :: qs). eexists. split; [|split; [|split; [|split]]].
    + now rewrite Hs, <- app_assoc.
    + rewrite Hh, <- app_assoc. reflexivity.
    + cbn [length]. lia.
    + rewrite length_app. cbn [length]. lia.
    + exact Hr.
  - destruct (loop_stops_result n w history response K) as [-> | ->];
      intros [= <- <- <-]; exists [], []; rewrite !app_nil_r; cbn [length];
      repeat split; auto with arith.
Qed.


(** X9: a reply whose first fragment calls [perform_web_search] with the
    one argument [query] makes the loop search for exactly that query, and
    send the text the adapter returned back to the model as a function
    response named [perform_web_search] under the key [content], in a user
    turn recorded before the next reply. *)
Theorem tool_call_forwarded n w history response fc rest query :
  parts response = PartFunctionCall fc :: rest ->
  fc_name fc = str "perform_web_search" ->
  fc_args fc = [(str "query", query)] ->
  exists text,
    WebSearch.perform_web_search (tavily_search (length (searches w)))
      exc_str float_repr query = Ok text /\
    loop (S n) w history response
    = loop n
        {| api_calls := S (api_calls w); searches := searches w ++ [query] |}
        (history ++
           [{| role := str "user";
               parts := [PartFunctionResponse (str "perform_web_search")
                           [(str "content", PStr text)]] |};
            {| role := str "model"; parts := gemini (api_calls w) |}])
        {| role := str "model"; parts := gemini (api_calls w) |}.
Proof.
  intros Hp Hname Hargs.
  destruct (adapter_total (tavily_search (length (searches w))) exc_str float_repr
              query) as [text Ht].
  exists text. split; [exact Ht|].
  cbn [tool_loop]. unfold dispatch. rewrite Hp. cbn [function_call].
  rewrite lookup_tools, Hname, pystr_eqb_refl.
  unfold Chat.perform_web_search, WebSearch.bind_query. rewrite Hargs.
  rewrite pystr_eqb_refl, Ht.
  unfold send_message. cbn [api_calls searches]. now rewrite Hname.
Qed.

End LoopMore.

(** ** The stages of the script *)

Section StageFacts.

Variable gemini : nat -> list Part.
Variable tavily_search : nat -> pyobj -> Result pyobj.
Variable exc_str : exn -> pystr.
Variable float_repr : pyfloat -> pystr.
Variable image_opens : list N -> bool.
Variable response_text : Content -> Result pystr.
Variable is_system_text : pystr -> bool.
Variable analysis_prompt : pystr.
Variable final_prompt : pystr.

Abbreviation script :=
  (main gemini tavily_search exc_str float_repr image_opens response_text
     is_system_text analysis_prompt final_prompt).
Abbreviation user_action :=
  (run gemini tavily_search exc_str float_repr image_opens response_text
     is_system_text analysis_prompt final_prompt).
Abbreviation conversation :=
  (conversation_stage gemini tavily_search exc_str float_repr response_text
     is_system_text final_prompt).
Abbreviation analyzing := (analyzing_stage gemini image_opens analysis_prompt).

Lemma stage_is_emit ui st name : stage_is (emit ui st) name = stage_is st name.
Proof. reflexivity. Qed.

Lemma conversation_completed fuel ev st st' :
  conversation fuel ev st = Some (st', Completed) ->
  session st' = session st /\ world st' = world st.
Proof.
  unfold conversation_stage.
  destruct (stage_is st "conversation"); [|intros [= <-]; auto].
  cbn [session emit].
  destruct (session st !! "messages") as [[| | |history]|]; try discriminate.
  destruct (render_history is_system_text history) as [ui [u|e]]; [|discriminate].
  destruct ev as [|data| |[|c prompt]| |]; try (intros [= <-]; auto).
  - destruct (converse _ _ _ _ _ _ _ _) as [[[w h] [u'|e]]|]; discriminate.
  - destruct (send_message _ _ _ _) as [[w h] response].
    destruct (response_text response); discriminate.
Qed.

Lemma upload_completed ev st st' :
  upload_stage ev st = (st', Completed) -> session st' = session st.
Proof.
  unfold upload_stage. destruct (stage_is st "upload"); [|now intros [= <-]].
  destruct ev; try discriminate; now intros [= <-].
Qed.

Lemma analyzing_completed ev st st' :
  analyzing ev st = (st', Completed) -> session st' = session st.
Proof.
  unfold analyzing_stage. destruct (stage_is st "analyzing"); [|now intros [= <-]].
  destruct ev; try (now intros [= <-]).
  cbn [session emit].
  destruct (_ !! "uploaded_image_data") as [[| |data|]|]; try discriminate.
  destruct (image_opens data); [|discriminate].
  destruct (send_message _ _ _ _) as [[w1 h] r]. discriminate.
Qed.

Lemma stage_is_session st st' name :
  session st' = session st -> stage_is st' name = stage_is st name.
Proof. unfold stage_is. now intros ->. Qed.

Lemma upload_skip ev st : stage_is st "upload" = false -> upload_stage ev st = (st, Completed).
Proof. unfold upload_stage. now intros ->. Qed.

Lemma analyzing_skip ev st :
  stage_is st "analyzing" = false -> analyzing ev st = (st, Completed).
Proof. unfold analyzing_stage. now intros ->. Qed.

Lemma conversation_skip fuel ev st :
  stage_is st "conversation" = false -> conversation fuel ev st = Some (st, Completed).
Proof. unfold conversation_stage. now intros ->. Qed.

Lemma results_skip ev st :
  stage_is st "results" = false -> results_stage ev st = (st, Completed).
Proof. unfold results_stage. now intros ->. Qed.

Lemma script_by_stage fuel ev s w g :
  at_stage s g ->
  script fuel ev s w
  = match g with
    | Upload => Some (upload_stage ev (start s w))
    | Analyzing => Some (analyzing ev (start s w))
    | Conversation => conversation fuel ev (start s w)
    | Results => Some (results_stage ev (start s w))
    end.
Proof.
  unfold at_stage. intros Hs. unfold main. fold (start s w).
  assert (St : forall st name, session st = session (start s w) ->
                 stage_is st name = pystr_eqb (str (stage_name g)) (str name)).
  { intros st name E. apply stage_is_at. rewrite E. exact Hs. }
  destruct g; cbn [stage_name] in St.
  - destruct (upload_stage ev (start s w)) as [st1 c] eqn:E.
    destruct c; try reflexivity.
    apply upload_completed in E.
    rewrite analyzing_skip by (now rewrite (St _ _ E)).
    rewrite conversation_skip by (now rewrite (St _ _ E)).
    rewrite results_skip by (now rewrite (St _ _ E)). reflexivity.
  - rewrite upload_skip by (now rewrite (St _ _ eq_refl)).
    destruct (analyzing ev (start s w)) as [st1 c] eqn:E.
    destruct c; try reflexivity.
    apply analyzing_completed in E.
    rewrite conversation_skip by (now rewrite (St _ _ E)).
    rewrite results_skip by (now rewrite (St _ _ E)). reflexivity.
  - rewrite upload_skip by (now rewrite (St _ _ eq_refl)).
    rewrite analyzing_skip by (now rewrite (St _ _ eq_refl)).
    destruct (conversation fuel ev (start s w)) as [[st1 c]|] eqn:E; [|reflexivity].
    destruct c; try reflexivity.
    apply conversation_completed in E as [E _].
    rewrite results_skip by (now rewrite (St _ _ E)). reflexivity.
  - rewrite upload_skip by (now rewrite (St _ _ eq_refl)).
    rewrite analyzing_skip by (now rewrite (St _ _ eq_refl)).
    rewrite conversation_skip by (now rewrite (St _ _ eq_refl)). reflexivity.
Qed.

Lemma stage_is_start s w g name :
  at_stage s g ->
  stage_is (start s w) name = pystr_eqb (str (stage_name g)) (str name).
Proof. intros H. now apply stage_is_at. Qed.

Lemma script_effects fuel ev s w g st c :
  at_stage s g ->
  script fuel ev s w = Some (st, c) ->
  (session st = init_session s /\ world st = w)
  \/ (g = Upload /\ c = Rerun /\ world st = w /\
      exists data, ev = FileUploaded data /\
        session st = <["analysis_stage" := SStr (str "analyzing")]>
                       (<["uploaded_image_data" := SBytes data]> (init_session s)))
  \/ (g = Analyzing /\ ev = AnalyzeClicked /\ c = Rerun /\ world st = advanced w /\
      exists data,
        init_session s !! "uploaded_image_data" = Some (SBytes data) /\
        session st
        = <["analysis_stage" := SStr (str "conversation")]>
            (<["messages" :=
                 SMessages
                   [{| role := str "user";
                       parts := [PartText analysis_prompt; PartImage data] |};
                    {| role := str "model"; parts := gemini (api_calls w) |}]]>
               (init_session s)))
  \/ (g = Conversation /\
      exists prompt queries,
        ev = PromptSubmitted prompt /\
        searches (world st) = searches w ++ queries /\
        api_calls (world st) = (api_calls w + 1 + length queries)%nat /\
        (session st = init_session s
         \/ (c = Rerun /\ exists history appended,
               init_session s !! "messages" = Some (SMessages history) /\
               length appended = (2 + 2 * length queries)%nat /\
               session st = <["messages" := SMessages (history ++ appended)]>
                              (init_session s))))
  \/ (g = Conversation /\ ev = CalculateClicked /\ world st = advanced w /\
      (session st = init_session s
       \/ (c = Rerun /\ exists text,
             session st = <["analysis_stage" := SStr (str "results")]>
                            (<["final_analysis" := SStr text]> (init_session s)))))
  \/ (g = Results /\ ev = StartOverClicked /\ c = Rerun /\ world st = w /\
      session st = ∅).
Proof.
  intros Hs. rewrite (script_by_stage _ _ _ _ _ Hs).
  pose proof (fun name => stage_is_start s w g name Hs) as St.
  destruct g; cbn [stage_name] in St.
  - unfold upload_stage. rewrite St.
    change (pystr_eqb (str "upload") (str "upload")) with true. cbv iota.
    destruct ev as [|data| | | |]; intros [= <- <-]; try (left; split; reflexivity).
    right; left. repeat split; eauto.
  - unfold analyzing_stage. rewrite St.
    change (pystr_eqb (str "analyzing") (str "analyzing")) with true. cbv iota.
    destruct ev; try (intros [= <- <-]; left; split; reflexivity).
    cbn [session emit start].
    destruct (_ !! "uploaded_image_data") as [[| |data|]|] eqn:Ei;
      try (intros [= <- <-]; left; split; reflexivity).
    destruct (image_opens data); [|intros [= <- <-]; left; split; reflexivity].
    unfold send_message. intros [= <- <-].
    right; right; left. repeat split. exists data. split; reflexivity.
  - unfold conversation_stage. rewrite St.
    change (pystr_eqb (str "conversation") (str "conversation")) with true. cbv iota.
    cbn [session emit start].
    destruct (_ !! "messages") as [[| | |history]|] eqn:Em;
      try (intros [= <- <-]; left; split; reflexivity).
    destruct (render_history is_system_text history) as [ui [u|e]];
      [|intros [= <- <-]; left; split; reflexivity].
    destruct ev as [|data| |[|ch prompt]| |];
      try (intros [= <- <-]; left; split; reflexivity).
    + cbn [world emit start].
      destruct (converse _ _ _ _ _ _ _ _) as [[[w1 h1] r]|] eqn:E; [|discriminate].
      unfold converse, send_message in E.
      apply loop_accounting in E as (qs & app' & Hq & Hh & Ha & Hl & Hr).
      cbn [searches api_calls] in *.
      destruct r as [u'|e]; intros [= <- <-]; right; right; right; left;
        (split; [reflexivity|]); exists (ch :: prompt), qs;
        (split; [reflexivity|]); (split; [exact Hq|]);
        (split; [cbn [world with_world assign]; lia|]).
      * right. split; [reflexivity|]. exists history. eexists.
        split; [reflexivity|]. split; [|rewrite Hh, <- app_assoc; reflexivity].
        rewrite length_app. cbn [length]. lia.
      * left. reflexivity.
    + cbn [world emit start]. unfold send_message.
      destruct (response_text _) as [text|e]; intros [= <- <-];
        right; right; right; right; left; repeat split; auto.
      right. split; [reflexivity|]. eauto.
  - unfold results_stage. rewrite St.
    change (pystr_eqb (str "results") (str "results")) with true. cbv iota.
    cbn [session start].
    destruct (_ !! "final_analysis") as [[raw| | |]|];
      try (intros [= <- <-]; left; split; reflexivity).
    + destruct (render_results raw) as [ui [e|]];
        [intros [= <- <-]; left; split; reflexivity|].
      destruct ev; intros [= <- <-]; try (left; split; reflexivity).
      right; right; right; right; right. repeat split.
      cbn [session emit]. apply delete_all_keys_empty.
    + destruct (render_results []) as [ui [e|]];
        [intros [= <- <-]; left; split; reflexivity|].
      destruct ev; intros [= <- <-]; try (left; split; reflexivity).
      right; right; right; right; right. repeat split.
      cbn [session emit]. apply delete_all_keys_empty.
Qed.

Lemma at_stage_lookup (s : gmap string sval) g :
  s !! "analysis_stage" = Some (SStr (str (stage_name g))) -> at_stage s g.
Proof. unfold at_stage. rewrite init_session_lookup. now intros ->. Qed.

(** X11: a run of the script leaves the stage where it is, or moves it
    one step forward on the event of that stage (upload, analyze,
    calculate), or, from the results stage on Start Over, empties the
    session, which is the upload stage again.  No stage is skipped and
    none is revisited without a reset. *)
Theorem stage_moves_forward fuel ev s w g st c :
  at_stage s g ->
  script fuel ev s w = Some (st, c) ->
  at_stage (session st) g
  \/ (exists g', next_stage g = Some g' /\ advances g ev = true /\ c = Rerun /\
                 at_stage (session st) g')
  \/ (g = Results /\ ev = StartOverClicked /\ c = Rerun /\ session st = ∅ /\
      at_stage (session st) Upload).
Proof.
  intros Hs H.
  assert (Same : forall k v, k <> "analysis_stage" ->
            at_stage (<[k := v]> (init_session s)) g).
  { intros k v Hk. apply at_stage_lookup. now rewrite lookup_insert_ne. }
  destruct (script_effects _ _ _ _ _ _ _ Hs H)
    as [[E _]|[(-> & -> & _ & data & -> & E)|[(-> & -> & -> & _ & data & _ & E)
       |[(-> & p & qs & -> & _ & _ & [E|(-> & h & app' & _ & _ & E)])
       |[(-> & -> & _ & [E|(-> & text & E)])|(-> & -> & -> & _ & E)]]]]];
    rewrite E.
  - left. unfold at_stage. now rewrite init_session_idem.
  - right; left. exists Analyzing. repeat split.
    apply at_stage_lookup. now rewrite lookup_insert_eq.
  - right; left. exists Conversation. repeat split.
    apply at_stage_lookup. now rewrite lookup_insert_eq.
  - left. unfold at_stage. now rewrite init_session_idem.
  - left. now apply Same.
  - left. unfold at_stage. now rewrite init_session_idem.
  - right; left. exists Results. repeat split.
    apply at_stage_lookup. now rewrite lookup_insert_eq.
  - right; right. repeat split.
Qed.

(** X12: the stored image changes only when a file is uploaded in the
    upload stage; in every other run it is what it was, until Start Over
    empties the session. *)
Theorem image_captured_once fuel ev s w g st c :
  at_stage s g ->
  script fuel ev s w = Some (st, c) ->
  session st !! "uploaded_image_data" = init_session s !! "uploaded_image_data"
  \/ (g = Upload /\ exists data, ev = FileUploaded data /\
        session st !! "uploaded_image_data" = Some (SBytes data))
  \/ (g = Results /\ ev = StartOverClicked /\ session st = ∅).
Proof.
  intros Hs H.
  destruct (script_effects _ _ _ _ _ _ _ Hs H)
    as [[E _]|[(-> & -> & _ & data & -> & E)|[(-> & -> & -> & _ & data & _ & E)
       |[(-> & p & qs & -> & _ & _ & [E|(-> & h & app' & _ & _ & E)])
       |[(-> & -> & _ & [E|(-> & text & E)])|(-> & -> & -> & _ & E)]]]]];
    rewrite E.
  - now left.
  - right; left. split; [reflexivity|]. exists data. split; [reflexivity|].
    rewrite lookup_insert_ne by discriminate. now rewrite lookup_insert_eq.
  - left. now rewrite !lookup_insert_ne by discriminate.
  - now left.
  - left. now rewrite !lookup_insert_ne by discriminate.
  - now left.
  - left. now rewrite !lookup_insert_ne by discriminate.
  - right; right. auto.
Qed.

(** X13: a run contacts the hosted services only on demand: one request
    and no search for Analyze and for Calculate, one request plus one per
    search for a chat prompt, and nothing at all otherwise. *)
Theorem services_called_on_demand fuel ev s w g st c :
  at_stage s g ->
  script fuel ev s w = Some (st, c) ->
  world st = w
  \/ (searches (world st) = searches w /\
      api_calls (world st) = S (api_calls w) /\
      ((g = Analyzing /\ ev = AnalyzeClicked)
       \/ (g = Conversation /\ ev = CalculateClicked)))
  \/ (g = Conversation /\
      exists prompt queries,
        ev = PromptSubmitted prompt /\
        searches (world st) = searches w ++ queries /\
        api_calls (world st) = (api_calls w + 1 + length queries)%nat).
Proof.
  intros Hs H.
  destruct (script_effects _ _ _ _ _ _ _ Hs H)
    as [[_ E]|[(_ & _ & E & _)|[(-> & -> & _ & E & _)
       |[(-> & p & qs & -> & Hq & Ha & _)
       |[(-> & -> & E & _)|(_ & _ & _ & E & _)]]]]].
  - now left.
  - now left.
  - right; left. rewrite E. cbn. auto.
  - right; right. split; [reflexivity|]. exists p, qs. auto.
  - right; left. rewrite E. cbn. auto.
  - now left.
Qed.

(** X14: the stored history changes in two ways only, apart from a
    reset: Analyze replaces it by the first exchange (the analysis prompt
    with the image, and the reply), and a chat prompt appends to it.
    Calculate leaves it untouched: the final prompt and the final answer
    are not recorded in it. *)
Theorem history_grows_by_appending fuel ev s w g st c history :
  at_stage s g ->
  init_session s !! "messages" = Some (SMessages history) ->
  script fuel ev s w = Some (st, c) ->
  session st !! "messages" = Some (SMessages history)
  \/ (g = Conversation /\
      exists prompt appended,
        ev = PromptSubmitted prompt /\ (2 <= length appended)%nat /\
        session st !! "messages" = Some (SMessages (history ++ appended)))
  \/ (g = Analyzing /\ ev = AnalyzeClicked /\
      exists data,
        init_session s !! "uploaded_image_data" = Some (SBytes data) /\
        session st !! "messages"
        = Some (SMessages
                  [{| role := str "user";
                      parts := [PartText analysis_prompt; PartImage data] |};
                   {| role := str "model"; parts := gemini (api_calls w) |}]))
  \/ (g = Results /\ ev = StartOverClicked /\ session st = ∅).
Proof.
  intros Hs Hm H.
  destruct (script_effects _ _ _ _ _ _ _ Hs H)
    as [[E _]|[(-> & -> & _ & data & -> & E)|[(-> & -> & -> & _ & data & Hd & E)
       |[(-> & p & qs & -> & _ & _ & [E|(-> & h & app' & Hh & Hl & E)])
       |[(-> & -> & _ & [E|(-> & text & E)])|(-> & -> & -> & _ & E)]]]]];
    rewrite E.
  - now left.
  - left. now rewrite !lookup_insert_ne by discriminate.
  - right; right; left. repeat split. exists data. split; [exact Hd|].
    rewrite lookup_insert_ne by discriminate. now rewrite lookup_insert_eq.
  - now left.
  - right; left. split; [reflexivity|]. exists p, app'.
    split; [reflexivity|]. split; [lia|].
    rewrite lookup_insert_eq. rewrite Hh in Hm. now injection Hm as ->.
  - now left.
  - left. now rewrite !lookup_insert_ne by discriminate.
  - right; right; right. auto.
Qed.



Lemma render_history_empty_parts history m :
  In m history -> parts m = [] ->
  exists ui, render_history is_system_text history = (ui, raise IndexError).
Proof.
  induction history as [|m' rest IH]; intros Hin Hp; [destruct Hin|].
  cbn [render_history].
  destruct (parts m') as [|p ps] eqn:E; [eauto|].
  destruct Hin as [->|Hin]; [congruence|].
  destruct (IH Hin Hp) as [ui ->]. eauto.
Qed.

Lemma init_session_insert k v s :
  init_session (<[k := v]> (init_session s)) = <[k := v]> (init_session s).
Proof.
  apply map_eq. intros k'. rewrite init_session_lookup.
  destruct (decide (k = k')) as [->|Hne].
  - now rewrite lookup_insert_eq.
  - rewrite lookup_insert_ne by assumption. rewrite init_session_lookup.
    destruct (s !! k'); [reflexivity|]. now destruct (fresh_session !! k').
Qed.

Lemma conversation_broken fuel ev (s : gmap string sval) w history m :
  s !! "analysis_stage" = Some (SStr (str "conversation")) ->
  s !! "messages" = Some (SMessages history) ->
  In m history -> parts m = [] ->
  exists ui,
    script fuel ev s w
    = Some ({| session := init_session s; world := w; screen := ui |},
            Crashed (Exn IndexError None)).
Proof.
  intros Hs Hm Hin Hp.
  rewrite (script_by_stage fuel ev s w Conversation)
    by (now apply at_stage_lookup).
  unfold conversation_stage, stage_is, start. cbn [session emit].
  rewrite !init_session_lookup, Hs, Hm.
  change (pystr_eqb (str "conversation") (str "conversation")) with true. cbv iota.
  destruct (render_history_empty_parts _ _ Hin Hp) as [ui ->].
  cbn [emit session world screen]. eauto.
Qed.

(** X16: a reply without fragments to a chat prompt is stored in the
    history, and the loop that shows the history then fails on it with an
    [IndexError]: the rerun after the prompt and every later run of the
    session end with that exception. *)
Theorem empty_reply_breaks_chat fuel s w history c prompt ev :
  s !! "analysis_stage" = Some (SStr (str "conversation")) ->
  s !! "messages" = Some (SMessages history) ->
  snd (render_history is_system_text history) = Ok tt ->
  gemini (api_calls w) = [] ->
  let stored :=
    <["messages" :=
        SMessages (history ++
                     [{| role := str "user"; parts := [PartText (c :: prompt)] |};
                      {| role := str "model"; parts := [] |}])]>
      (init_session s) in
  exists ui ui',
    user_action (S fuel) (PromptSubmitted (c :: prompt)) s w
    = Some ({| session := stored; world := advanced w; screen := ui |},
            Crashed (Exn IndexError None)) /\
    script fuel ev stored (advanced w)
    = Some ({| session := stored; world := advanced w; screen := ui' |},
            Crashed (Exn IndexError None)).
Proof.
  intros Hs Hm Hr Hg stored.
  assert (Hs' : stored !! "analysis_stage" = Some (SStr (str "conversation"))).
  { unfold stored. rewrite lookup_insert_ne by discriminate.
    now rewrite init_session_lookup, Hs. }
  assert (Hm' : stored !! "messages"
                = Some (SMessages
                          (history ++
                             [{| role := str "user"; parts := [PartText (c :: prompt)] |};
                              {| role := str "model"; parts := [] |}])))
    by (unfold stored; now rewrite lookup_insert_eq).
  assert (Hin : In {| role := str "model"; parts := [] |}
                  (history ++
                     [{| role := str "user"; parts := [PartText (c :: prompt)] |};
                      {| role := str "model"; parts := [] |}]))
    by (apply in_or_app; right; right; now left).
  assert (Hi : init_session stored = stored) by apply init_session_insert.
  assert (Broken : forall n ev', exists ui,
            script n ev' stored (advanced w)
            = Some ({| session := stored; world := advanced w; screen := ui |},
                    Crashed (Exn IndexError None))).
  { intros n ev'.
    destruct (conversation_broken n ev' stored (advanced w) _ _ Hs' Hm' Hin eq_refl)
      as [ui E].
    exists ui. now rewrite E, Hi. }
  destruct (Broken (S fuel) Idle) as [ui E1]. destruct (Broken fuel ev) as [ui' E2].
  exists ui, ui'. split; [|exact E2].
  unfold run.
  rewrite (script_by_stage (S fuel) _ s w Conversation)
    by (now apply at_stage_lookup).
  unfold conversation_stage, stage_is, start. cbn [session emit].
  rewrite !init_session_lookup, Hs, Hm.
  change (pystr_eqb (str "conversation") (str "conversation")) with true. cbv iota.
  destruct (render_history is_system_text history) as [ui0 r0]. cbn [snd] in Hr.
  subst r0. cbn [world emit].
  unfold converse, send_message. cbn [tool_loop]. unfold dispatch.
  cbn [parts api_calls searches]. rewrite Hg.
  cbn [assign with_world session world emit screen].
  exact E1.
Qed.

Lemma bind_query_unbound kwargs :
  (forall v, kwargs <> [(str "query", v)]) ->
  WebSearch.bind_query kwargs = raise TypeError.
Proof.
  intros H. unfold WebSearch.bind_query.
  destruct kwargs as [|[k v] [|? ?]]; try reflexivity.
  unfold pystr_eqb. destruct (decide (k = str "query")) as [->|Hne].
  - now destruct (H v).
  - now rewrite bool_decide_eq_false_2.
Qed.

(** X10: when the model calls [perform_web_search] with anything but the
    single argument [query], the run ends with an uncaught [TypeError]; one
    request has been made, no search, and the session still holds the
    history from before the prompt: the exchange is lost. *)
Theorem bad_arguments_lose_exchange fuel s w history c prompt fc rest :
  s !! "analysis_stage" = Some (SStr (str "conversation")) ->
  s !! "messages" = Some (SMessages history) ->
  snd (render_history is_system_text history) = Ok tt ->
  gemini (api_calls w) = PartFunctionCall fc :: rest ->
  fc_name fc = str "perform_web_search" ->
  (forall v, fc_args fc <> [(str "query", v)]) ->
  exists ui,
    user_action (S fuel) (PromptSubmitted (c :: prompt)) s w
    = Some ({| session := init_session s; world := advanced w; screen := ui |},
            Crashed (Exn TypeError None)).
Proof.
  intros Hs Hm Hr Hg Hname Hargs.
  unfold run.
  rewrite (script_by_stage (S fuel) _ s w Conversation)
    by (now apply at_stage_lookup).
  unfold conversation_stage, stage_is, start. cbn [session emit].
  rewrite !init_session_lookup, Hs, Hm.
  change (pystr_eqb (str "conversation") (str "conversation")) with true. cbv iota.
  destruct (render_history is_system_text history) as [ui0 r0]. cbn [snd] in Hr.
  subst r0. cbn [world emit].
  unfold converse, send_message. cbn [tool_loop]. unfold dispatch.
  cbn [parts api_calls searches]. rewrite Hg. cbn [function_call].
  rewrite lookup_tools, Hname, pystr_eqb_refl.
  unfold Chat.perform_web_search. rewrite (bind_query_unbound _ Hargs).
  cbn [with_world session world emit screen raise]. eauto.
Qed.

(** X17: the messages that carry a tool call or a tool result are shown
    in the chat like any other user or model message, as a bubble with an
    empty text. *)
Theorem tool_turns_shown_empty history ui m :
  is_system_text [] = false ->
  render_history is_system_text history = (ui, Ok tt) ->
  In m history ->
  is_call m = true \/ is_response m = true ->
  role m = str "user" \/ role m = str "model" ->
  In (ChatMessage (role m) []) ui.
Proof.
  intros Hsys. revert ui.
  induction history as [|m' rest IH]; intros ui Hr Hin Hk Hrole; [destruct Hin|].
  cbn [render_history] in Hr.
  destruct (parts m') as [|p ps] eqn:Ep; [discriminate|].
  destruct (render_history is_system_text rest) as [ui' r'] eqn:Er.
  injection Hr as <- ->.
  destruct Hin as [->|Hin].
  - apply in_or_app. left.
    assert (Ht : part_text p = []).
    { unfold is_call, is_response in Hk. rewrite Ep in Hk.
      destruct p; cbn in Hk; try reflexivity; destruct Hk; discriminate. }
    rewrite Ht, Hsys.
    destruct Hrole as [-> | ->]; now left.
  - apply in_or_app. right. now apply IH.
Qed.

End StageFacts.

(** ** The JSON encoder and decoder *)

Module RoundTrip.
Import Json.

Ltac ndiv := zify; Z.to_euclidean_division_equations; lia.

Lemma hex_value_digit n : (n < 16)%N -> hex_value (hex_digit n) = Some n.
Proof.
  intros H. unfold hex_value, hex_digit.
  destruct (N.ltb_spec n 10).
  - destruct (N.leb_spec 48 (48 + n)); [|lia].
    destruct (N.leb_spec (48 + n) 57); [|lia]. cbn [andb]. f_equal. lia.
  - destruct (N.leb_spec 48 (87 + n)); [|lia].
    destruct (N.leb_spec (87 + n) 57); [lia|]. cbn [andb].
    destruct (N.leb_spec 97 (87 + n)); [|lia].
    destruct (N.leb_spec (87 + n) 102); [|lia]. cbn [andb]. f_equal. lia.
Qed.

Lemma hex4_escape u :
  (u < 65536)%N ->
  hex4 (hex_digit (u / 4096 mod 16)) (hex_digit (u / 256 mod 16))
       (hex_digit (u / 16 mod 16)) (hex_digit (u mod 16)) = Some u.
Proof.
  intros H. unfold hex4.
  rewrite !hex_value_digit by (apply N.mod_lt; discriminate).
  f_equal. ndiv.
Qed.

Lemma scan_literal c r acc :
  (c =? 34)%N = false -> (c =? 92)%N = false -> (c <=? 31)%N = false ->
  scanstring (c :: r) acc = scanstring r (c :: acc).
Proof. intros H1 H2 H3. cbn [scanstring]. now rewrite H1, H2, H3. Qed.

Lemma scan_simple e x r acc :
  simple_escape e = Some x -> (e =? 117)%N = false ->
  scanstring (92%N :: e :: r) acc = scanstring r (x :: acc).
Proof.
  intros H1 H2. cbn [scanstring].
  change (92 =? 34)%N with false. change (92 =? 92)%N with true. cbv iota.
  now rewrite H2, H1.
Qed.

Lemma scan_u u h1 h2 h3 h4 r2 acc :
  hex4 h1 h2 h3 h4 = Some u -> is_high_surrogate u = false ->
  nonempty r2 = true ->
  scanstring (92%N :: 117%N :: h1 :: h2 :: h3 :: h4 :: r2) acc
  = scanstring r2 (u :: acc).
Proof.
  intros H1 H2 H3. cbn [scanstring].
  change (92 =? 34)%N with false. change (92 =? 92)%N with true.
  change (117 =? 117)%N with true. cbv iota.
  rewrite H3, H1. cbn [negb]. cbv iota. rewrite H2. cbn [andb].
  destruct r2 as [|b [|v [|k1 [|k2 [|k3 [|k4 r3]]]]]]; reflexivity.
Qed.

Lemma scan_pair hi lo h1 h2 h3 h4 k1 k2 k3 k4 r3 acc :
  hex4 h1 h2 h3 h4 = Some hi -> hex4 k1 k2 k3 k4 = Some lo ->
  is_high_surrogate hi = true -> is_low_surrogate lo = true ->
  nonempty r3 = true ->
  scanstring (92%N :: 117%N :: h1 :: h2 :: h3 :: h4
                :: 92%N :: 117%N :: k1 :: k2 :: k3 :: k4 :: r3) acc
  = scanstring r3 (join_surrogates hi lo :: acc).
Proof.
  intros H1 H2 H3 H4 H5. cbn [scanstring].
  change (92 =? 34)%N with false. change (92 =? 92)%N with true.
  change (117 =? 117)%N with true. cbv iota.
  cbn [nonempty negb]. cbv iota. rewrite H1, H3, H5. cbn [andb]. cbv iota.
  now rewrite H2, H4.
Qed.

Lemma escape_char_scan c tail acc :
  scalar_char c = true -> nonempty tail = true ->
  scanstring (escape_char c ++ tail) acc = scanstring tail (c :: acc).
Proof.
  intros Hc Ht. unfold escape_char.
  destruct (N.eqb_spec c 34) as [->|H34]; [now apply scan_simple|].
  destruct (N.eqb_spec c 92) as [->|H92]; [now apply scan_simple|].
  destruct (N.eqb_spec c 10) as [->|H10]; [now apply scan_simple|].
  destruct (N.eqb_spec c 13) as [->|H13]; [now apply scan_simple|].
  destruct (N.eqb_spec c 9) as [->|H9]; [now apply scan_simple|].
  destruct (N.eqb_spec c 8) as [->|H8]; [now apply scan_simple|].
  destruct (N.eqb_spec c 12) as [->|H12]; [now apply scan_simple|].
  destruct (N.leb_spec 32 c) as [Hlo|Hlo]; cbn [andb].
  - destruct (N.leb_spec c 126) as [Hhi|Hhi].
    + cbn [app]. apply scan_literal.
      * now apply N.eqb_neq.
      * now apply N.eqb_neq.
      * apply N.leb_gt. lia.
    + destruct (N.leb_spec 65536 c) as [Hbig|Hsmall].
      * unfold scalar_char in Hc.
        assert (Hmax : (c < 1114112)%N).
        { destruct (N.ltb_spec c 55296); [lia|]. cbn [orb] in Hc.
          apply andb_true_iff in Hc as [_ Hc]. now apply N.ltb_lt. }
        unfold u_escape. cbn [app].
        rewrite (scan_pair (55296 + (c - 65536) / 1024)
                           (56320 + (c - 65536) mod 1024)).
        -- f_equal. f_equal. unfold join_surrogates. ndiv.
        -- apply hex4_escape. ndiv.
        -- apply hex4_escape. ndiv.
        -- unfold is_high_surrogate. apply andb_true_iff. split; apply N.leb_le; ndiv.
        -- unfold is_low_surrogate. apply andb_true_iff. split; apply N.leb_le; ndiv.
        -- exact Ht.
      * unfold u_escape. cbn [app]. apply scan_u; [now apply hex4_escape| |exact Ht].
        unfold scalar_char in Hc. unfold is_high_surrogate.
        destruct (N.ltb_spec c 55296).
        -- destruct (N.leb_spec 55296 c); [lia|reflexivity].
        -- cbn [orb] in Hc. apply andb_true_iff in Hc as [Hc _].
           apply N.ltb_lt in Hc.
           destruct (N.leb_spec c 56319); [lia|]. now rewrite andb_false_r.
  - destruct (N.leb_spec 65536 c) as [Hbig|Hsmall]; [lia|].
    unfold u_escape. cbn [app]. apply scan_u; [apply hex4_escape; lia| |exact Ht].
    unfold is_high_surrogate. destruct (N.leb_spec 55296 c); [lia|reflexivity].
Qed.

Lemma encode_scan s : forall acc rest,
  forallb scalar_char s = true ->
  scanstring (flat_map escape_char s ++ 34%N :: rest) acc = Ok (rev acc ++ s, rest).
Proof.
  induction s as [|c s IH]; intros acc rest H.
  - cbn [flat_map app scanstring]. change (34 =? 34)%N with true. cbv iota.
    now rewrite app_nil_r.
  - cbn [forallb] in H. apply andb_true_iff in H as [Hc Hs].
    cbn [flat_map]. rewrite <- app_assoc.
    rewrite escape_char_scan; [|exact Hc|now destruct (flat_map escape_char s)].
    rewrite IH by exact Hs. cbn [rev]. now rewrite <- app_assoc.
Qed.

Lemma fold_of_uint_acc d : forall acc,
  fold_left (fun a c => (a * 10 + (c - 48))%N) (uint_digits d) (N.pos acc)
  = N.pos (Pos.of_uint_acc d acc).
Proof.
  induction d; intros acc; cbn [uint_digits fold_left Pos.of_uint_acc];
    [reflexivity|..];
    (etransitivity; [|apply IHd]); f_equal; lia.
Qed.

Lemma fold_of_uint d :
  fold_left (fun a c => (a * 10 + (c - 48))%N) (uint_digits d) 0%N = Pos.of_uint d.
Proof.
  induction d; cbn [uint_digits fold_left Pos.of_uint]; [reflexivity|exact IHd|..];
    apply (fold_of_uint_acc d).
Qed.

Lemma digits_value_N_digits n : digits_value (N_digits n) = n.
Proof.
  unfold digits_value, N_digits. rewrite fold_of_uint.
  apply DecimalN.Unsigned.of_to.
Qed.

Lemma uint_digits_all d : forallb is_digit (uint_digits d) = true.
Proof. induction d; cbn [uint_digits forallb]; [reflexivity|..]; exact IHd. Qed.

Lemma nzhead_not_D0 d u : Decimal.nzhead d <> Decimal.D0 u.
Proof. induction d; cbn [Decimal.nzhead]; try discriminate. exact IHd. Qed.

(** The decimal text of a natural number: a lone zero, or digits that
    start with a digit other than zero. *)
Lemma N_digits_shape n :
  N_digits n = [48%N]
  \/ exists c ds, N_digits n = c :: ds /\ ((49 <=? c) && (c <=? 57))%N = true.
Proof.
  unfold N_digits.
  pose proof (DecimalN.Unsigned.to_of (N.to_uint n)) as H.
  rewrite DecimalN.Unsigned.of_to in H.
  destruct (N.to_uint n) as [|u|u|u|u|u|u|u|u|u|u] eqn:E;
    try (right; eexists _, _; split; reflexivity).
  - discriminate.
  - unfold Decimal.unorm in H. cbn [Decimal.nzhead] in H.
    destruct (Decimal.nzhead u) eqn:Eu; try discriminate.
    + injection H as Hu. subst u. now left.
    + now destruct (nzhead_not_D0 u u0).
Qed.

Lemma span_digits_app ds rest :
  forallb is_digit ds = true -> terminator rest = true ->
  span_digits (ds ++ rest) = (ds, rest).
Proof.
  intros Hd Ht. induction ds as [|c ds IH]; cbn [app].
  - destruct rest as [|c r]; [reflexivity|]. cbn [span_digits].
    replace (is_digit c) with false; [reflexivity|].
    cbn [terminator] in Ht. unfold is_digit.
    apply orb_true_iff in Ht as [Ht|Ht]; [apply orb_true_iff in Ht as [Ht|Ht]|];
      apply N.eqb_eq in Ht; subst c; reflexivity.
  - cbn [forallb] in Hd. apply andb_true_iff in Hd as [Hc Hd].
    cbn [span_digits]. rewrite Hc, (IH Hd). reflexivity.
Qed.

Lemma match_frac_terminator rest :
  terminator rest = true -> match_frac rest = (None, rest).
Proof.
  intros Ht. unfold match_frac. destruct rest as [|c [|d r]]; try reflexivity.
  replace (c =? 46)%N with false; [reflexivity|].
  cbn [terminator] in Ht.
  apply orb_true_iff in Ht as [Ht|Ht]; [apply orb_true_iff in Ht as [Ht|Ht]|];
    apply N.eqb_eq in Ht; subst c; reflexivity.
Qed.

Lemma match_exp_terminator rest :
  terminator rest = true -> match_exp rest = (None, rest).
Proof.
  intros Ht. unfold match_exp. destruct rest as [|c r]; try reflexivity.
  replace ((c =? 101) || (c =? 69))%N with false; [reflexivity|].
  cbn [terminator] in Ht.
  apply orb_true_iff in Ht as [Ht|Ht]; [apply orb_true_iff in Ht as [Ht|Ht]|];
    apply N.eqb_eq in Ht; subst c; reflexivity.
Qed.

Lemma match_number_digits (neg : bool) n rest :
  terminator rest = true ->
  match_number ((if neg then [45%N] else []) ++ N_digits n ++ rest)
  = Some (number_value neg (N_digits n) None None, rest).
Proof.
  intros Ht.
  assert (Hall : forallb is_digit (N_digits n) = true) by apply uint_digits_all.
  assert (Body : forall s : pystr,
            match s with
            | c :: r => if (c =? 45)%N then (true, r) else (false, s)
            | [] => (false, [])
            end = (neg, N_digits n ++ rest) ->
            match_number s = Some (number_value neg (N_digits n) None None, rest)).
  { intros s Hs. unfold match_number. rewrite Hs.
    destruct (N_digits_shape n) as [E|(c & ds & E & Hc)]; rewrite E in *.
    - cbn [app]. change ((49 <=? 48) && (48 <=? 57))%N with false.
      change (48 =? 48)%N with true. cbv iota.
      now rewrite (match_frac_terminator _ Ht), (match_exp_terminator _ Ht).
    - cbn [app]. rewrite Hc. cbn [forallb] in Hall.
      apply andb_true_iff in Hall as [_ Hall].
      rewrite (span_digits_app _ _ Hall Ht).
      now rewrite (match_frac_terminator _ Ht), (match_exp_terminator _ Ht). }
  apply Body. destruct neg; cbn [app]; [reflexivity|].
  destruct (N_digits_shape n) as [E|(c & ds & E & Hc)]; rewrite E; cbn [app].
  - reflexivity.
  - replace (c =? 45)%N with false; [reflexivity|].
    apply andb_true_iff in Hc as [Hc _]. apply N.leb_le in Hc.
    symmetry. apply N.eqb_neq. lia.
Qed.

(** Induction on values, with the hypothesis for every element of an
    array and every member of an object. *)
Section PyobjInduction.

Variable P : pyobj -> Prop.
Hypothesis HNone : P PNone.
Hypothesis HBool : forall b, P (PBool b).
Hypothesis HInt : forall z, P (PInt z).
Hypothesis HFloat : forall f, P (PFloat f).
Hypothesis HStr : forall s, P (PStr s).
Hypothesis HList : forall l, Forall P l -> P (PList l).
Hypothesis HDict : forall d, Forall (fun kv => P (snd kv)) d -> P (PDict d).

Fixpoint pyobj_induction (v : pyobj) : P v :=
  match v with
  | PNone => HNone
  | PBool b => HBool b
  | PInt z => HInt z
  | PFloat f => HFloat f
  | PStr s => HStr s
  | PList l =>
      HList l ((fix go (l : list pyobj) : Forall P l :=
                  match l with
                  | [] => @List.Forall_nil _ P
                  | x :: r => @List.Forall_cons _ P x r (pyobj_induction x) (go r)
                  end) l)
  | PDict d =>
      HDict d ((fix go (d : list (pystr * pyobj))
                  : Forall (fun kv => P (snd kv)) d :=
                  match d with
                  | [] => @List.Forall_nil _ _
                  | kv :: r =>
                      @List.Forall_cons _ (fun kv => P (snd kv)) kv r
                        (pyobj_induction (snd kv)) (go r)
                  end) d)
  end.

End PyobjInduction.

Section Decode.

Variable float_repr : pyfloat -> pystr.

Lemma dumps_list l :
  dumps float_repr (PList l)
  = let* body := dumps_items float_repr l in Ok (str "[" ++ body ++ str "]").
Proof. reflexivity. Qed.

Lemma dumps_dict d :
  dumps float_repr (PDict d)
  = let* body := dumps_members float_repr d in Ok (str "{" ++ body ++ str "}").
Proof. reflexivity. Qed.

Lemma value_start_facts c :
  value_start c = true ->
  is_ws c = false /\ (c =? 93)%N = false /\ (c =? 125)%N = false
  /\ (c =? BOM)%N = false.
Proof.
  unfold value_start. intros H.
  repeat (apply orb_true_iff in H as [H|H]);
    try (apply N.eqb_eq in H; subst c; repeat split; reflexivity).
  unfold is_digit in H. apply andb_true_iff in H as [H1 H2].
  apply N.leb_le in H1, H2. unfold is_ws, BOM.
  repeat split; repeat (apply orb_false_iff; split); apply N.eqb_neq; lia.
Qed.

Lemma skip_ws_start c r : value_start c = true -> skip_ws (c :: r) = c :: r.
Proof.
  intros H. apply value_start_facts in H as (H & _). cbn [skip_ws]. now rewrite H.
Qed.

Lemma str_of_int_text z t :
  str_of_int z = Ok t ->
  t = (if z <? 0 then [45%N] else []) ++ N_digits (Z.abs_N z) /\
  (int_max_str_digits <? N.of_nat (length (N_digits (Z.abs_N z))))%N = false.
Proof.
  unfold str_of_int. destruct (_ <? _)%N; [discriminate|].
  intros [= <-]. split; [|reflexivity]. now destruct (z <? 0).
Qed.

Lemma N_digits_head n :
  exists c ds, N_digits n = c :: ds /\ is_digit c = true.
Proof.
  destruct (N_digits_shape n) as [E|(c & ds & E & Hc)].
  - exists 48%N, []. now split.
  - exists c, ds. split; [exact E|].
    apply andb_true_iff in Hc as [H1 H2]. apply N.leb_le in H1, H2.
    unfold is_digit. apply andb_true_iff. split; apply N.leb_le; lia.
Qed.

Lemma dumps_head v t :
  clean v = true -> dumps float_repr v = Ok t ->
  exists c t', t = c :: t' /\ value_start c = true.
Proof.
  destruct v as [|[|]|z|[neg m e|[|]|]|s|l|d]; cbn [clean]; try discriminate;
    intros _.
  - intros [= <-]. now exists 110%N, (str "ull").
  - intros [= <-]. now exists 116%N, (str "rue").
  - intros [= <-]. now exists 102%N, (str "alse").
  - cbn [dumps]. intros H. apply str_of_int_text in H as [-> _].
    destruct (N_digits_head (Z.abs_N z)) as (c & ds & -> & Hc).
    destruct (z <? 0); cbn [app]; eexists _, _; (split; [reflexivity|]).
    + reflexivity.
    + unfold value_start. rewrite Hc. now rewrite !orb_true_r.
  - intros [= <-]. now exists 45%N, (str "Infinity").
  - intros [= <-]. now exists 73%N, (str "nfinity").
  - intros [= <-]. now exists 78%N, (str "aN").
  - intros [= <-]. unfold encode_str. now eexists _, _.
  - rewrite dumps_list. destruct (dumps_items float_repr l); [|discriminate].
    intros [= <-]. now eexists _, _.
  - rewrite dumps_dict. destruct (dumps_members float_repr d); [|discriminate].
    intros [= <-]. now eexists _, _.
Qed.

(** What [scan_once] does with the text of a value followed by a comma, a
    closing bracket or nothing: it reads the value back, when the fuel
    suffices. *)
Definition reads_back (v : pyobj) : Prop :=
  forall t, clean v = true -> dumps float_repr v = Ok t ->
  forall n rest, terminator rest = true ->
    scan_once n (t ++ rest) = None \/ scan_once n (t ++ rest) = Some (Ok (v, rest)).

Lemma scan_atom_number c r :
  (is_digit c = true \/ (c = 45%N /\ exists d r', r = d :: r' /\ is_digit d = true)) ->
  scan_atom (c :: r)
  = match match_number (c :: r) with
    | Some (Ok v, rest) => Ok (v, rest)
    | Some (Raise e, _) => Raise e
    | None => decode_error
    end.
Proof.
  intros H. unfold scan_atom.
  change (str "null") with [110; 117; 108; 108]%N.
  change (str "true") with [116; 114; 117; 101]%N.
  change (str "false") with [102; 97; 108; 115; 101]%N.
  change (str "NaN") with [78; 97; 78]%N.
  change (str "Infinity") with [73; 110; 102; 105; 110; 105; 116; 121]%N.
  change (str "-Infinity") with [45; 73; 110; 102; 105; 110; 105; 116; 121]%N.
  cbn [strip_prefix].
  destruct H as [H|(-> & d & r' & -> & H)].
  - unfold is_digit in H. apply andb_true_iff in H as [H1 H2].
    apply N.leb_le in H1, H2.
    repeat match goal with
    | |- context [(?k =? c)%N] =>
        destruct (N.eqb_spec k c); [lia|]
    end.
    reflexivity.
  - change (110 =? 45)%N with false. change (116 =? 45)%N with false.
    change (102 =? 45)%N with false. change (78 =? 45)%N with false.
    change (73 =? 45)%N with false. change (45 =? 45)%N with true. cbv iota.
    unfold is_digit in H. apply andb_true_iff in H as [H1 H2].
    apply N.leb_le in H1, H2.
    destruct (N.eqb_spec 73 d); [lia|]. reflexivity.
Qed.

Lemma reads_back_int z : reads_back (PInt z).
Proof.
  intros t _ H n rest Ht. cbn [dumps] in H.
  apply str_of_int_text in H as [-> Hlen].
  destruct n as [|n]; [now left|]. right.
  pose proof (match_number_digits (z <? 0) (Z.abs_N z) rest Ht) as M.
  rewrite <- app_assoc.
  destruct (N_digits_head (Z.abs_N z)) as (c & ds & E & Hc).
  assert (Hv : number_value (z <? 0) (N_digits (Z.abs_N z)) None None
               = Ok (PInt z)).
  { unfold number_value. rewrite Hlen, digits_value_N_digits. do 2 f_equal.
    unfold signed. destruct (Z.ltb_spec z 0); lia. }
  rewrite Hv in M.
  assert (Hd : forall k, is_digit k = true ->
             (k =? 34)%N = false /\ (k =? 123)%N = false /\ (k =? 91)%N = false).
  { intros k Hk. unfold is_digit in Hk. apply andb_true_iff in Hk as [H1 H2].
    apply N.leb_le in H1, H2. repeat split; apply N.eqb_neq; lia. }
  destruct (z <? 0).
  - rewrite E in M |- *. cbn [app] in M |- *. cbn [scan_once].
    change (45 =? 34)%N with false. change (45 =? 123)%N with false.
    change (45 =? 91)%N with false. cbv iota.
    rewrite scan_atom_number by (right; split; [reflexivity|]; eauto).
    now rewrite M.
  - rewrite E in M |- *. cbn [app] in M |- *. cbn [scan_once].
    destruct (Hd c Hc) as (-> & -> & ->).
    rewrite scan_atom_number by now left.
    now rewrite M.
Qed.

Lemma reads_back_str s : reads_back (PStr s).
Proof.
  intros t Hc [= <-] n rest _. cbn [clean] in Hc.
  destruct n as [|n]; [now left|]. right.
  unfold encode_str, DQUOTE. cbn [app scan_once].
  change (34 =? 34)%N with true. cbv iota.
  rewrite <- app_assoc. cbn [app].
  now rewrite (encode_scan s [] rest Hc).
Qed.

Lemma reads_back_leaf v :
  match v with PNone | PBool _ | PFloat _ => True | _ => False end ->
  reads_back v.
Proof.
  intros Hv t Hc H n rest _.
  destruct n as [|n]; [now left|]. right.
  destruct v as [|[|]|z|[neg m e|[|]|]|s|l|d]; try destruct Hv; try discriminate;
    apply Ok_inj in H; subst t; reflexivity.
Qed.

Lemma dumps_items_one x : dumps_items float_repr [x] = dumps float_repr x.
Proof. reflexivity. Qed.

Lemma dumps_items_more x y r :
  dumps_items float_repr (x :: y :: r)
  = let* a := dumps float_repr x in
    let* b := dumps_items float_repr (y :: r) in Ok (a ++ str ", " ++ b).
Proof. reflexivity. Qed.

Lemma dumps_members_one k v :
  dumps_members float_repr [(k, v)]
  = let* a := dumps float_repr v in Ok (encode_str k ++ str ": " ++ a).
Proof. reflexivity. Qed.

Lemma dumps_members_more k v kv r :
  dumps_members float_repr ((k, v) :: kv :: r)
  = let* a := dumps float_repr v in
    let* b := dumps_members float_repr (kv :: r) in
    Ok (encode_str k ++ str ": " ++ a ++ str ", " ++ b).
Proof. reflexivity. Qed.

Lemma items_head x r body :
  forallb clean (x :: r) = true ->
  dumps_items float_repr (x :: r) = Ok body ->
  exists c b', body = c :: b' /\ value_start c = true.
Proof.
  cbn [forallb]. intros [Hx _]%andb_true_iff.
  destruct r as [|y r].
  - rewrite dumps_items_one. now apply dumps_head.
  - rewrite dumps_items_more. intros H.
    apply bind_ok in H as (a & Ha & H). apply bind_ok in H as (b & _ & H).
    apply Ok_inj in H. subst body.
    destruct (dumps_head _ _ Hx Ha) as (c & a' & -> & Hc).
    exists c, (a' ++ str ", " ++ b). now split.
Qed.

Lemma members_head k v r body :
  dumps_members float_repr ((k, v) :: r) = Ok body ->
  exists b', body = 34%N :: b'.
Proof.
  destruct r as [|kv r].
  - rewrite dumps_members_one. intros H. apply bind_ok in H as (a & _ & H).
    apply Ok_inj in H. subst body. now eexists.
  - rewrite dumps_members_more. intros H.
    apply bind_ok in H as (a & _ & H). apply bind_ok in H as (b & _ & H).
    apply Ok_inj in H. subst body. now eexists.
Qed.

Lemma parse_array_items l :
  Forall reads_back l -> forallb clean l = true -> l <> [] ->
  forall body, dumps_items float_repr l = Ok body ->
  forall n acc rest,
    parse_array n (body ++ 93%N :: rest) acc = None
    \/ parse_array n (body ++ 93%N :: rest) acc
       = Some (Ok (PList (acc ++ l), rest)).
Proof.
  induction l as [|x r IH]; intros HF Hc Hne body Hb n acc rest; [contradiction|].
  destruct n as [|n]; [now left|].
  apply Forall_cons_1 in HF as [Hx HF].
  pose proof Hc as Hc'. cbn [forallb] in Hc'.
  apply andb_true_iff in Hc' as [Hcx Hcr].
  destruct r as [|y r].
  - rewrite dumps_items_one in Hb. cbn [parse_array].
    destruct (Hx body Hcx Hb n (93%N :: rest) eq_refl) as [-> | ->];
      [now left|right].
    reflexivity.
  - rewrite dumps_items_more in Hb.
    apply bind_ok in Hb as (a & Ha & Hb). apply bind_ok in Hb as (b & Hb & E).
    apply Ok_inj in E. subst body.
    destruct (items_head _ _ _ Hcr Hb) as (c & b' & -> & Hstart).
    change (str ", ") with [44; 32]%N.
    replace ((a ++ [44; 32]%N ++ c :: b') ++ 93%N :: rest)
      with (a ++ 44%N :: 32%N :: c :: b' ++ 93%N :: rest)
      by (rewrite <- !app_assoc; reflexivity).
    cbn [parse_array].
    destruct (Hx a Hcx Ha n (44%N :: 32%N :: c :: b' ++ 93%N :: rest) eq_refl)
      as [-> | ->]; [now left|].
    change (skip_ws (44%N :: 32%N :: c :: b' ++ 93%N :: rest))
      with (44%N :: 32%N :: c :: b' ++ 93%N :: rest).
    change (44 =? 93)%N with false. change (44 =? 44)%N with true. cbv iota.
    change (skip_ws (32%N :: c :: b' ++ 93%N :: rest))
      with (skip_ws (c :: b' ++ 93%N :: rest)).
    rewrite (skip_ws_start _ _ Hstart).
    destruct (IH HF Hcr ltac:(discriminate) _ Hb n (acc ++ [x]) rest)
      as [H|H]; cbn [app] in H; rewrite H; [now left|right].
    now rewrite <- app_assoc.
Qed.

Lemma dict_set_fresh acc k v :
  k ∉ map fst acc -> dict_set acc k v = acc ++ [(k, v)].
Proof.
  induction acc as [|[k' v'] acc IH]; intros H; cbn [dict_set app]; [reflexivity|].
  cbn [map fst] in H. apply not_elem_of_cons in H as [Hne H].
  unfold pystr_eqb. rewrite bool_decide_eq_false_2 by congruence.
  now rewrite IH.
Qed.

Lemma parse_object_members d :
  Forall (fun kv => reads_back (snd kv)) d ->
  forallb (fun kv => forallb scalar_char (fst kv) && clean (snd kv)) d = true ->
  d <> [] ->
  forall body, dumps_members float_repr d = Ok body ->
  forall n acc rest,
    NoDup (map fst acc ++ map fst d) ->
    parse_object n (body ++ 125%N :: rest) acc = None
    \/ parse_object n (body ++ 125%N :: rest) acc
       = Some (Ok (PDict (acc ++ d), rest)).
Proof.
  induction d as [|[k v] r IH]; intros HF Hc Hne body Hb n acc rest Hnd;
    [contradiction|].
  destruct n as [|n]; [now left|].
  apply Forall_cons_1 in HF as [Hv HF]. cbn [snd] in Hv.
  cbn [forallb fst snd] in Hc.
  apply andb_true_iff in Hc as [Hkv Hcr]. apply andb_true_iff in Hkv as [Hk Hcv].
  assert (Hfresh : k ∉ map fst acc).
  { cbn [map fst] in Hnd. apply NoDup_app in Hnd as (_ & Hd & _).
    intros Hin. apply (Hd _ Hin). now left. }
  assert (Hset : dict_set acc k v = acc ++ [(k, v)]) by now apply dict_set_fresh.
  assert (Step : forall a tail,
            dumps float_repr v = Ok a -> terminator tail = true ->
            parse_object (S n)
              ((encode_str k ++ str ": " ++ a) ++ tail) acc
            = match scan_once n (a ++ tail) with
              | None => None
              | Some (Raise e) => Some (Raise e)
              | Some (Ok (v', rest1)) =>
                  match skip_ws rest1 with
                  | c :: r2 =>
                      if (c =? 125)%N
                      then Some (Ok (PDict (dict_set acc k v'), r2))
                      else if (c =? 44)%N
                      then parse_object n (skip_ws r2) (dict_set acc k v')
                      else Some decode_error
                  | [] => Some decode_error
                  end
              end).
  { intros a tail Ha Ht.
    destruct (dumps_head _ _ Hcv Ha) as (c & a' & -> & Hstart).
    unfold encode_str, DQUOTE. change (str ": ") with [58; 32]%N.
    replace (((34%N :: flat_map escape_char k ++ [34%N]) ++ [58; 32]%N ++ c :: a')
             ++ tail)
      with (34%N :: flat_map escape_char k
              ++ 34%N :: 58%N :: 32%N :: c :: a' ++ tail)
      by (cbn [app]; rewrite <- !app_assoc; reflexivity).
    cbn [parse_object]. change (negb (34 =? 34)%N) with false. cbv iota.
    rewrite (encode_scan k [] _ Hk). cbn [rev app].
    change (skip_ws (58%N :: 32%N :: c :: a' ++ tail))
      with (58%N :: 32%N :: c :: a' ++ tail).
    change (negb (58 =? 58)%N) with false. cbv iota.
    change (skip_ws (32%N :: c :: a' ++ tail)) with (skip_ws (c :: a' ++ tail)).
    rewrite (skip_ws_start _ _ Hstart). reflexivity. }
  destruct r as [|kv r].
  - rewrite dumps_members_one in Hb.
    apply bind_ok in Hb as (a & Ha & E). apply Ok_inj in E. subst body.
    rewrite (Step a (125%N :: rest) Ha eq_refl).
    destruct (Hv a Hcv Ha n (125%N :: rest) eq_refl) as [-> | ->];
      [now left|right].
    change (skip_ws (125%N :: rest)) with (125%N :: rest).
    change (125 =? 125)%N with true. cbv iota. now rewrite Hset.
  - rewrite dumps_members_more in Hb.
    apply bind_ok in Hb as (a & Ha & Hb). apply bind_ok in Hb as (b & Hb & E).
    apply Ok_inj in E. subst body.
    destruct kv as [k2 v2].
    destruct (members_head _ _ _ _ Hb) as (b' & ->).
    change (str ", ") with [44; 32]%N.
    replace ((encode_str k ++ str ": " ++ a ++ [44; 32]%N ++ 34%N :: b')
             ++ 125%N :: rest)
      with ((encode_str k ++ str ": " ++ a)
              ++ 44%N :: 32%N :: 34%N :: b' ++ 125%N :: rest)
      by (rewrite <- !app_assoc; reflexivity).
    rewrite (Step a (44%N :: 32%N :: 34%N :: b' ++ 125%N :: rest) Ha eq_refl).
    destruct (Hv a Hcv Ha n (44%N :: 32%N :: 34%N :: b' ++ 125%N :: rest) eq_refl)
      as [-> | ->]; [now left|].
    change (skip_ws (44%N :: 32%N :: 34%N :: b' ++ 125%N :: rest))
      with (44%N :: 32%N :: 34%N :: b' ++ 125%N :: rest).
    change (44 =? 125)%N with false. change (44 =? 44)%N with true. cbv iota.
    change (skip_ws (32%N :: 34%N :: b' ++ 125%N :: rest))
      with (34%N :: b' ++ 125%N :: rest).
    rewrite Hset.
    destruct (IH HF Hcr ltac:(discriminate) _ Hb n (acc ++ [(k, v)]) rest)
      as [H|H].
    + rewrite map_app, <- app_assoc. exact Hnd.
    + cbn [app] in H. rewrite H. now left.
    + cbn [app] in H. rewrite H. right. now rewrite <- app_assoc.
Qed.

Lemma reads_back_all v : reads_back v.
Proof.
  induction v as [|b|z|f|s|l IH|d IH] using pyobj_induction.
  - now apply reads_back_leaf.
  - now apply reads_back_leaf.
  - apply reads_back_int.
  - now apply reads_back_leaf.
  - apply reads_back_str.
  - intros t Hc H n rest Ht. cbn [clean] in Hc. rewrite dumps_list in H.
    apply bind_ok in H as (body & Hb & E). apply Ok_inj in E. subst t.
    destruct n as [|n]; [now left|].
    destruct l as [|x r].
    + apply Ok_inj in Hb. subst body. right. reflexivity.
    + destruct (items_head _ _ _ Hc Hb) as (c & b' & -> & Hstart).
      destruct (value_start_facts _ Hstart) as (_ & H93 & _).
      change (str "[") with [91%N]. change (str "]") with [93%N].
      replace (([91%N] ++ (c :: b') ++ [93%N]) ++ rest)
        with (91%N :: c :: b' ++ 93%N :: rest)
        by (cbn [app]; rewrite <- !app_assoc; reflexivity).
      cbn [scan_once]. change (91 =? 34)%N with false.
      change (91 =? 123)%N with false. change (91 =? 91)%N with true. cbv iota.
      rewrite (skip_ws_start _ _ Hstart), H93.
      destruct (parse_array_items _ IH Hc ltac:(discriminate) _ Hb n [] rest)
        as [H|H]; cbn [app] in H; rewrite H; auto.
  - intros t Hc H n rest Ht. cbn [clean] in Hc.
    apply andb_true_iff in Hc as [Hc Hnd]. apply bool_decide_eq_true_1 in Hnd.
    rewrite dumps_dict in H.
    apply bind_ok in H as (body & Hb & E). apply Ok_inj in E. subst t.
    destruct n as [|n]; [now left|].
    destruct d as [|[k v] r].
    + apply Ok_inj in Hb. subst body. right. reflexivity.
    + destruct (members_head _ _ _ _ Hb) as (b' & ->).
      change (str "{") with [123%N]. change (str "}") with [125%N].
      replace (([123%N] ++ (34%N :: b') ++ [125%N]) ++ rest)
        with (123%N :: 34%N :: b' ++ 125%N :: rest)
        by (cbn [app]; rewrite <- !app_assoc; reflexivity).
      cbn [scan_once]. change (123 =? 34)%N with false.
      change (123 =? 123)%N with true. cbv iota.
      change (skip_ws (34%N :: b' ++ 125%N :: rest))
        with (34%N :: b' ++ 125%N :: rest).
      cbv iota. change (34 =? 125)%N with false. cbv iota.
      destruct (parse_object_members _ IH Hc ltac:(discriminate) _ Hb n [] rest Hnd)
        as [H|H]; [left|right]; exact H.
Qed.

Lemma loads_dumps v t :
  clean v = true -> dumps float_repr v = Ok t -> loads t = Ok v.
Proof.
  intros Hc H.
  destruct (dumps_head _ _ Hc H) as (c & t' & E & Hstart).
  destruct (value_start_facts _ Hstart) as (_ & _ & _ & Hbom).
  pose proof (reads_back_all v t Hc H (2 * length t + 1)%nat [] eq_refl) as R.
  rewrite app_nil_r in R.
  pose proof (loads_fuel t) as F.
  unfold loads. rewrite E in *. rewrite Hbom.
  rewrite (skip_ws_start _ _ Hstart) in F |- *.
  destruct R as [R|R]; [contradiction|]. now rewrite R.
Qed.

Lemma dumps_raises v : forall e,
  dumps float_repr v = Raise e -> e = Exn ValueError None.
Proof.
  induction v as [|b|z|f|s|l IH|d IH] using pyobj_induction; intros e.
  - discriminate.
  - destruct b; discriminate.
  - cbn [dumps]. destruct (str_of_int_cases z) as [[t ->]| ->];
      [discriminate|now intros [= <-]].
  - discriminate.
  - discriminate.
  - rewrite dumps_list.
    assert (H : forall e', dumps_items float_repr l = Raise e' ->
                e' = Exn ValueError None).
    { clear e. induction l as [|x r IHr]; intros e'; [discriminate|].
      apply Forall_cons_1 in IH as [Hx HF].
      destruct r as [|y r]; [rewrite dumps_items_one; apply Hx|].
      rewrite dumps_items_more.
      destruct (dumps float_repr x) as [a|e0] eqn:Ex;
        [|intros [= <-]; now apply Hx].
      cbn [bind].
      destruct (dumps_items float_repr (y :: r)) as [b|e0] eqn:Er;
        [discriminate|].
      intros [= <-]. now apply IHr. }
    destruct (dumps_items float_repr l) as [body|e0]; [discriminate|].
    intros [= <-]. now apply H.
  - rewrite dumps_dict.
    assert (H : forall e', dumps_members float_repr d = Raise e' ->
                e' = Exn ValueError None).
    { clear e. induction d as [|[k v] r IHr]; intros e'; [discriminate|].
      apply Forall_cons_1 in IH as [Hv HF]. cbn [snd] in Hv.
      destruct r as [|kv r].
      - rewrite dumps_members_one.
        destruct (dumps float_repr v) as [a|e0] eqn:Ev; [discriminate|].
        intros [= <-]. now apply Hv.
      - rewrite dumps_members_more.
        destruct (dumps float_repr v) as [a|e0] eqn:Ev;
          [|intros [= <-]; now apply Hv].
        cbn [bind].
        destruct (dumps_members float_repr (kv :: r)) as [b|e0] eqn:Er;
          [discriminate|].
        intros [= <-]. now apply IHr. }
    destruct (dumps_members float_repr d) as [body|e0]; [discriminate|].
    intros [= <-]. now apply H.
Qed.

End Decode.

(** *** Under the recursion limit *)

Section DecodeWithin.

Variable float_repr : pyfloat -> pystr.

Lemma dumps_within_list room l :
  dumps_within float_repr (S room) (PList l)
  = let* body := dumps_items_within float_repr room l in
    Ok (str "[" ++ body ++ str "]").
Proof. reflexivity. Qed.

Lemma dumps_within_dict room d :
  dumps_within float_repr (S room) (PDict d)
  = let* body := dumps_members_within float_repr room d in
    Ok (str "{" ++ body ++ str "}").
Proof. reflexivity. Qed.

Lemma depth_list l room :
  (depth (PList l) <= S room)%nat <-> Forall (fun x => (depth x <= room)%nat) l.
Proof.
  cbn [depth]. rewrite <- Nat.succ_le_mono, list_max_le, Forall_map.
  reflexivity.
Qed.

Lemma depth_dict d room :
  (depth (PDict d) <= S room)%nat
  <-> Forall (fun kv => (depth (snd kv) <= room)%nat) d.
Proof.
  cbn [depth]. rewrite <- Nat.succ_le_mono, list_max_le, Forall_map.
  reflexivity.
Qed.

(** What the limit changes for the encoder: nothing for a value that fits,
    and a failure for one that does not. *)
Definition limited (room : nat) (v : pyobj) : Prop :=
  ((depth v <= room)%nat /\
   dumps_within float_repr room v = dumps float_repr v)
  \/ ((room < depth v)%nat /\
      exists e, dumps_within float_repr room v = Raise e /\
                (e = Exn ValueError None \/ e = recursion_error)).

Lemma dumps_within_limited v : forall room, limited room v.
Proof.
  induction v as [|b|z|f|s|l IH|d IH] using pyobj_induction; intros room;
    try (left; split; [cbn [depth]; lia|reflexivity]).
  - destruct room as [|room].
    { right. split; [cbn [depth]; lia|]. exists recursion_error. now split; [|right]. }
    assert (H : (Forall (fun x => (depth x <= room)%nat) l /\
                 dumps_items_within float_repr room l = dumps_items float_repr l)
                \/ (~ Forall (fun x => (depth x <= room)%nat) l /\
                    exists e, dumps_items_within float_repr room l = Raise e /\
                              (e = Exn ValueError None \/ e = recursion_error))).
    { induction l as [|x r IHr]; [left; split; [constructor|reflexivity]|].
      apply Forall_cons_1 in IH as [Hx HF]. specialize (IHr HF).
      destruct (Hx room) as [[Dx Ex]|(Dx & e & Ex & He)].
      - destruct r as [|y r].
        + left. split; [now repeat constructor|exact Ex].
        + change (dumps_items_within float_repr room (x :: y :: r))
            with (let* a := dumps_within float_repr room x in
                  let* b := dumps_items_within float_repr room (y :: r) in
                  Ok (a ++ str ", " ++ b)).
          rewrite dumps_items_more, Ex.
          destruct IHr as [[Dr Er]|(Dr & e & Er & He)].
          * left. split; [now constructor|]. now rewrite Er.
          * right. split; [intros F; apply Dr; now apply Forall_cons_1 in F|].
            destruct (dumps float_repr x) as [a|e0] eqn:E0; cbn [bind].
            -- exists e. rewrite Er. now split.
            -- exists e0. split; [reflexivity|]. left.
               now apply (dumps_raises float_repr x).
      - right. split; [intros F; apply Forall_cons_1 in F as [F _]; lia|].
        exists e. split; [|exact He].
        destruct r as [|y r]; [exact Ex|].
        change (dumps_items_within float_repr room (x :: y :: r))
          with (let* a := dumps_within float_repr room x in
                let* b := dumps_items_within float_repr room (y :: r) in
                Ok (a ++ str ", " ++ b)).
        now rewrite Ex. }
    unfold limited. rewrite dumps_within_list, dumps_list.
    destruct H as [[D E]|(D & e & E & He)].
    + left. split; [now apply depth_list|now rewrite E].
    + right. split.
      * destruct (Nat.le_gt_cases (depth (PList l)) (S room)) as [L|L];
          [|exact L]. now apply depth_list in L.
      * exists e. rewrite E. now split.
  - destruct room as [|room].
    { right. split; [cbn [depth]; lia|]. exists recursion_error. now split; [|right]. }
    assert (H : (Forall (fun kv => (depth (snd kv) <= room)%nat) d /\
                 dumps_members_within float_repr room d
                 = dumps_members float_repr d)
                \/ (~ Forall (fun kv => (depth (snd kv) <= room)%nat) d /\
                    exists e, dumps_members_within float_repr room d = Raise e /\
                              (e = Exn ValueError None \/ e = recursion_error))).
    { induction d as [|[k v] r IHr]; [left; split; [constructor|reflexivity]|].
      apply Forall_cons_1 in IH as [Hv HF]. cbn [snd] in Hv. specialize (IHr HF).
      destruct (Hv room) as [[Dv Ev]|(Dv & e & Ev & He)].
      - destruct r as [|kv r].
        + left. split; [now repeat constructor|].
          change (dumps_members_within float_repr room [(k, v)])
            with (let* a := dumps_within float_repr room v in
                  Ok (encode_str k ++ str ": " ++ a)).
          now rewrite dumps_members_one, Ev.
        + change (dumps_members_within float_repr room ((k, v) :: kv :: r))
            with (let* a := dumps_within float_repr room v in
                  let* b := dumps_members_within float_repr room (kv :: r) in
                  Ok (encode_str k ++ str ": " ++ a ++ str ", " ++ b)).
          rewrite dumps_members_more, Ev.
          destruct IHr as [[Dr Er]|(Dr & e & Er & He)].
          * left. split; [now constructor|]. now rewrite Er.
          * right. split; [intros F; apply Dr; now apply Forall_cons_1 in F|].
            destruct (dumps float_repr v) as [a|e0] eqn:E0; cbn [bind].
            -- exists e. rewrite Er. now split.
            -- exists e0. split; [reflexivity|]. left.
               now apply (dumps_raises float_repr v).
      - right. split; [intros F; apply Forall_cons_1 in F as [F _]; cbn [snd] in F; lia|].
        exists e. split; [|exact He].
        destruct r as [|kv r].
        + change (dumps_members_within float_repr room [(k, v)])
            with (let* a := dumps_within float_repr room v in
                  Ok (encode_str k ++ str ": " ++ a)).
          now rewrite Ev.
        + change (dumps_members_within float_repr room ((k, v) :: kv :: r))
            with (let* a := dumps_within float_repr room v in
                  let* b := dumps_members_within float_repr room (kv :: r) in
                  Ok (encode_str k ++ str ": " ++ a ++ str ", " ++ b)).
          now rewrite Ev. }
    unfold limited. rewrite dumps_within_dict, dumps_dict.
    destruct H as [[D E]|(D & e & E & He)].
    + left. split; [now apply depth_dict|now rewrite E].
    + right. split.
      * destruct (Nat.le_gt_cases (depth (PDict d)) (S room)) as [L|L];
          [|exact L]. now apply depth_dict in L.
      * exists e. rewrite E. now split.
Qed.


(** The scanners under the limit do not look at it before an array or an
    object opens. *)
Lemma scan_once_within_leaf room n c r :
  (c =? 123)%N = false -> (c =? 91)%N = false ->
  scan_once_within room n (c :: r) = scan_once n (c :: r).
Proof.
  intros H1 H2. destruct n as [|n]; [reflexivity|].
  cbn [scan_once_within scan_once]. now rewrite H1, H2.
Qed.

Lemma dumps_leaf_head v t :
  match v with PList _ | PDict _ => False | _ => True end ->
  clean v = true -> dumps float_repr v = Ok t ->
  exists c t', t = c :: t' /\ (c =? 123)%N = false /\ (c =? 91)%N = false.
Proof.
  destruct v as [|[|]|z|[neg m e|[|]|]|s|l|d]; intros Hv; cbn [clean];
    try destruct Hv; try discriminate; intros _.
  - intros [= <-]. now exists 110%N, (str "ull").
  - intros [= <-]. now exists 116%N, (str "rue").
  - intros [= <-]. now exists 102%N, (str "alse").
  - cbn [dumps]. intros H. apply str_of_int_text in H as [-> _].
    destruct (N_digits_head (Z.abs_N z)) as (c & ds & -> & Hc).
    destruct (z <? 0); cbn [app]; eexists _, _; (split; [reflexivity|]).
    + now split.
    + unfold is_digit in Hc. apply andb_true_iff in Hc as [H1 H2].
      apply N.leb_le in H1, H2. split; apply N.eqb_neq; lia.
  - intros [= <-]. now exists 45%N, (str "Infinity").
  - intros [= <-]. now exists 73%N, (str "nfinity").
  - intros [= <-]. now exists 78%N, (str "aN").
  - intros [= <-]. unfold encode_str. now eexists _, _.
Qed.

(** What [scan_once_within] does with the text of a value that fits the
    room left: it reads the value back, when the fuel suffices. *)
Definition reads_back_within (v : pyobj) : Prop :=
  forall t, clean v = true -> dumps float_repr v = Ok t ->
  forall room n rest, (depth v <= room)%nat -> terminator rest = true ->
    scan_once_within room n (t ++ rest) = None
    \/ scan_once_within room n (t ++ rest) = Some (Ok (v, rest)).

Lemma reads_back_within_leaf v :
  match v with PList _ | PDict _ => False | _ => True end ->
  reads_back_within v.
Proof.
  intros Hv t Hc H room n rest _ Ht.
  destruct (dumps_leaf_head _ _ Hv Hc H) as (c & t' & -> & H1 & H2).
  cbn [app]. rewrite (scan_once_within_leaf _ _ _ _ H1 H2).
  exact (reads_back_all float_repr v (c :: t') Hc H n rest Ht).
Qed.

Lemma parse_array_items_within l :
  Forall reads_back_within l -> forallb clean l = true -> l <> [] ->
  forall body, dumps_items float_repr l = Ok body ->
  forall room n acc rest,
    Forall (fun x => (depth x <= room)%nat) l ->
    parse_array_within room n (body ++ 93%N :: rest) acc = None
    \/ parse_array_within room n (body ++ 93%N :: rest) acc
       = Some (Ok (PList (acc ++ l), rest)).
Proof.
  induction l as [|x r IH]; intros HF Hc Hne body Hb room n acc rest HD;
    [contradiction|].
  destruct n as [|n]; [now left|].
  apply Forall_cons_1 in HF as [Hx HF].
  apply Forall_cons_1 in HD as [Dx HD].
  pose proof Hc as Hc'. cbn [forallb] in Hc'.
  apply andb_true_iff in Hc' as [Hcx Hcr].
  destruct r as [|y r].
  - rewrite dumps_items_one in Hb. cbn [parse_array_within].
    destruct (Hx body Hcx Hb room n (93%N :: rest) Dx eq_refl) as [-> | ->];
      [now left|right].
    reflexivity.
  - rewrite dumps_items_more in Hb.
    apply bind_ok in Hb as (a & Ha & Hb). apply bind_ok in Hb as (b & Hb & E).
    apply Ok_inj in E. subst body.
    destruct (items_head _ _ _ _ Hcr Hb) as (c & b' & -> & Hstart).
    change (str ", ") with [44; 32]%N.
    replace ((a ++ [44; 32]%N ++ c :: b') ++ 93%N :: rest)
      with (a ++ 44%N :: 32%N :: c :: b' ++ 93%N :: rest)
      by (rewrite <- !app_assoc; reflexivity).
    cbn [parse_array_within].
    destruct (Hx a Hcx Ha room n (44%N :: 32%N :: c :: b' ++ 93%N :: rest) Dx
                eq_refl) as [-> | ->]; [now left|].
    change (skip_ws (44%N :: 32%N :: c :: b' ++ 93%N :: rest))
      with (44%N :: 32%N :: c :: b' ++ 93%N :: rest).
    change (44 =? 93)%N with false. change (44 =? 44)%N with true. cbv iota.
    change (skip_ws (32%N :: c :: b' ++ 93%N :: rest))
      with (skip_ws (c :: b' ++ 93%N :: rest)).
    rewrite (skip_ws_start _ _ Hstart).
    destruct (IH HF Hcr ltac:(discriminate) _ Hb room n (acc ++ [x]) rest HD)
      as [H|H]; cbn [app] in H; rewrite H; [now left|right].
    now rewrite <- app_assoc.
Qed.

Lemma parse_object_members_within d :
  Forall (fun kv => reads_back_within (snd kv)) d ->
  forallb (fun kv => forallb scalar_char (fst kv) && clean (snd kv)) d = true ->
  d <> [] ->
  forall body, dumps_members float_repr d = Ok body ->
  forall room n acc rest,
    Forall (fun kv => (depth (snd kv) <= room)%nat) d ->
    NoDup (map fst acc ++ map fst d) ->
    parse_object_within room n (body ++ 125%N :: rest) acc = None
    \/ parse_object_within room n (body ++ 125%N :: rest) acc
       = Some (Ok (PDict (acc ++ d), rest)).
Proof.
  induction d as [|[k v] r IH]; intros HF Hc Hne body Hb room n acc rest HD Hnd;
    [contradiction|].
  destruct n as [|n]; [now left|].
  apply Forall_cons_1 in HF as [Hv HF]. cbn [snd] in Hv.
  apply Forall_cons_1 in HD as [Dv HD]. cbn [snd] in Dv.
  cbn [forallb fst snd] in Hc.
  apply andb_true_iff in Hc as [Hkv Hcr]. apply andb_true_iff in Hkv as [Hk Hcv].
  assert (Hfresh : k ∉ map fst acc).
  { cbn [map fst] in Hnd. apply NoDup_app in Hnd as (_ & Hd & _).
    intros Hin. apply (Hd _ Hin). now left. }
  assert (Hset : dict_set acc k v = acc ++ [(k, v)]) by now apply dict_set_fresh.
  assert (Step : forall a tail,
            dumps float_repr v = Ok a -> terminator tail = true ->
            parse_object_within room (S n)
              ((encode_str k ++ str ": " ++ a) ++ tail) acc
            = match scan_once_within room n (a ++ tail) with
              | None => None
              | Some (Raise e) => Some (Raise e)
              | Some (Ok (v', rest1)) =>
                  match skip_ws rest1 with
                  | c :: r2 =>
                      if (c =? 125)%N
                      then Some (Ok (PDict (dict_set acc k v'), r2))
                      else if (c =? 44)%N
                      then parse_object_within room n (skip_ws r2)
                             (dict_set acc k v')
                      else Some decode_error
                  | [] => Some decode_error
                  end
              end).
  { intros a tail Ha Ht.
    destruct (dumps_head _ _ _ Hcv Ha) as (c & a' & -> & Hstart).
    unfold encode_str, DQUOTE. change (str ": ") with [58; 32]%N.
    replace (((34%N :: flat_map escape_char k ++ [34%N]) ++ [58; 32]%N ++ c :: a')
             ++ tail)
      with (34%N :: flat_map escape_char k
              ++ 34%N :: 58%N :: 32%N :: c :: a' ++ tail)
      by (cbn [app]; rewrite <- !app_assoc; reflexivity).
    cbn [parse_object_within]. change (negb (34 =? 34)%N) with false. cbv iota.
    rewrite (encode_scan k [] _ Hk). cbn [rev app].
    change (skip_ws (58%N :: 32%N :: c :: a' ++ tail))
      with (58%N :: 32%N :: c :: a' ++ tail).
    change (negb (58 =? 58)%N) with false. cbv iota.
    change (skip_ws (32%N :: c :: a' ++ tail)) with (skip_ws (c :: a' ++ tail)).
    rewrite (skip_ws_start _ _ Hstart). reflexivity. }
  destruct r as [|kv r].
  - rewrite dumps_members_one in Hb.
    apply bind_ok in Hb as (a & Ha & E). apply Ok_inj in E. subst body.
    rewrite (Step a (125%N :: rest) Ha eq_refl).
    destruct (Hv a Hcv Ha room n (125%N :: rest) Dv eq_refl) as [-> | ->];
      [now left|right].
    change (skip_ws (125%N :: rest)) with (125%N :: rest).
    change (125 =? 125)%N with true. cbv iota. now rewrite Hset.
  - rewrite dumps_members_more in Hb.
    apply bind_ok in Hb as (a & Ha & Hb). apply bind_ok in Hb as (b & Hb & E).
    apply Ok_inj in E. subst body.
    destruct kv as [k2 v2].
    destruct (members_head _ _ _ _ _ Hb) as (b' & ->).
    change (str ", ") with [44; 32]%N.
    replace ((encode_str k ++ str ": " ++ a ++ [44; 32]%N ++ 34%N :: b')
             ++ 125%N :: rest)
      with ((encode_str k ++ str ": " ++ a)
              ++ 44%N :: 32%N :: 34%N :: b' ++ 125%N :: rest)
      by (rewrite <- !app_assoc; reflexivity).
    rewrite (Step a (44%N :: 32%N :: 34%N :: b' ++ 125%N :: rest) Ha eq_refl).
    destruct (Hv a Hcv Ha room n (44%N :: 32%N :: 34%N :: b' ++ 125%N :: rest)
                Dv eq_refl) as [-> | ->]; [now left|].
    change (skip_ws (44%N :: 32%N :: 34%N :: b' ++ 125%N :: rest))
      with (44%N :: 32%N :: 34%N :: b' ++ 125%N :: rest).
    change (44 =? 125)%N with false. change (44 =? 44)%N with true. cbv iota.
    change (skip_ws (32%N :: 34%N :: b' ++ 125%N :: rest))
      with (34%N :: b' ++ 125%N :: rest).
    rewrite Hset.
    destruct (IH HF Hcr ltac:(discriminate) _ Hb room n (acc ++ [(k, v)]) rest HD)
      as [H|H].
    + rewrite map_app, <- app_assoc. exact Hnd.
    + cbn [app] in H. rewrite H. now left.
    + cbn [app] in H. rewrite H. right. now rewrite <- app_assoc.
Qed.

Lemma reads_back_within_all v : reads_back_within v.
Proof.
  induction v as [|b|z|f|s|l IH|d IH] using pyobj_induction;
    try (now apply reads_back_within_leaf).
  - intros t Hc H room n rest HD Ht. cbn [clean] in Hc. rewrite dumps_list in H.
    apply bind_ok in H as (body & Hb & E). apply Ok_inj in E. subst t.
    destruct n as [|n]; [now left|].
    destruct room as [|room]; [cbn [depth] in HD; lia|].
    apply depth_list in HD.
    destruct l as [|x r].
    + apply Ok_inj in Hb. subst body. right. reflexivity.
    + destruct (items_head _ _ _ _ Hc Hb) as (c & b' & -> & Hstart).
      destruct (value_start_facts _ Hstart) as (_ & H93 & _).
      change (str "[") with [91%N]. change (str "]") with [93%N].
      replace (([91%N] ++ (c :: b') ++ [93%N]) ++ rest)
        with (91%N :: c :: b' ++ 93%N :: rest)
        by (cbn [app]; rewrite <- !app_assoc; reflexivity).
      cbn [scan_once_within]. change (91 =? 34)%N with false.
      change (91 =? 123)%N with false. change (91 =? 91)%N with true. cbv iota.
      rewrite (skip_ws_start _ _ Hstart), H93.
      destruct (parse_array_items_within _ IH Hc ltac:(discriminate) _ Hb room n
                  [] rest HD) as [H|H]; cbn [app] in H; rewrite H; auto.
  - intros t Hc H room n rest HD Ht. cbn [clean] in Hc.
    apply andb_true_iff in Hc as [Hc Hnd]. apply bool_decide_eq_true_1 in Hnd.
    rewrite dumps_dict in H.
    apply bind_ok in H as (body & Hb & E). apply Ok_inj in E. subst t.
    destruct n as [|n]; [now left|].
    destruct room as [|room]; [cbn [depth] in HD; lia|].
    apply depth_dict in HD.
    destruct d as [|[k v] r].
    + apply Ok_inj in Hb. subst body. right. reflexivity.
    + destruct (members_head _ _ _ _ _ Hb) as (b' & ->).
      change (str "{") with [123%N]. change (str "}") with [125%N].
      replace (([123%N] ++ (34%N :: b') ++ [125%N]) ++ rest)
        with (123%N :: 34%N :: b' ++ 125%N :: rest)
        by (cbn [app]; rewrite <- !app_assoc; reflexivity).
      cbn [scan_once_within]. change (123 =? 34)%N with false.
      change (123 =? 123)%N with true. cbv iota.
      change (skip_ws (34%N :: b' ++ 125%N :: rest))
        with (34%N :: b' ++ 125%N :: rest).
      cbv iota. change (34 =? 125)%N with false. cbv iota.
      destruct (parse_object_members_within _ IH Hc ltac:(discriminate) _ Hb room
                  n [] rest HD Hnd) as [H|H]; [left|right]; exact H.
Qed.

(** The fuel [loads_within] gives the scanner is enough. *)
Lemma loads_within_fuel room s :
  scan_once_within room (2 * length s + 1) (skip_ws s) <> None.
Proof.
  destruct (proj1 (scan_within_agrees (2 * length s + 1)) room (skip_ws s))
    as [-> | ->]; [apply loads_fuel|discriminate].
Qed.

Lemma loads_within_dumps room v t :
  clean v = true -> dumps float_repr v = Ok t -> (depth v <= room)%nat ->
  loads_within room t = Ok v.
Proof.
  intros Hc H HD.
  destruct (dumps_head _ _ _ Hc H) as (c & t' & E & Hstart).
  destruct (value_start_facts _ Hstart) as (_ & _ & _ & Hbom).
  pose proof (reads_back_within_all v t Hc H room (2 * length t + 1)%nat [] HD
                eq_refl) as R.
  rewrite app_nil_r in R.
  pose proof (loads_within_fuel room t) as F.
  unfold loads_within. rewrite E in *. rewrite Hbom.
  rewrite (skip_ws_start _ _ Hstart) in F |- *.
  destruct R as [R|R]; [contradiction|]. now rewrite R.
Qed.

End DecodeWithin.

(** *** A decoded value nests no deeper than the room left *)

Lemma scan_atom_depth s v rest : scan_atom s = Ok (v, rest) -> depth v = 0%nat.
Proof.
  unfold scan_atom.
  repeat lazymatch goal with
  | |- context [strip_prefix ?p s] =>
      destruct (strip_prefix p s); [intros [= <- _]; reflexivity|]
  end.
  destruct (match_number s) as [[[v'|e] rest']|] eqn:E; try discriminate.
  intros [= <- _]. unfold match_number in E.
  repeat lazymatch type of E with
  | (let '(_, _) := ?x in _) = _ => destruct x
  | match ?x with _ => _ end = _ => destruct x; try discriminate
  end.
  injection E as E _. unfold number_value in E.
  repeat lazymatch type of E with
  | match ?x with _ => _ end = _ => destruct x; try discriminate
  | (if ?x then _ else _) = _ => destruct x; try discriminate
  end; apply Ok_inj in E; now subst v'.
Qed.

Lemma dict_set_depth room acc k v :
  Forall (fun kv => (depth (snd kv) <= room)%nat) acc -> (depth v <= room)%nat ->
  Forall (fun kv => (depth (snd kv) <= room)%nat) (dict_set acc k v).
Proof.
  intros HF Hv. induction acc as [|[k' v'] r IH]; cbn [dict_set].
  - now repeat constructor.
  - apply Forall_cons_1 in HF as [H HF].
    destruct (pystr_eqb k' k); constructor; auto.
Qed.

Lemma scan_within_depth fuel :
  (forall room s v rest,
     scan_once_within room fuel s = Some (Ok (v, rest)) ->
     (depth v <= room)%nat) /\
  (forall room s acc v rest,
     parse_array_within room fuel s acc = Some (Ok (v, rest)) ->
     Forall (fun x => (depth x <= room)%nat) acc -> (depth v <= S room)%nat) /\
  (forall room s acc v rest,
     parse_object_within room fuel s acc = Some (Ok (v, rest)) ->
     Forall (fun kv => (depth (snd kv) <= room)%nat) acc ->
     (depth v <= S room)%nat).
Proof.
  induction fuel as [|n (IHs & IHa & IHo)]; [repeat split; discriminate|].
  repeat split.
  - intros room s v rest. destruct s as [|c r]; [discriminate|].
    cbn [scan_once_within].
    destruct (c =? 34)%N.
    { destruct (scanstring r []) as [[t rest']|e]; [|discriminate].
      intros [= <- _]. cbn [depth]. lia. }
    destruct (c =? 123)%N.
    { destruct room as [|room]; [discriminate|].
      destruct (skip_ws r) as [|c1 r1]; [discriminate|].
      destruct (c1 =? 125)%N; [intros [= <- _]; cbn; lia|].
      intros H. now apply IHo in H. }
    destruct (c =? 91)%N.
    { destruct room as [|room]; [discriminate|].
      destruct (skip_ws r) as [|c1 r1]; [discriminate|].
      destruct (c1 =? 93)%N; [intros [= <- _]; cbn; lia|].
      intros H. now apply IHa in H. }
    intros H. injection H as H. apply scan_atom_depth in H. lia.
  - intros room s acc v rest. cbn [parse_array_within].
    destruct (scan_once_within room n s) as [[[x rest1]|e]|] eqn:E;
      try discriminate.
    apply IHs in E. intros H HF.
    assert (HF' : Forall (fun x => (depth x <= room)%nat) (acc ++ [x]))
      by (apply Forall_app; split; [exact HF|now repeat constructor]).
    destruct (skip_ws rest1) as [|c r]; [discriminate|].
    destruct (c =? 93)%N.
    { injection H as <- _. now apply depth_list. }
    destruct (c =? 44)%N; [|discriminate].
    now apply IHa in H.
  - intros room s acc v rest. cbn [parse_object_within].
    destruct s as [|q r]; [discriminate|].
    destruct (negb (q =? 34)%N); [discriminate|].
    destruct (scanstring r []) as [[key rest0]|e]; [|discriminate].
    destruct (skip_ws rest0) as [|colon r1]; [discriminate|].
    destruct (negb (colon =? 58)%N); [discriminate|].
    destruct (scan_once_within room n (skip_ws r1)) as [[[x rest1]|e]|] eqn:E;
      try discriminate.
    apply IHs in E. intros H HF.
    pose proof (dict_set_depth room acc key x HF E) as HF'.
    destruct (skip_ws rest1) as [|c r2]; [discriminate|].
    destruct (c =? 125)%N.
    { injection H as <- _. now apply depth_dict. }
    destruct (c =? 44)%N; [|discriminate].
    now apply IHo in H.
Qed.

Lemma loads_within_depth room s v :
  loads_within room s = Ok v -> (depth v <= room)%nat.
Proof.
  unfold loads_within. destruct s as [|c r]; [discriminate|].
  destruct (c =? BOM)%N; [discriminate|].
  destruct (scan_once_within _ _ _) as [[[v' rest]|e]|] eqn:E; try discriminate.
  apply (proj1 (scan_within_depth _)) in E.
  destruct (skip_ws rest); [|discriminate]. now intros [= <-].
Qed.

End RoundTrip.
Import RoundTrip.

Section JsonTheorems.

Variable float_repr : pyfloat -> pystr.

(** X18: [json.dumps], called with [room_w] levels of recursion left,
    fails only with the [ValueError] of an integer beyond the digit limit
    or with [RecursionError], and a value it writes nests no deeper than
    [room_w].  From the text written for a value without finite floats,
    without surrogate code points in its texts and without a key twice in
    an object, [json.loads], called with [room_r] levels left, reads back
    exactly that value when the value nests no deeper than [room_r] and
    the decoder's other calls do not run out of levels; otherwise it
    raises [RecursionError]. *)
Theorem json_round_trip room_w runs_out room_r v :
  (forall e, Json.dumps_within float_repr room_w v = Raise e ->
             e = Exn ValueError None \/ e = Exn RecursionError None) /\
  (forall t,
     Json.dumps_within float_repr room_w v = Ok t ->
     (depth v <= room_w)%nat /\
     (clean v = true ->
      Json.loads_limited runs_out room_r t
      = if (depth v <=? room_r)%nat && negb (runs_out t) then Ok v
        else Raise (Exn RecursionError None))).
Proof.
  destruct (dumps_within_limited float_repr v room_w)
    as [[D E]|(D & e0 & E & He)]; rewrite E.
  - split; [intros e He; left; now apply (dumps_raises float_repr v)|].
    intros t Ht. split; [exact D|]. intros Hc.
    unfold Json.loads_limited.
    destruct (runs_out t); [now rewrite andb_false_r|]. rewrite andb_true_r.
    destruct (Nat.leb_spec (depth v) room_r) as [L|L].
    + now apply (loads_within_dumps float_repr).
    + destruct (loads_within_agrees room_r t) as [R|R]; [|exact R].
      rewrite (loads_dumps float_repr v t Hc Ht) in R.
      apply loads_within_depth in R. lia.
  - split; [now intros e [= <-]|discriminate].
Qed.

Variable tavily_search : pyobj -> Result pyobj.
Variable exc_str : exn -> pystr.

Abbreviation adapter :=
  (WebSearch.perform_web_search tavily_search exc_str float_repr).

(** X19: when the search service answers with hits that all have a url
    and a content, and these are clean values, the text the adapter
    returns is a JSON document that decodes to the list of the
    [{url, content}] records, in the order of the hits; unless an integer
    among them is beyond the digit limit, in which case the adapter returns
    the error text for that [ValueError]. *)
Theorem search_results_decode query results hits records text :
  tavily_search query = Ok (PDict results) ->
  dict_get results (str "results") = Some (PList hits) ->
  url_content_records hits = Some records ->
  forallb clean records = true ->
  adapter query = Ok text ->
  Json.loads text = Ok (PList records)
  \/ text = str "Error performing search: " ++ exc_str (Exn ValueError None).
Proof.
  intros H Hr Hrec Hc. rewrite adapter_cases. unfold WebSearch.search_body.
  rewrite H. cbn [bind py_getitem]. rewrite Hr. cbn [bind py_iter].
  rewrite (mapM_records _ _ Hrec). cbn [bind].
  destruct (Json.dumps float_repr (PList records)) as [t|e] eqn:E.
  - intros Ht. apply Ok_inj in Ht. subst t. left.
    now apply (loads_dumps float_repr).
  - intros Ht. apply Ok_inj in Ht. subst text. right.
    now rewrite (dumps_raises float_repr _ _ E).
Qed.

Lemma loads_error_text rest :
  Json.loads (str "Error performing search: " ++ rest)
  = Raise (Exn JSONDecodeError None).
Proof.
  change (str "Error performing search: " ++ rest)
    with (69%N :: str "rror performing search: " ++ rest).
  unfold Json.loads. change (69 =? Json.BOM)%N with false. cbv iota.
  replace (2 * length (69%N :: str "rror performing search: " ++ rest) + 1)%nat
    with (S (2 * length (69%N :: str "rror performing search: " ++ rest)))
    by lia.
  reflexivity.
Qed.

(** X20: the two kinds of adapter output cannot be confused: a
    successful search gives a text in square brackets, a failed one gives
    the text [Error performing search: ...], which is never a JSON
    document. *)
Theorem adapter_output_shape query text :
  adapter query = Ok text ->
  (exists body,
     WebSearch.search_body tavily_search float_repr query = Ok text /\
     text = str "[" ++ body ++ str "]")
  \/ (exists e,
        WebSearch.search_body tavily_search float_repr query = Raise e /\
        text = str "Error performing search: " ++ exc_str e /\
        Json.loads text = Raise (Exn JSONDecodeError None)).
Proof.
  rewrite adapter_cases.
  destruct (WebSearch.search_body tavily_search float_repr query) as [t|e] eqn:E;
    intros H; apply Ok_inj in H; subst text.
  - left. unfold WebSearch.search_body in E.
    apply bind_ok in E as (results & _ & E). apply bind_ok in E as (hits & _ & E).
    apply bind_ok in E as (objs & _ & E). apply bind_ok in E as (records & _ & E).
    rewrite dumps_list in E. apply bind_ok in E as (body & _ & E).
    apply Ok_inj in E. eauto.
  - right. exists e. split; [reflexivity|]. split; [reflexivity|].
    apply loads_error_text.
Qed.

Lemma mapM_records_none hits :
  url_content_records hits = None ->
  exists e, mapM WebSearch.record_of hits = Raise e /\
            (e = Exn KeyError None \/ e = Exn TypeError None).
Proof.
  induction hits as [|hit rest IH]; cbn [url_content_records mapM]; [discriminate|].
  destruct (url_content hit) as [r|] eqn:E.
  - rewrite (record_of_url_content _ _ E). cbn [bind].
    destruct (url_content_records rest) as [rs|]; [discriminate|].
    intros _. destruct (IH eq_refl) as (e & -> & He). eauto.
  - intros _. unfold url_content in E. unfold WebSearch.record_of.
    destruct hit as [| | | | | |d]; try (eexists; split; [reflexivity|now right]).
    cbn [py_getitem].
    destruct (dict_get d (str "url")); [|eexists; split; [reflexivity|now left]].
    destruct (dict_get d (str "content")); [discriminate|].
    eexists; split; [reflexivity|now left].
Qed.

(** X21: one hit that is not an object, or lacks [url] or [content],
    makes the whole search fail: the adapter returns the error text for a
    [KeyError] or a [TypeError], and none of the other hits. *)
Theorem malformed_hit_fails_search query results hits :
  tavily_search query = Ok (PDict results) ->
  dict_get results (str "results") = Some (PList hits) ->
  url_content_records hits = None ->
  exists e,
    (e = Exn KeyError None \/ e = Exn TypeError None) /\
    adapter query = Ok (str "Error performing search: " ++ exc_str e).
Proof.
  intros H Hr Hrec. rewrite adapter_cases. unfold WebSearch.search_body.
  rewrite H. cbn [bind py_getitem]. rewrite Hr. cbn [bind py_iter].
  destruct (mapM_records_none _ Hrec) as (e & -> & He).
  exists e. split; [exact He|reflexivity].
Qed.

End JsonTheorems.

(** X22: a macro field holding a finite float is truncated toward zero,
    not rounded: the derived integer has the sign of the number and its
    absolute value is the integer part of the number's. *)
Theorem float_field_truncated d key neg m e :
  dict_get d (str key) = Some (PFloat (FFinite neg m e)) ->
  exists z, macro (PDict d) key = Ok z /\ is_trunc neg m e z.
Proof.
  intros H. rewrite macro_dict, H. cbn [py_int int_of_float try_except].
  eexists. split; [reflexivity|].
  unfold is_trunc, signed.
  assert (Hpow : forall k, 0 <= k -> Z.of_N (2 ^ Z.to_N k) = 2 ^ k).
  { intros k Hk. rewrite N2Z.inj_pow. now rewrite Z2N.id. }
  destruct (Z.leb_spec 0 e) as [He|He].
  - pose proof (N2Z.is_nonneg (m * 2 ^ Z.to_N e)) as Hn.
    split; [destruct neg; lia|]. split; [|lia].
    intros _. rewrite <- (Hpow e He), <- N2Z.inj_mul. destruct neg; lia.
  - pose proof (N2Z.is_nonneg (m / 2 ^ Z.to_N (- e))) as Hn.
    split; [destruct neg; lia|]. split; [lia|].
    intros _. rewrite <- (Hpow (- e)) by lia.
    assert (Hp : (2 ^ Z.to_N (- e) <> 0)%N) by (apply N.pow_nonzero; discriminate).
    pose proof (N.div_mod m _ Hp) as Hdm.
    pose proof (N.mod_lt m _ Hp) as Hlt.
    replace (Z.abs (if neg then - Z.of_N (m / 2 ^ Z.to_N (- e))
                    else Z.of_N (m / 2 ^ Z.to_N (- e))))
      with (Z.of_N (m / 2 ^ Z.to_N (- e))) by (destruct neg; lia).
    remember (2 ^ Z.to_N (- e))%N as p. remember (m / p)%N as q.
    remember (m mod p)%N as r.
    apply (f_equal Z.of_N) in Hdm. rewrite N2Z.inj_add, N2Z.inj_mul in Hdm.
    apply N2Z.inj_lt in Hlt.
    pose proof (N2Z.is_nonneg r). lia.
Qed.

(** ** More on [int()] *)

Lemma to_ascii_spaces ws :
  forallb is_space ws = true -> map to_ascii ws = ws.
Proof.
  induction ws as [|c r IH]; cbn [forallb map]; [reflexivity|].
  intros [Hc Hr]%andb_true_iff. rewrite (IH Hr). f_equal.
  apply to_ascii_ascii. unfold is_space in Hc.
  apply orb_true_iff in Hc as [Hc|Hc].
  - apply andb_true_iff in Hc as [_ Hc]. apply N.leb_le in Hc.
    apply N.ltb_lt. lia.
  - apply N.eqb_eq in Hc. now subst c.
Qed.

Lemma lstrip_spaces ws s :
  forallb is_space ws = true -> lstrip (ws ++ s) = lstrip s.
Proof.
  induction ws as [|c r IH]; cbn [forallb app]; [reflexivity|].
  intros [Hc Hr]%andb_true_iff. cbn [lstrip]. rewrite Hc. now apply IH.
Qed.

Lemma lstrip_all_spaces ws : forallb is_space ws = true -> lstrip ws = [].
Proof.
  intros H. rewrite <- (app_nil_r ws). now rewrite lstrip_spaces.
Qed.

(** White space after a text is invisible to [lstrip] unless the text is
    white space itself. *)
Lemma lstrip_app_spaces s ws :
  forallb is_space ws = true ->
  match lstrip s with
  | [] => lstrip (s ++ ws) = []
  | c :: r => lstrip (s ++ ws) = c :: r ++ ws
  end.
Proof.
  intros Hws. induction s as [|c r IH]; cbn [app lstrip].
  - now apply lstrip_all_spaces.
  - destruct (is_space c); [exact IH|reflexivity].
Qed.

Lemma space_not_digit c : is_space c = true -> is_digit c = false /\ (c =? 95)%N = false.
Proof.
  unfold is_space, is_digit. intros H.
  apply orb_true_iff in H as [H|H].
  - apply andb_true_iff in H as [H1 H2]. apply N.leb_le in H1, H2.
    split; [|apply N.eqb_neq; lia].
    destruct (N.leb_spec 48 c); [lia|reflexivity].
  - apply N.eqb_eq in H. now subst c.
Qed.

Lemma scan_digits_app_spaces ws :
  forallb is_space ws = true ->
  forall s u acc cnt,
    scan_digits (s ++ ws) u acc cnt
    = match scan_digits s u acc cnt with
      | None => None
      | Some (v, n, rest) => Some (v, n, rest ++ ws)
      end.
Proof.
  intros Hws. induction s as [|c r IH]; intros u acc cnt; cbn [app].
  - destruct ws as [|c r]; [cbn [app scan_digits]; now destruct u|].
    cbn [forallb] in Hws. apply andb_true_iff in Hws as [Hc _].
    destruct (space_not_digit _ Hc) as [Hd Hu].
    cbn [scan_digits]. rewrite Hd, Hu. now destruct u.
  - cbn [scan_digits]. destruct (is_digit c); [apply IH|].
    destruct (c =? 95)%N; [destruct u; [reflexivity|apply IH]|].
    now destruct u.
Qed.

Lemma int_of_str_trailing s ws :
  forallb is_space ws = true -> int_of_str (s ++ ws) = int_of_str s.
Proof.
  intros Hws. unfold int_of_str. rewrite map_app, (to_ascii_spaces _ Hws).
  pose proof (lstrip_app_spaces (map to_ascii s) ws Hws) as L.
  destruct (lstrip (map to_ascii s)) as [|c r] eqn:E.
  - rewrite L. reflexivity.
  - rewrite L. clear L E.
    assert (Body : forall (neg : bool) (body : pystr),
              (if starts_with_underscore (body ++ ws) then raise ValueError
               else match scan_digits (body ++ ws) false 0%N 0%N with
                    | None => raise ValueError
                    | Some (v, count, rest) =>
                        if (count =? 0)%N then raise ValueError
                        else if (int_max_str_digits <? count)%N
                        then raise ValueError
                        else match lstrip rest with
                             | [] => Ok (signed neg v)
                             | _ :: _ => raise ValueError
                             end
                    end)
              = (if starts_with_underscore body then raise ValueError
                 else match scan_digits body false 0%N 0%N with
                      | None => raise ValueError
                      | Some (v, count, rest) =>
                          if (count =? 0)%N then raise ValueError
                          else if (int_max_str_digits <? count)%N
                          then raise ValueError
                          else match lstrip rest with
                               | [] => Ok (signed neg v)
                               | _ :: _ => raise ValueError
                               end
                      end)).
    { intros neg body. rewrite (scan_digits_app_spaces ws Hws).
      assert (Hu : starts_with_underscore (body ++ ws) = starts_with_underscore body
                   \/ (body = [] /\ starts_with_underscore (body ++ ws) = false)).
      { destruct body as [|b body]; [right|now left]. split; [reflexivity|].
        destruct ws as [|w ws']; [reflexivity|].
        cbn [forallb] in Hws. apply andb_true_iff in Hws as [Hw _].
        cbn [app starts_with_underscore]. now apply space_not_digit. }
      destruct Hu as [-> |[-> ->]].
      - destruct (starts_with_underscore body); [reflexivity|].
        destruct (scan_digits body false 0 0) as [[[v count] rest]|]; [|reflexivity].
        destruct (count =? 0)%N; [reflexivity|].
        destruct (_ <? _)%N; [reflexivity|].
        pose proof (lstrip_app_spaces rest ws Hws) as L.
        destruct (lstrip rest); rewrite L; reflexivity.
      - reflexivity. }
    unfold split_sign.
    destruct (c =? 45)%N; [apply Body|].
    destruct (c =? 43)%N; [apply Body|].
    apply (Body false (c :: r)).
Qed.

(** X23: white space before and after the text of a macro field is
    ignored: the field is coerced exactly as the text without it. *)
Theorem int_ignores_outer_space d key before s after :
  forallb is_space before = true -> forallb is_space after = true ->
  dict_get d (str key) = Some (PStr (before ++ s ++ after)) ->
  macro (PDict d) key = coerce (PStr s).
Proof.
  intros Hb Ha Hd. rewrite macro_dict, Hd. unfold coerce. cbn [py_int].
  f_equal. rewrite app_assoc, (int_of_str_trailing _ _ Ha).
  unfold int_of_str. rewrite map_app, (to_ascii_spaces _ Hb).
  now rewrite (lstrip_spaces _ _ Hb).
Qed.

(** ** From the conversation to the results *)

Lemma init_session_insert_fixed k v (m : gmap string sval) :
  init_session m = m -> init_session (<[k := v]> m) = <[k := v]> m.
Proof.
  intros Hm. apply map_eq. intros k'. rewrite init_session_lookup.
  destruct (decide (k = k')) as [->|Hne].
  - now rewrite lookup_insert_eq.
  - rewrite lookup_insert_ne by assumption.
    destruct (m !! k') eqn:E; [reflexivity|].
    rewrite <- Hm in E. rewrite init_session_lookup in E.
    destruct (m !! k'); [discriminate|exact E].
Qed.

Section Transitions.

Variable gemini : nat -> list Part.
Variable tavily_search : nat -> pyobj -> Result pyobj.
Variable exc_str : exn -> pystr.
Variable float_repr : pyfloat -> pystr.
Variable image_opens : list N -> bool.
Variable response_text : Content -> Result pystr.
Variable is_system_text : pystr -> bool.
Variable analysis_prompt : pystr.
Variable final_prompt : pystr.

Abbreviation script :=
  (main gemini tavily_search exc_str float_repr image_opens response_text
     is_system_text analysis_prompt final_prompt).
Abbreviation user_action :=
  (run gemini tavily_search exc_str float_repr image_opens response_text
     is_system_text analysis_prompt final_prompt).

(** X24: pressing Calculate stores the text of the model's reply to the
    final prompt, moves to the results stage, and the rerun shows the
    results page of exactly that text; the stored history is the one from
    before. *)
Theorem calculate_shows_results fuel s w history text :
  s !! "analysis_stage" = Some (SStr (str "conversation")) ->
  s !! "messages" = Some (SMessages history) ->
  snd (render_history is_system_text history) = Ok tt ->
  response_text {| role := str "model"; parts := gemini (api_calls w) |} = Ok text ->
  let stored :=
    <["analysis_stage" := SStr (str "results")]>
      (<["final_analysis" := SStr text]> (init_session s)) in
  user_action fuel CalculateClicked s w
  = Some ({| session := stored; world := advanced w;
             screen := fst (results_page text) |}, snd (results_page text)) /\
  stored !! "messages" = Some (SMessages history).
Proof.
  intros Hs Hm Hr Ht stored.
  assert (Hs' : stored !! "analysis_stage" = Some (SStr (str "results")))
    by (unfold stored; now rewrite lookup_insert_eq).
  assert (Hf' : stored !! "final_analysis" = Some (SStr text)).
  { unfold stored. rewrite lookup_insert_ne by discriminate.
    now rewrite lookup_insert_eq. }
  split.
  - unfold run.
    rewrite (script_by_stage _ _ _ _ _ _ _ _ _ fuel _ s w Conversation)
      by (now apply at_stage_lookup).
    unfold conversation_stage, stage_is, start. cbn [session emit].
    rewrite !init_session_lookup, Hs, Hm.
    change (pystr_eqb (str "conversation") (str "conversation")) with true.
    cbv iota.
    destruct (render_history is_system_text history) as [ui0 r0]. cbn [snd] in Hr.
    subst r0. cbn [world emit]. unfold send_message. rewrite Ht.
    cbn [assign with_world session world emit screen]. fold stored.
    rewrite (script_results _ _ _ _ _ _ _ _ _ _ _ _ _ _ Hs' Hf').
    rewrite (results_stage_idle _ _ _ Hs' Hf').
    assert (Hi : init_session stored = stored).
    { unfold stored. do 2 apply init_session_insert_fixed. apply init_session_idem. }
    now rewrite Hi.
  - unfold stored. rewrite !lookup_insert_ne by discriminate.
    now rewrite init_session_lookup, Hm.
Qed.

End Transitions.

(** ** Sample runs *)

Lemma extracted_object_is_enclosed_witness :
  let raw := str "Sure! " ++ breakdown_text "[]" ++ str " Enjoy." in
  extract_json raw = Ok (PDict [(str "breakdown", PList [])]) /\
  exists pre body post,
    raw = pre ++ (ch "{" :: body ++ [ch "}"]) ++ post /\
    ~ In (ch "{") pre /\ ~ In (ch "}") post.
Proof.
  intros raw.
  assert (H : extract_json raw = Ok (PDict [(str "breakdown", PList [])]))
    by (vm_compute; reflexivity).
  split; [exact H|].
  destruct (extracted_object_is_enclosed raw _ H)
    as (pre & body & post & d & E & Hpre & Hpost & _).
  exists pre, body, post. auto.
Defined.

Lemma closing_brace_before_opening_witness :
  In (ch "}") (str "} or ") /\ ~ In (ch "{") (str "} or ") /\
  In (ch "{") (str "{ ?") /\ ~ In (ch "}") (str "{ ?") /\
  locate_json (str "} or " ++ str "{ ?") = Ok [] /\
  render_results (str "} or " ++ str "{ ?")
  = ([Success; Error (Exn JSONDecodeError None);
      WriteText "Raw AI response for debugging:";
      Code (str "} or " ++ str "{ ?")], None).
Proof.
  assert (H1 : In (ch "}") (str "} or ")) by (left; reflexivity).
  assert (H2 : ~ In (ch "{") (str "} or ")) by (vm_compute; intuition discriminate).
  assert (H3 : In (ch "{") (str "{ ?")) by (left; reflexivity).
  assert (H4 : ~ In (ch "}") (str "{ ?")) by (vm_compute; intuition discriminate).
  split; [exact H1|]. split; [exact H2|]. split; [exact H3|]. split; [exact H4|].
  exact (closing_brace_before_opening _ _ H1 H2 H3 H4).
Defined.


Lemma bad_item_crashes_page_witness :
  let raw := breakdown_text "[7]" in
  let d := [(str "breakdown", PList [PInt 7])] in
  extract_json raw = Ok (PDict d) /\
  dict_get d (str "breakdown") = Some (PList ([] ++ PInt 7 :: [])) /\
  for_items [] (zero_totals, []) = Ok (zero_totals, []) /\
  is_object (PInt 7) = false /\
  render_results raw = ([Success], Some (Exn AttributeError None)).
Proof.
  intros raw d.
  assert (H1 : extract_json raw = Ok (PDict d)) by (vm_compute; reflexivity).
  assert (H2 : dict_get d (str "breakdown") = Some (PList ([] ++ PInt 7 :: [])))
    by (vm_compute; reflexivity).
  split; [exact H1|]. split; [exact H2|]. split; [reflexivity|].
  split; [reflexivity|].
  exact (proj1 (bad_item_crashes_page raw d [] (PInt 7) [] (zero_totals, [])
                  H1 H2 eq_refl) eq_refl).
Defined.

Lemma scalar_breakdown_crashes_witness :
  let raw := breakdown_text "null" in
  let d := [(str "breakdown", PNone)] in
  extract_json raw = Ok (PDict d) /\
  dict_get d (str "breakdown") = Some PNone /\
  scalar_value PNone = true /\
  render_results raw = ([Success; Warning], Some (Exn TypeError None)).
Proof.
  intros raw d.
  assert (H1 : extract_json raw = Ok (PDict d)) by (vm_compute; reflexivity).
  assert (H2 : dict_get d (str "breakdown") = Some PNone)
    by (vm_compute; reflexivity).
  split; [exact H1|]. split; [exact H2|]. split; [reflexivity|].
  exact (scalar_breakdown_crashes raw d PNone H1 H2 eq_refl).
Defined.

Lemma empty_breakdown_page_witness :
  extract_json (str "{}") = Ok (PDict []) /\
  empty_breakdown (dict_get [] (str "breakdown")) = true /\
  render_results (str "{}")
  = ([Success; Warning; Table []; Subheader "Calculated Totals";
      Metric "Total Calories" (str "0 kcal"); Metric "Total Protein" (str "0g");
      Metric "Total Carbs" (str "0g"); Metric "Total Fat" (str "0g")], None).
Proof.
  assert (H1 : extract_json (str "{}") = Ok (PDict []))
    by (vm_compute; reflexivity).
  split; [exact H1|]. split; [reflexivity|].
  exact (empty_breakdown_page (str "{}") [] H1 eq_refl).
Defined.

Lemma totals_are_column_sums_witness :
  let items := [PDict [(str "item", PStr (str "Apple")); (str "calories", PInt 95);
                       (str "carbs_grams", PStr (str "25"))];
                PDict [(str "item", PStr (str "Toast")); (str "calories", PInt 80);
                       (str "carbs_grams", PInt 15); (str "fat_grams", PNone)]] in
  let t := {| total_calories := 175; total_protein := 0;
              total_carbs := 40; total_fat := 0 |} in
  let rows := [{| Item := PStr (str "Apple"); Calories := str "95 kcal";
                  Protein := str "0g"; Carbs := str "25g"; Fat := str "0g" |};
               {| Item := PStr (str "Toast"); Calories := str "80 kcal";
                  Protein := str "0g"; Carbs := str "15g"; Fat := str "0g" |}] in
  aggregate (PList items) = Ok (t, rows) /\
  rows = map shown_row items /\
  t = {| total_calories := column_total "calories" items;
         total_protein := column_total "protein_grams" items;
         total_carbs := column_total "carbs_grams" items;
         total_fat := column_total "fat_grams" items |}.
Proof.
  intros items t rows.
  assert (H : aggregate (PList items) = Ok (t, rows)) by (vm_compute; reflexivity).
  split; [exact H|]. exact (totals_are_column_sums items t rows H).
Defined.


Lemma tool_call_forwarded_witness :
  let response := {| role := str "model"; parts := [Demo.whopper_call] |} in
  let fc := {| fc_name := str "perform_web_search";
               fc_args := [(str "query", PStr (str "Whopper calories"))] |} in
  parts response = [PartFunctionCall fc] /\
  fc_name fc = str "perform_web_search" /\
  fc_args fc = [(str "query", PStr (str "Whopper calories"))] /\
  exists text,
    tool_loop Demo.gemini Demo.tavily_search Demo.exc_str Demo.float_repr 1
      Demo.world0 [] response
    = tool_loop Demo.gemini Demo.tavily_search Demo.exc_str Demo.float_repr 0
        {| api_calls := 1; searches := [PStr (str "Whopper calories")] |}
        [{| role := str "user";
            parts := [PartFunctionResponse (str "perform_web_search")
                        [(str "content", PStr text)]] |};
         {| role := str "model"; parts := Demo.gemini 0 |}]
        {| role := str "model"; parts := Demo.gemini 0 |}.
Proof.
  intros response fc.
  split; [reflexivity|]. split; [reflexivity|]. split; [reflexivity|].
  destruct (tool_call_forwarded Demo.gemini Demo.tavily_search Demo.exc_str
              Demo.float_repr 0 Demo.world0 [] response fc []
              (PStr (str "Whopper calories")) eq_refl eq_refl eq_refl)
    as (text & _ & H).
  exists text. exact H.
Defined.

Abbreviation sample_script :=
  (main Demo.gemini Demo.tavily_search Demo.exc_str Demo.float_repr
     Demo.image_opens Demo.response_text Demo.is_system_text
     Demo.analysis_prompt Demo.final_prompt).

Lemma bad_arguments_lose_exchange_witness :
  chatting [] !! "analysis_stage" = Some (SStr (str "conversation")) /\
  chatting [] !! "messages" = Some (SMessages []) /\
  careless 0 = [bare_call] /\
  exists ui,
    run careless Demo.tavily_search Demo.exc_str Demo.float_repr
      Demo.image_opens Demo.response_text Demo.is_system_text
      Demo.analysis_prompt Demo.final_prompt 1
      (PromptSubmitted (str "hi")) (chatting []) Demo.world0
    = Some ({| session := init_session (chatting []);
               world := advanced Demo.world0; screen := ui |},
            Crashed (Exn TypeError None)).
Proof.
  assert (Hs : chatting [] !! "analysis_stage" = Some (SStr (str "conversation")))
    by (vm_compute; reflexivity).
  assert (Hm : chatting [] !! "messages" = Some (SMessages []))
    by (vm_compute; reflexivity).
  split; [exact Hs|]. split; [exact Hm|]. split; [reflexivity|].
  exact (bad_arguments_lose_exchange careless Demo.tavily_search Demo.exc_str
           Demo.float_repr Demo.image_opens Demo.response_text
           Demo.is_system_text Demo.analysis_prompt Demo.final_prompt
           0 (chatting []) Demo.world0 [] 104%N [105%N]
           {| fc_name := str "perform_web_search"; fc_args := [] |} []
           Hs Hm eq_refl eq_refl eq_refl
           (fun v H => eq_ind [] (fun l => match l with [] => True | _ :: _ => False end)
                         I _ H)).
Defined.

Lemma stage_moves_forward_witness :
  at_stage ∅ Upload /\
  exists st,
    sample_script 8 (FileUploaded [255; 216; 255]%N) ∅ Demo.world0
    = Some (st, Rerun) /\
    at_stage (session st) Analyzing.
Proof.
  assert (Hs : at_stage ∅ Upload) by (vm_compute; reflexivity).
  split; [exact Hs|].
  destruct (sample_script 8 (FileUploaded [255; 216; 255]%N) ∅ Demo.world0)
    as [[st c]|] eqn:E; [|vm_compute in E; discriminate].
  assert (Hc : c = Rerun) by (vm_compute in E; now injection E as _ <-).
  subst c. exists st. split; [reflexivity|].
  destruct (stage_moves_forward _ _ _ _ _ _ _ _ _ _ _ _ _ _ _ _ Hs E)
    as [H|[(g' & Hn & _ & _ & H)|(H & _)]].
  - exfalso. revert H. vm_compute in E. injection E as <-.
    vm_compute. discriminate.
  - injection Hn as <-. exact H.
  - discriminate.
Defined.

Lemma image_captured_once_witness :
  at_stage (chatting []) Conversation /\
  exists st c,
    sample_script 8 CalculateClicked (chatting []) Demo.world0 = Some (st, c) /\
    session st !! "uploaded_image_data" = Some (SBytes [255; 216; 255]%N).
Proof.
  assert (Hs : at_stage (chatting []) Conversation) by (vm_compute; reflexivity).
  split; [exact Hs|].
  destruct (sample_script 8 CalculateClicked (chatting []) Demo.world0)
    as [[st c]|] eqn:E; [|vm_compute in E; discriminate].
  exists st, c. split; [reflexivity|].
  destruct (image_captured_once _ _ _ _ _ _ _ _ _ _ _ _ _ _ _ _ Hs E)
    as [H|[(H & _)|(H & _)]]; [|discriminate..].
  rewrite H. vm_compute. reflexivity.
Defined.

Lemma services_called_on_demand_witness :
  at_stage (chatting []) Conversation /\
  exists st c,
    sample_script 8 (PromptSubmitted (str "It is a Whopper")) (chatting [])
      {| api_calls := 1; searches := [] |} = Some (st, c) /\
    length (searches (world st)) = 1%nat /\ api_calls (world st) = 3%nat.
Proof.
  assert (Hs : at_stage (chatting []) Conversation) by (vm_compute; reflexivity).
  split; [exact Hs|].
  destruct (sample_script 8 (PromptSubmitted (str "It is a Whopper")) (chatting [])
              {| api_calls := 1; searches := [] |})
    as [[st c]|] eqn:E; [|vm_compute in E; discriminate].
  exists st, c. split; [reflexivity|].
  assert (Hq : length (searches (world st)) = 1%nat)
    by (vm_compute in E; now injection E as <- _).
  split; [exact Hq|].
  destruct (services_called_on_demand _ _ _ _ _ _ _ _ _ _ _ _ _ _ _ _ Hs E)
    as [H|[(H & _)|(_ & p & qs & _ & Hs' & Ha)]].
  - exfalso. rewrite H in Hq. discriminate.
  - exfalso. rewrite H in Hq. discriminate.
  - rewrite Hs' in Hq. cbn [searches app] in Hq. rewrite Ha, Hq. reflexivity.
Defined.

Lemma history_grows_by_appending_witness :
  at_stage (chatting []) Conversation /\
  init_session (chatting []) !! "messages" = Some (SMessages []) /\
  exists st c,
    sample_script 8 CalculateClicked (chatting []) Demo.world0 = Some (st, c) /\
    session st !! "analysis_stage" = Some (SStr (str "results")) /\
    session st !! "messages" = Some (SMessages []).
Proof.
  assert (Hs : at_stage (chatting []) Conversation) by (vm_compute; reflexivity).
  assert (Hm : init_session (chatting []) !! "messages" = Some (SMessages []))
    by (vm_compute; reflexivity).
  split; [exact Hs|]. split; [exact Hm|].
  destruct (sample_script 8 CalculateClicked (chatting []) Demo.world0)
    as [[st c]|] eqn:E; [|vm_compute in E; discriminate].
  exists st, c. split; [reflexivity|].
  split; [vm_compute in E; injection E as <- _; vm_compute; reflexivity|].
  destruct (history_grows_by_appending _ _ _ _ _ _ _ _ _ _ _ _ _ _ _ _ _ Hs Hm E)
    as [H|[(_ & p & a & H & _)|[(H & _)|(H & _)]]];
    [exact H|discriminate..].
Defined.


Lemma empty_reply_breaks_chat_witness :
  chatting [] !! "analysis_stage" = Some (SStr (str "conversation")) /\
  chatting [] !! "messages" = Some (SMessages []) /\
  silent 0 = [] /\
  exists st,
    run silent Demo.tavily_search Demo.exc_str Demo.float_repr
      Demo.image_opens Demo.response_text Demo.is_system_text
      Demo.analysis_prompt Demo.final_prompt 1
      (PromptSubmitted (str "hi")) (chatting []) Demo.world0
    = Some (st, Crashed (Exn IndexError None)).
Proof.
  assert (Hs : chatting [] !! "analysis_stage" = Some (SStr (str "conversation")))
    by (vm_compute; reflexivity).
  assert (Hm : chatting [] !! "messages" = Some (SMessages []))
    by (vm_compute; reflexivity).
  split; [exact Hs|]. split; [exact Hm|]. split; [reflexivity|].
  destruct (empty_reply_breaks_chat silent Demo.tavily_search Demo.exc_str
              Demo.float_repr Demo.image_opens Demo.response_text
              Demo.is_system_text Demo.analysis_prompt Demo.final_prompt
              0 (chatting []) Demo.world0 [] 104%N [105%N] Idle
              Hs Hm eq_refl eq_refl) as (ui & ui' & H & _).
  eexists. exact H.
Defined.

Lemma tool_turns_shown_empty_witness :
  let m := {| role := str "model"; parts := [Demo.whopper_call] |} in
  Demo.is_system_text [] = false /\
  render_history Demo.is_system_text [m] = ([ChatMessage (str "model") []], Ok tt) /\
  In (ChatMessage (role m) []) [ChatMessage (str "model") []].
Proof.
  intros m.
  split; [reflexivity|]. split; [reflexivity|].
  exact (tool_turns_shown_empty Demo.is_system_text [m]
           [ChatMessage (str "model") []] m eq_refl eq_refl
           (or_introl eq_refl) (or_introl eq_refl) (or_intror eq_refl)).
Defined.

Lemma json_round_trip_witness :
  let v := PList [PDict [(str "url", PStr (str "https://bk.example/caf" ++ [233%N]));
                         (str "content", PStr (str "660 kcal " ++ [128512%N]))];
                  PInt (-5); PNone; PBool true] in
  clean v = true /\ depth v = 2%nat /\
  exists t, Json.dumps_within Demo.float_repr 2 v = Ok t /\
            Json.loads_limited only_nesting 2 t = Ok v /\
            Json.loads_limited only_nesting 1 t = Raise (Exn RecursionError None).
Proof.
  intros v.
  assert (Hc : clean v = true) by (vm_compute; reflexivity).
  split; [exact Hc|]. split; [reflexivity|].
  destruct (Json.dumps_within Demo.float_repr 2 v) as [t|e] eqn:E;
    [|vm_compute in E; discriminate].
  exists t. split; [reflexivity|]. split.
  - exact (proj2 (proj2 (json_round_trip Demo.float_repr 2 only_nesting 2 v) t E)
             Hc).
  - exact (proj2 (proj2 (json_round_trip Demo.float_repr 2 only_nesting 1 v) t E)
             Hc).
Defined.

Lemma search_results_decode_witness :
  let query := PStr (str "Whopper calories") in
  let hit := PDict [(str "title", PStr (str "Whopper"));
                    (str "url", PStr (str "https://bk.example/whopper"));
                    (str "content", PStr (str "660 kcal"));
                    (str "score", PInt 1)] in
  let records := [PDict [(str "url", PStr (str "https://bk.example/whopper"));
                         (str "content", PStr (str "660 kcal"))]] in
  Demo.tavily_search 0 query
  = Ok (PDict [(str "query", query); (str "results", PList [hit])]) /\
  url_content_records [hit] = Some records /\
  forallb clean records = true /\
  exists text,
    WebSearch.perform_web_search (Demo.tavily_search 0) Demo.exc_str
      Demo.float_repr query = Ok text /\
    Json.loads text = Ok (PList records).
Proof.
  intros query hit records.
  assert (Hc : forallb clean records = true) by (vm_compute; reflexivity).
  split; [reflexivity|]. split; [reflexivity|]. split; [exact Hc|].
  destruct (WebSearch.perform_web_search (Demo.tavily_search 0) Demo.exc_str
              Demo.float_repr query) as [text|e] eqn:E;
    [|vm_compute in E; discriminate].
  exists text. split; [reflexivity|].
  destruct (search_results_decode Demo.float_repr (Demo.tavily_search 0)
              Demo.exc_str query _ [hit] records text eq_refl eq_refl eq_refl
              Hc E) as [H|H]; [exact H|].
  exfalso. rewrite H in E. vm_compute in E. discriminate.
Defined.

Lemma adapter_output_shape_witness :
  WebSearch.perform_web_search (Demo.tavily_search 0) Demo.exc_str
    Demo.float_repr PNone = Ok (str "Error performing search: bad request") /\
  Json.loads (str "Error performing search: bad request")
  = Raise (Exn JSONDecodeError None).
Proof.
  assert (H : WebSearch.perform_web_search (Demo.tavily_search 0) Demo.exc_str
                Demo.float_repr PNone
              = Ok (str "Error performing search: bad request"))
    by (vm_compute; reflexivity).
  split; [exact H|].
  destruct (adapter_output_shape Demo.float_repr (Demo.tavily_search 0)
              Demo.exc_str PNone _ H) as [(body & Hb & _)|(e & _ & _ & Hl)].
  - vm_compute in Hb. discriminate.
  - exact Hl.
Defined.

Lemma malformed_hit_fails_search_witness :
  let good := PDict [(str "url", PStr (str "https://bk.example/whopper"));
                     (str "content", PStr (str "660 kcal"))] in
  let bad := PDict [(str "url", PStr (str "https://bk.example/fries"))] in
  let service (q : pyobj) : Result pyobj :=
    Ok (PDict [(str "results", PList [good; bad])]) in
  url_content_records [good; bad] = None /\
  WebSearch.perform_web_search service Demo.exc_str Demo.float_repr
    (PStr (str "fries"))
  = Ok (str "Error performing search: bad request").
Proof.
  intros good bad service.
  split; [reflexivity|].
  destruct (malformed_hit_fails_search Demo.float_repr service Demo.exc_str
              (PStr (str "fries")) _ [good; bad] eq_refl eq_refl eq_refl)
    as (e & _ & H).
  exact H.
Defined.

Lemma float_field_truncated_witness :
  let d := [(str "item", PStr (str "Soup"));
            (str "calories", PFloat (FFinite true 7675 (-3)))] in
  dict_get d (str "calories") = Some (PFloat (FFinite true 7675 (-3))) /\
  macro (PDict d) "calories" = Ok (-959) /\
  is_trunc true 7675 (-3) (-959).
Proof.
  intros d.
  assert (Hd : dict_get d (str "calories") = Some (PFloat (FFinite true 7675 (-3))))
    by (vm_compute; reflexivity).
  split; [exact Hd|].
  destruct (float_field_truncated d "calories" true 7675 (-3) Hd) as (z & Hz & Ht).
  assert (E : macro (PDict d) "calories" = Ok (-959)) by (vm_compute; reflexivity).
  rewrite E in Hz. apply Ok_inj in Hz. subst z. split; [reflexivity|exact Ht].
Defined.

Lemma int_ignores_outer_space_witness :
  let d := [(str "calories", PStr (str " " ++ str "95" ++ [LF]))] in
  forallb is_space (str " ") = true /\ forallb is_space [LF] = true /\
  dict_get d (str "calories") = Some (PStr (str " " ++ str "95" ++ [LF])) /\
  macro (PDict d) "calories" = coerce (PStr (str "95")) /\
  coerce (PStr (str "95")) = Ok 95.
Proof.
  intros d.
  assert (Hd : dict_get d (str "calories")
               = Some (PStr (str " " ++ str "95" ++ [LF])))
    by (vm_compute; reflexivity).
  split; [reflexivity|]. split; [reflexivity|]. split; [exact Hd|].
  split; [|vm_compute; reflexivity].
  exact (int_ignores_outer_space d "calories" (str " ") (str "95") [LF]
           eq_refl eq_refl Hd).
Defined.

Lemma calculate_shows_results_witness :
  let w := {| api_calls := 3; searches := [] |} in
  chatting [] !! "analysis_stage" = Some (SStr (str "conversation")) /\
  chatting [] !! "messages" = Some (SMessages []) /\
  Demo.response_text {| role := str "model"; parts := Demo.gemini 3 |}
  = Ok apple_text /\
  exists st,
    run Demo.gemini Demo.tavily_search Demo.exc_str Demo.float_repr
      Demo.image_opens Demo.response_text Demo.is_system_text
      Demo.analysis_prompt Demo.final_prompt 8 CalculateClicked (chatting []) w
    = Some (st, Completed) /\
    screen st = fst (results_page apple_text) /\
    session st !! "final_analysis" = Some (SStr apple_text).
Proof.
  intros w.
  assert (Hs : chatting [] !! "analysis_stage" = Some (SStr (str "conversation")))
    by (vm_compute; reflexivity).
  assert (Hm : chatting [] !! "messages" = Some (SMessages []))
    by (vm_compute; reflexivity).
  split; [exact Hs|]. split; [exact Hm|]. split; [reflexivity|].
  destruct (calculate_shows_results Demo.gemini Demo.tavily_search Demo.exc_str
              Demo.float_repr Demo.image_opens Demo.response_text
              Demo.is_system_text Demo.analysis_prompt Demo.final_prompt
              8 (chatting []) w [] apple_text Hs Hm eq_refl eq_refl) as [H _].
  assert (Hc : snd (results_page apple_text) = Completed)
    by (vm_compute; reflexivity).
  rewrite Hc in H.
  eexists. split; [exact H|]. split; [reflexivity|].
  cbn [session]. rewrite lookup_insert_ne by discriminate.
  now rewrite lookup_insert_eq.
Defined.
